(** * A shallow embedding of the MCP demo: tool server and LLM client

    The development follows the two Python modules it verifies.

    - [Server] embeds [mcp_http_server.py]: the two [greet] tool
      definitions and the [calculate] tool.
    - [Client] embeds [MCPLLMClient.process_query] of
      [mcp_llm_client.py]: the query orchestration that turns tool
      descriptors into function specs, asks the completion service,
      executes the requested tool calls and asks once more.
    - [LLM] embeds the rest of that module: the interactive loop,
      [connect_to_server], [cleanup] and [main]; [HTTP] embeds the
      commands and the interactive loop of [mcp_http_client.py].

    Python values are modelled as the code has them: [str] as [string],
    [float] as an IEEE-754 binary64 value ([spec_float] at precision 53),
    [None]-able fields as [option], lists as [list], and a call that
    either returns or raises as an [outcome].  The remote session, the
    completion service and the [json] module are parameters of the
    client's model.  The tools' log lines are part of what a tool does
    and are modelled; the client's own [logger.info] lines change
    neither its state nor its result and are left out. *)

From Stdlib Require Import String Ascii List Bool Arith Lia ZArith.
From Stdlib Require Import SpecFloat DecimalString.
Import ListNotations.
Local Open Scope list_scope.
Local Open Scope string_scope.

Set Implicit Arguments.

(** ** Python outcomes: a call returns a value or raises an exception *)

Inductive exn : Type :=
| RuntimeError (msg : string)
| ValueError (msg : string)
| IndexError (msg : string)
| JSONDecodeError (doc : string)
| EOFError (msg : string)
| RemoteError (detail : string)   (* an [Exception] of a remote collaborator *)
| KeyboardInterrupt
| CancelledError                  (* [asyncio.CancelledError] *)
| SystemExit.

(** [isinstance(e, Exception)]: [KeyboardInterrupt], [CancelledError]
    and [SystemExit] derive from [BaseException] only, so that
    [except Exception] lets them through. *)
Definition is_exception (e : exn) : bool :=
  match e with
  | KeyboardInterrupt | CancelledError | SystemExit => false
  | _ => true
  end.

(** [isinstance(e, KeyboardInterrupt)] *)
Definition is_keyboard_interrupt (e : exn) : bool :=
  match e with
  | KeyboardInterrupt => true
  | _ => false
  end.

Inductive outcome (A : Type) : Type :=
| Return (a : A)
| Raise (e : exn).

Arguments Return {A} a.
Arguments Raise {A} e.

Definition raises {A : Type} (o : outcome A) : Prop :=
  exists e, o = Raise e.

Definition newline : string := String (ascii_of_nat 10) EmptyString.

(** Python truthiness of a [str] and of an optional [str]. *)
Definition str_truthy (s : string) : bool :=
  negb (String.eqb s "").

Definition opt_str_truthy (o : option string) : bool :=
  match o with
  | None => false
  | Some s => str_truthy s
  end.

(** [x or ""] for an optional string [x]. *)
Definition or_empty (o : option string) : string :=
  match o with
  | None => ""
  | Some s => if str_truthy s then s else ""
  end.

(** ** A state-and-exception monad

    [await]ed calls and list mutations are sequenced over a state; the
    state reached so far survives a raise, so that what happened before
    a failure stays observable. *)

Definition M (S A : Type) : Type := S -> outcome A * S.

Definition ret {S A : Type} (a : A) : M S A := fun s => (Return a, s).

Definition raise {S A : Type} (e : exn) : M S A := fun s => (Raise e, s).

Definition bind {S A B : Type} (m : M S A) (k : A -> M S B) : M S B :=
  fun s =>
    match m s with
    | (Return a, s') => k a s'
    | (Raise e, s') => (Raise e, s')
    end.

(** A pure computation that may raise. *)
Definition lift {S A : Type} (o : outcome A) : M S A := fun s => (o, s).

Declare Scope py_scope.
Delimit Scope py_scope with py.
Notation "x <- m ;; k" := (bind m (fun x => k))
  (at level 61, m at next level, right associativity) : py_scope.
Notation "m ;; k" := (bind m (fun _ => k))
  (at level 61, right associativity) : py_scope.

(** [for x in l: body(x)] *)
Fixpoint for_each {S A : Type} (body : A -> M S unit) (l : list A) : M S unit :=
  match l with
  | [] => ret tt
  | x :: rest => bind (body x) (fun _ => for_each body rest)
  end.

(** * The tool server, [mcp_http_server.py] *)

Module Server.

(** A tool body logs through [logger.info] and then returns or
    raises: the log lines come first, the outcome second. *)
Definition logged (A : Type) : Type := (list string * outcome A)%type.

(** Python [float]: binary64. *)
Definition prec : Z := 53.
Definition emax : Z := 1024.
Definition float : Type := spec_float.

Definition fzero : float := S754_zero false.
Definition fadd : float -> float -> float := SFadd prec emax.
Definition fsub : float -> float -> float := SFsub prec emax.
Definition fmul : float -> float -> float := SFmul prec emax.
Definition fdiv : float -> float -> float := SFdiv prec emax.
(** [x == y] on floats. *)
Definition feq : float -> float -> bool := SFeqb.

(** The first [greet], lines 22-26. *)
Module Decl1.
Definition greet (name : string) : logged string :=
  (["Greeting " ++ name], Return ("Hello, " ++ name ++ "!")).
End Decl1.

(** The second [greet], lines 29-33. *)
Module Decl2.
Definition greet (name : string) : logged string :=
  (["Greeting " ++ name], Return ("Hello, " ++ name ++ "!")).
End Decl2.

(** The module registers its tools under their function names in the
    order of the decorators; both [greet] bodies are submitted under
    the one name. *)
Definition greet_registrations : list (string * (string -> logged string)) :=
  [("greet", Decl1.greet); ("greet", Decl2.greet)].

(** The two ways a registry can settle a duplicate name. *)
Fixpoint lookup_first {A : Type} (k : string) (l : list (string * A)) : option A :=
  match l with
  | [] => None
  | (k', v) :: rest => if String.eqb k k' then Some v else lookup_first k rest
  end.

Definition lookup_last {A : Type} (k : string) (l : list (string * A)) : option A :=
  lookup_first k (rev l).

Section Calculate.

(** How an f-string renders a float; only the log line uses it. *)
Variable format_float : float -> string.

(** [calculate], lines 36-60. *)
Definition calculate (operation : string) (a b : float) : logged float :=
  (["Calculating " ++ operation ++ " with " ++ format_float a
      ++ " and " ++ format_float b],
   if String.eqb operation "add" then Return (fadd a b)
   else if String.eqb operation "subtract" then Return (fsub a b)
   else if String.eqb operation "multiply" then Return (fmul a b)
   else if String.eqb operation "divide" then
     if feq b fzero then Raise (ValueError "Cannot divide by zero")
     else Return (fdiv a b)
   else Raise (ValueError ("Unknown operation: " ++ operation))).

End Calculate.

(** The operation names [calculate] knows. *)
Definition operations : list string := ["add"; "subtract"; "multiply"; "divide"].

(** A float is a zero, of either sign. *)
Definition is_zero (x : float) : Prop := exists s, x = S754_zero s.

End Server.

(** * The LLM client, [mcp_llm_client.py] *)

Module Client.

(** ** Data exchanged with the two external services *)

(** The role of a chat message: the four string literals the code
    writes under the key ["role"]. *)
Inductive role : Type := system | user | assistant | tool.

(** The ["function"] entry of a tool call inside a message dict:
    [{"name": ..., "arguments": ...}], arguments serialised. *)
Record function_dict : Type := {
  fd_name : string;
  fd_arguments : string
}.

(** One entry of a message dict's ["tool_calls"] list. *)
Record tool_call_dict : Type := {
  tcd_id : string;
  tcd_type : string;
  tcd_function : function_dict
}.

(** A message dict of the transcript.  A key the code does not write
    is [None] here. *)
Record message : Type := {
  msg_role : role;
  msg_content : option string;
  msg_tool_calls : option (list tool_call_dict);
  msg_tool_call_id : option string
}.

(** The completion service's answer, as far as the code reads it:
    [response.choices[0].message] with [content] and [tool_calls], each
    tool call with [id], [function.name] and [function.arguments]. *)
Record function_call : Type := {
  fn_name : string;
  fn_arguments : string
}.

Record tool_call : Type := {
  tc_id : string;
  tc_function : function_call
}.

Record chat_message : Type := {
  content : option string;
  tool_calls : option (list tool_call)
}.

Record choice : Type := {
  choice_message : chat_message
}.

Record completion : Type := {
  choices : list choice
}.

Section Orchestration.

(** Values whose inner structure the client never inspects. *)
Variable Schema : Type.    (* a tool's [inputSchema] *)
Variable JSON : Type.      (* what [json.loads] returns *)
Variable Content : Type.   (* [result.content] of a tool call *)
Variable Session : Type.   (* the [ClientSession] object *)
Variable World : Type.     (* the state of the remote collaborators *)

(** A tool descriptor of the listing, [response.tools]. *)
Record Tool : Type := {
  name : string;
  description : option string;
  inputSchema : Schema
}.

(** The function spec sent to the completion service:
    [{"type": "function", "function": {"name", "description", "parameters"}}]. *)
Record function_spec : Type := {
  spec_name : string;
  spec_description : option string;
  spec_parameters : Schema
}.

Record openai_tool : Type := {
  ot_type : string;
  ot_function : function_spec
}.

(** The keyword arguments of [chat.completions.create]. *)
Record request : Type := {
  req_model : string;
  req_messages : list message;
  req_tools : option (list openai_tool);
  req_tool_choice : option string
}.

(** The result object of [session.call_tool]. *)
Record CallToolResult : Type := {
  result_content : Content;
  isError : bool
}.

(** An entry of the local list [tool_calls]. *)
Record tool_record : Type := {
  rec_name : string;
  rec_args : JSON;
  rec_result : Content
}.

(** What an instrumented session and completion service observe, in
    the order it happens. *)
Inductive event : Type :=
| CompletionCall (req : request)
| ToolCallBegin (tool_name : string) (tool_args : JSON)
| ToolCallEnd (result : outcome CallToolResult).

(** The external collaborators.  Each remote call may change the
    world and may raise. *)
Variable chat_completions_create : request -> World -> outcome completion * World.
Variable call_tool : Session -> string -> JSON -> World -> outcome CallToolResult * World.
Variable json_loads : string -> outcome JSON.
Variable json_dumps : JSON -> string.
Variable str : Content -> string.

(** The client object, as far as the method reads it. *)
Record MCPLLMClient : Type := {
  session : option Session;
  available_tools : list Tool
}.

(** ** The state of one [process_query] activation

    The three local lists the method mutates, the world, and two
    observation logs: the remote calls in order, and the transcript
    after each of its updates. *)
Record state : Type := {
  world : World;
  messages : list message;
  final_text : list string;
  st_tool_calls : list tool_record;
  trace : list event;
  snapshots : list (list message)
}.

Definition initial (w : World) : state :=
  {| world := w; messages := []; final_text := []; st_tool_calls := [];
     trace := []; snapshots := [] |}.

(** State updates, one per mutated component. *)

Definition with_world (w : World) (s : state) : state :=
  {| world := w; messages := messages s; final_text := final_text s;
     st_tool_calls := st_tool_calls s; trace := trace s;
     snapshots := snapshots s |}.

Definition with_event (e : event) (s : state) : state :=
  {| world := world s; messages := messages s; final_text := final_text s;
     st_tool_calls := st_tool_calls s; trace := (trace s ++ [e])%list;
     snapshots := snapshots s |}.

(** Every update of the transcript is logged with its new value. *)
Definition with_messages (ms : list message) (s : state) : state :=
  {| world := world s; messages := ms; final_text := final_text s;
     st_tool_calls := st_tool_calls s; trace := trace s;
     snapshots := (snapshots s ++ [ms])%list |}.

Definition with_final_text (ft : list string) (s : state) : state :=
  {| world := world s; messages := messages s; final_text := ft;
     st_tool_calls := st_tool_calls s; trace := trace s;
     snapshots := snapshots s |}.

Definition with_tool_calls (tcs : list tool_record) (s : state) : state :=
  {| world := world s; messages := messages s; final_text := final_text s;
     st_tool_calls := tcs; trace := trace s; snapshots := snapshots s |}.

Definition get_messages : M state (list message) := fun s => (Return (messages s), s).

Definition get_final_text : M state (list string) := fun s => (Return (final_text s), s).

Definition get_tool_calls : M state (list tool_record) :=
  fun s => (Return (st_tool_calls s), s).

(** [messages = [...]] *)
Definition messages_assign (ms : list message) : M state unit :=
  fun s => (Return tt, with_messages ms s).

(** [messages.append(m)] *)
Definition messages_append (m : message) : M state unit :=
  fun s => (Return tt, with_messages (messages s ++ [m])%list s).

(** [final_text.append(t)] *)
Definition final_text_append (t : string) : M state unit :=
  fun s => (Return tt, with_final_text (final_text s ++ [t])%list s).

(** [tool_calls.append(r)] *)
Definition tool_calls_append (r : tool_record) : M state unit :=
  fun s => (Return tt, with_tool_calls (st_tool_calls s ++ [r])%list s).

(** [await self.openai.chat.completions.create(...)]: the call is
    observed, then the service answers or fails. *)
Definition create (req : request) : M state completion :=
  fun s =>
    let s1 := with_event (CompletionCall req) s in
    let (o, w) := chat_completions_create req (world s1) in
    (o, with_world w s1).

(** [await self.session.call_tool(tool_name, tool_args)]: the call is
    observed when it starts and when it is over. *)
Definition session_call_tool (sess : Session) (tool_name : string)
    (tool_args : JSON) : M state CallToolResult :=
  fun s =>
    let s1 := with_event (ToolCallBegin tool_name tool_args) s in
    let (o, w) := call_tool sess tool_name tool_args (world s1) in
    (o, with_event (ToolCallEnd o) (with_world w s1)).

(** [response.choices[0].message] *)
Definition first_choice_message (response : completion) : outcome chat_message :=
  match choices response with
  | [] => Raise (IndexError "list index out of range")
  | c :: _ => Return (choice_message c)
  end.

(** ** The catalog transform, lines 86-95 *)

Definition to_openai_tool (t : Tool) : openai_tool :=
  {| ot_type := "function";
     ot_function := {| spec_name := name t;
                       spec_description := description t;
                       spec_parameters := inputSchema t |} |}.

(** The loop appends one record per descriptor to a list that starts
    empty. *)
Definition convert_tools (tools : list Tool) : list openai_tool :=
  fold_left (fun openai_tools t => (openai_tools ++ [to_openai_tool t])%list)
            tools [].

(** ** The transcript messages the method builds *)

Definition system_prompt : string :=
  "You are a helpful assistant that can use tools to help users accomplish tasks.".

Definition missing_key_text : string :=
  "Error: OPENAI_API_KEY environment variable not set. Please create a .env file with your API key.".

Definition system_message : message :=
  {| msg_role := system; msg_content := Some system_prompt;
     msg_tool_calls := None; msg_tool_call_id := None |}.

Definition user_message (query : string) : message :=
  {| msg_role := user; msg_content := Some query;
     msg_tool_calls := None; msg_tool_call_id := None |}.

(** Lines 127-140: the assistant message that re-describes one tool call. *)
Definition echo_message (tc : tool_call) (tool_name : string) (tool_args : JSON)
    : message :=
  {| msg_role := assistant; msg_content := None;
     msg_tool_calls :=
       Some [ {| tcd_id := tc_id tc; tcd_type := "function";
                 tcd_function := {| fd_name := tool_name;
                                    fd_arguments := json_dumps tool_args |} |} ];
     msg_tool_call_id := None |}.

(** Lines 141-145: the tool-role message that carries the result. *)
Definition result_message (tc : tool_call) (result : CallToolResult) : message :=
  {| msg_role := tool; msg_content := Some (str (result_content result));
     msg_tool_calls := None; msg_tool_call_id := Some (tc_id tc) |}.

(** ** The body of the loop over [message.tool_calls], lines 114-145 *)

Definition execute_tool_call (sess : Session) (tc : tool_call) : M state unit :=
  (let tool_name := fn_name (tc_function tc) in
   tool_args <- lift (json_loads (fn_arguments (tc_function tc))) ;;
   result <- session_call_tool sess tool_name tool_args ;;
   tool_calls_append {| rec_name := tool_name; rec_args := tool_args;
                        rec_result := result_content result |} ;;
   messages_append (echo_message tc tool_name tool_args) ;;
   messages_append (result_message tc result))%py.

(** Truthiness of [message.tool_calls]: [None] and the empty list are
    falsy. *)
Definition requested_tool_calls (m : chat_message) : list tool_call :=
  match tool_calls m with
  | None => []
  | Some tcs => tcs
  end.

Definition first_request (ms : list message) (openai_tools : list openai_tool)
    : request :=
  {| req_model := "gpt-4"; req_messages := ms;
     req_tools := Some openai_tools; req_tool_choice := Some "auto" |}.

Definition final_request (ms : list message) : request :=
  {| req_model := "gpt-4"; req_messages := ms;
     req_tools := None; req_tool_choice := None |}.

(** Lines 147-155: the follow-up completion, guarded by [if tool_calls:]. *)
Definition final_completion : M state unit :=
  (executed <- get_tool_calls ;;
   match executed with
   | [] => ret tt
   | _ :: _ =>
       ms <- get_messages ;;
       final_response <- create (final_request ms) ;;
       final_message <- lift (first_choice_message final_response) ;;
       final_text_append (or_empty (content final_message))
   end)%py.

(** ** [MCPLLMClient.process_query], lines 66-157

    [environ_get] is [os.environ.get]. *)
Definition process_query (environ_get : string -> option string)
    (self : MCPLLMClient) (query : string) : M state string :=
  match session self with
  | None => raise (RuntimeError "Not connected to server")
  | Some sess =>
      if negb (opt_str_truthy (environ_get "OPENAI_API_KEY"))
      then ret missing_key_text
      else
        (messages_assign [system_message; user_message query] ;;
         let openai_tools := convert_tools (available_tools self) in
         ms <- get_messages ;;
         response <- create (first_request ms openai_tools) ;;
         msg <- lift (first_choice_message response) ;;
         final_text_append (or_empty (content msg)) ;;
         match requested_tool_calls msg with
         | [] => ret tt
         | tcs =>
             for_each (execute_tool_call sess) tcs ;;
             final_completion
         end ;;
         texts <- get_final_text ;;
         ret (String.concat newline (filter str_truthy texts)))%py
  end.

(** One activation of [process_query] against a world [w]: what the
    caller gets, and the state the activation ends in. *)
Definition run_process_query (environ_get : string -> option string)
    (self : MCPLLMClient) (query : string) (w : World)
    : outcome string * state :=
  process_query environ_get self query (initial w).

(** ** The loop over the requested tool calls, step by step

    The state one execution of the loop body leaves behind when the
    tool returns, and when the remote call raises. *)
Definition after_return (tc : tool_call) (tool_args : JSON)
    (result : CallToolResult) (w : World) (s : state) : state :=
  let tool_name := fn_name (tc_function tc) in
  let s1 := with_event (ToolCallBegin tool_name tool_args) s in
  let s2 := with_event (ToolCallEnd (Return result)) (with_world w s1) in
  let s3 := with_tool_calls
              (st_tool_calls s2 ++ [ {| rec_name := tool_name; rec_args := tool_args;
                                        rec_result := result_content result |} ])%list
              s2 in
  let s4 := with_messages
              (messages s3 ++ [echo_message tc tool_name tool_args])%list s3 in
  with_messages (messages s4 ++ [result_message tc result])%list s4.

Definition after_raise (tc : tool_call) (tool_args : JSON) (e : exn)
    (w : World) (s : state) : state :=
  let tool_name := fn_name (tc_function tc) in
  let s1 := with_event (ToolCallBegin tool_name tool_args) s in
  with_event (ToolCallEnd (Raise e)) (with_world w s1).

(** How the loop runs over the remaining tool calls from a state: it
    ends normally when none is left, stops at the first
    [json.loads] or [call_tool] that raises, and otherwise goes on from
    the state the body leaves. *)
Inductive tool_loop (sess : Session)
    : list tool_call -> state -> outcome unit -> state -> Prop :=
| loop_done : forall s, tool_loop sess [] s (Return tt) s
| loop_bad_arguments : forall tc rest s e,
    json_loads (fn_arguments (tc_function tc)) = Raise e ->
    tool_loop sess (tc :: rest) s (Raise e) s
| loop_call_raises : forall tc rest s a e w,
    json_loads (fn_arguments (tc_function tc)) = Return a ->
    call_tool sess (fn_name (tc_function tc)) a (world s) = (Raise e, w) ->
    tool_loop sess (tc :: rest) s (Raise e) (after_raise tc a e w s)
| loop_call_returns : forall tc rest s a r w o s',
    json_loads (fn_arguments (tc_function tc)) = Return a ->
    call_tool sess (fn_name (tc_function tc)) a (world s) = (Return r, w) ->
    tool_loop sess rest (after_return tc a r w s) o s' ->
    tool_loop sess (tc :: rest) s o s'.

(** ** Observations on a trace and on a transcript *)

Definition completion_requests (t : list event) : list request :=
  flat_map (fun e => match e with CompletionCall r => [r] | _ => [] end) t.

Definition is_tool_event (e : event) : bool :=
  match e with CompletionCall _ => false | _ => true end.

Definition tool_events (t : list event) : list event := filter is_tool_event t.

(** The tool executions begun, in order, with name and arguments. *)
Definition started_calls (t : list event) : list (string * JSON) :=
  flat_map (fun e => match e with ToolCallBegin n a => [(n, a)] | _ => [] end) t.

(** The tool executions that returned, and those that raised. *)
Definition returned_calls (t : list event) : list CallToolResult :=
  flat_map (fun e => match e with ToolCallEnd (Return r) => [r] | _ => [] end) t.

Definition failed_calls (t : list event) : list exn :=
  flat_map (fun e => match e with ToolCallEnd (Raise x) => [x] | _ => [] end) t.

(** Tool events come as a begin directly followed by its end: no call
    begins while another is under way. *)
Fixpoint one_at_a_time (t : list event) : bool :=
  match t with
  | [] => true
  | ToolCallBegin _ _ :: ToolCallEnd _ :: rest => one_at_a_time rest
  | _ => false
  end.

(** The name and the parsed arguments a requested tool call is
    executed with. *)
Definition call_matches (tc : tool_call) (c : string * JSON) : Prop :=
  fst c = fn_name (tc_function tc) /\
  json_loads (fn_arguments (tc_function tc)) = Return (snd c).

(** What the loop over the requested tool calls [tcs] leaves in the
    trace when it ends with [o]: tool events only, one call at a time,
    the calls begun being the first requested ones in their order with
    their parsed arguments.  A normal end means every requested call
    returned; a raise [e] means fewer returned, and either the last
    event is the failed call that raised [e], or no call failed and
    [e] comes from parsing the arguments of the next requested call. *)
Definition loop_trace (tcs : list tool_call) (o : outcome unit)
    (tevs : list event) : Prop :=
  completion_requests tevs = [] /\
  tool_events tevs = tevs /\
  one_at_a_time tevs = true /\
  length (started_calls tevs) <= length tcs /\
  Forall2 call_matches (firstn (length (started_calls tevs)) tcs)
          (started_calls tevs) /\
  length (returned_calls tevs) + length (failed_calls tevs)
  = length (started_calls tevs) /\
  match o with
  | Return _ =>
      length (returned_calls tevs) = length tcs /\ failed_calls tevs = []
  | Raise e =>
      length (returned_calls tevs) < length tcs /\
      ((exists pre, tevs = (pre ++ [ToolCallEnd (Raise e)])%list /\
                    failed_calls tevs = [e]) \/
       (failed_calls tevs = [] /\
        exists tc, nth_error tcs (length (started_calls tevs)) = Some tc /\
                   json_loads (fn_arguments (tc_function tc)) = Raise e))
  end.

(** The ids of the tool calls an assistant message carries. *)
Definition carried_ids (m : message) : list string :=
  match msg_role m, msg_tool_calls m with
  | assistant, Some tcs => map tcd_id tcs
  | _, _ => []
  end.

(** Every tool-role message answers a tool call that an earlier
    assistant message of the same transcript carries. *)
Definition tool_ids_answer_earlier_calls (ms : list message) : Prop :=
  forall i m,
    nth_error ms i = Some m ->
    msg_role m = tool ->
    exists j a id,
      j < i /\ nth_error ms j = Some a /\ msg_role a = assistant /\
      In id (carried_ids a) /\ msg_tool_call_id m = Some id.

(** The invariant on the transcript as it stands and on every value
    it took so far. *)
Definition transcripts_ok (s : state) : Prop :=
  tool_ids_answer_earlier_calls (messages s) /\
  Forall tool_ids_answer_earlier_calls (snapshots s).

(** The state after [messages = [...]], and the state a completion
    call leaves when the service has moved the world to [w]. *)
Definition seeded (query : string) (w : World) : state :=
  with_messages [system_message; user_message query] (initial w).

Definition after_completion (req : request) (w : World) (s : state) : state :=
  with_world w (with_event (CompletionCall req) s).

(** The assistant message of the transcript that would carry a
    completion's message as the service returned it. *)
Definition returned_assistant_message (m : chat_message) : message :=
  {| msg_role := assistant; msg_content := content m;
     msg_tool_calls :=
       option_map
         (map (fun tc =>
                 {| tcd_id := tc_id tc; tcd_type := "function";
                    tcd_function :=
                      {| fd_name := fn_name (tc_function tc);
                         fd_arguments := fn_arguments (tc_function tc) |} |}))
         (tool_calls m);
     msg_tool_call_id := None |}.

(** The text of an assistant message, empty when it has none. *)
Definition text_of (m : chat_message) : string :=
  match content m with
  | None => ""
  | Some s => s
  end.

(** The two messages one executed tool call adds to the transcript:
    the echo of the call, then its result. *)
Definition exchange (x : tool_call * JSON * CallToolResult) : list message :=
  let '(tc, a, r) := x in
  [echo_message tc (fn_name (tc_function tc)) a; result_message tc r].

(** The prefixes of a transcript from its first two messages on, one
    message longer each time. *)
Definition growing_prefixes (ms : list message) : list (list message) :=
  map (fun k => firstn k ms) (seq 2 (length ms - 1)).

(** The transcript has its two seed messages, and its logged values
    are exactly its prefixes from there on: it only ever grew, one
    message at a time. *)
Definition transcript_grows (s : state) : Prop :=
  2 <= length (messages s) /\ snapshots s = growing_prefixes (messages s).

(** The text [process_query] returns from the text of the first and of
    the final assistant message. *)
Definition joined_texts (t1 t2 : string) : string :=
  match t1, t2 with
  | EmptyString, _ => t2
  | _, EmptyString => t1
  | _, _ => t1 ++ newline ++ t2
  end.

(** The collaborators raise nothing but [Exception]s: no interrupt and
    no cancellation arrives while one of them is awaited. *)
Definition raise_exceptions_only : Prop :=
  (forall req w e,
     fst (chat_completions_create req w) = Raise e -> is_exception e = true) /\
  (forall sess tool_name tool_args w e,
     fst (call_tool sess tool_name tool_args w) = Raise e ->
     is_exception e = true) /\
  (forall doc e, json_loads doc = Raise e -> is_exception e = true).

(** ** The same session with other error flags

    A session that answers as [call_tool] does, except that the
    [isError] flag of each result is set by [flag]; and what an
    observer of the first session would have logged had it been the
    second. *)
Definition reflag (flag : CallToolResult -> bool) (r : CallToolResult)
    : CallToolResult :=
  {| result_content := result_content r; isError := flag r |}.

Definition reflagged (flag : CallToolResult -> bool)
    (sess : Session) (tool_name : string) (tool_args : JSON) (w : World)
    : outcome CallToolResult * World :=
  match call_tool sess tool_name tool_args w with
  | (Return r, w') => (Return (reflag flag r), w')
  | (Raise e, w') => (Raise e, w')
  end.

Definition reflag_event (flag : CallToolResult -> bool) (e : event) : event :=
  match e with
  | ToolCallEnd (Return r) => ToolCallEnd (Return (reflag flag r))
  | _ => e
  end.

Definition reflag_state (flag : CallToolResult -> bool) (s : state) : state :=
  {| world := world s; messages := messages s; final_text := final_text s;
     st_tool_calls := st_tool_calls s;
     trace := map (reflag_event flag) (trace s);
     snapshots := snapshots s |}.

(** [m'] does on the reflagged state what [m] does on the state. *)
Definition simulates (flag : CallToolResult -> bool) {A : Type}
    (m m' : M state A) : Prop :=
  forall s, m' (reflag_state flag s) = (fst (m s), reflag_state flag (snd (m s))).

End Orchestration.

Arguments CompletionCall {Schema JSON Content} req.
Arguments ToolCallBegin {Schema JSON Content} tool_name tool_args.
Arguments ToolCallEnd {Schema JSON Content} result.
Arguments initial {Schema JSON Content World} w.
Arguments final_request {Schema} ms.
Arguments seeded {Schema JSON Content World} query w.

End Client.

(** * A concrete session and completion service

    A small instrumented setting in which the definitions run: the
    arguments of a tool call are JSON documents that [json.loads]
    parses, schemas are JSON values, tool results are strings, and the
    world counts the remote calls answered so far. *)

Module Fixture.

Import Client.

(** ** [json.loads] and [json.dumps]

    The values [json.loads] returns for the documents of this setting:
    objects, arrays, strings without escape sequences, whole numbers
    and the three literals.  A text that is no JSON document raises
    [JSONDecodeError]; numbers with a fraction or an exponent and
    strings with escape sequences do not occur here and are not
    read. *)

#[local] Set Warnings "-register-all".

Inductive json : Type :=
| JNull
| JBool (b : bool)
| JInt (n : Z)
| JStr (s : string)
| JArr (items : list json)
| JObj (members : list (string * json)).

#[local] Set Warnings "register-all".

(** The double quote and the backslash. *)
Definition quote : ascii := ascii_of_nat 34.
Definition backslash : ascii := ascii_of_nat 92.

(** A string literal of a JSON document. *)
Definition quoted (s : string) : string :=
  String quote (s ++ String quote EmptyString).

Definition is_space (c : ascii) : bool :=
  let n := nat_of_ascii c in
  Nat.eqb n 32 || Nat.eqb n 9 || Nat.eqb n 10 || Nat.eqb n 13.

Definition is_digit (c : ascii) : bool :=
  let n := nat_of_ascii c in Nat.leb 48 n && Nat.leb n 57.

Fixpoint skip_spaces (s : string) : string :=
  match s with
  | String c rest => if is_space c then skip_spaces rest else s
  | EmptyString => s
  end.

(** The characters up to the closing quote, and what follows it. *)
Fixpoint string_body (s : string) : option (string * string) :=
  match s with
  | EmptyString => None
  | String c rest =>
      if Ascii.eqb c quote then Some (EmptyString, rest)
      else if Ascii.eqb c backslash || Nat.ltb (nat_of_ascii c) 32 then None
      else match string_body rest with
           | Some (body, rest') => Some (String c body, rest')
           | None => None
           end
  end.

Fixpoint digits (s : string) : string * string :=
  match s with
  | String c rest =>
      if is_digit c
      then let (ds, rest') := digits rest in (String c ds, rest')
      else (EmptyString, s)
  | EmptyString => (EmptyString, s)
  end.

Fixpoint number_of (ds : string) (acc : Z) : Z :=
  match ds with
  | String c rest => number_of rest (10 * acc + Z.of_nat (nat_of_ascii c - 48))
  | EmptyString => acc
  end.

(** A whole number without a leading zero. *)
Definition whole_number (negative : bool) (s : string) : option (json * string) :=
  let (ds, rest) := digits s in
  let fractional :=
    match rest with
    | String c _ => Ascii.eqb c "." || Ascii.eqb c "e" || Ascii.eqb c "E"
    | EmptyString => false
    end in
  match ds with
  | EmptyString => None
  | String c (String _ _) =>
      if Ascii.eqb c "0" || fractional then None
      else Some (JInt (if negative then - number_of ds 0 else number_of ds 0), rest)
  | String _ EmptyString =>
      if fractional then None
      else Some (JInt (if negative then - number_of ds 0 else number_of ds 0), rest)
  end.

Fixpoint after_prefix (p s : string) : option string :=
  match p, s with
  | EmptyString, _ => Some s
  | String a p', String b s' => if Ascii.eqb a b then after_prefix p' s' else None
  | String _ _, EmptyString => None
  end.

(** A value, the members of an object from its first key on, and the
    elements of an array from its first value on; each with the text
    that follows.  Every call reads at least one character before the
    next, so the length of the document is fuel enough. *)
Fixpoint value (fuel : nat) (s : string) : option (json * string) :=
  match fuel with
  | O => None
  | S fuel' =>
      match skip_spaces s with
      | EmptyString => None
      | String c rest =>
          if Ascii.eqb c "{" then
            match skip_spaces rest with
            | String c' rest' =>
                if Ascii.eqb c' "}" then Some (JObj [], rest')
                else match members fuel' (String c' rest') with
                     | Some (ms, r) => Some (JObj ms, r)
                     | None => None
                     end
            | EmptyString => None
            end
          else if Ascii.eqb c "[" then
            match skip_spaces rest with
            | String c' rest' =>
                if Ascii.eqb c' "]" then Some (JArr [], rest')
                else match elements fuel' (String c' rest') with
                     | Some (vs, r) => Some (JArr vs, r)
                     | None => None
                     end
            | EmptyString => None
            end
          else if Ascii.eqb c quote then
            match string_body rest with
            | Some (body, r) => Some (JStr body, r)
            | None => None
            end
          else if Ascii.eqb c "-" then whole_number true rest
          else if is_digit c then whole_number false (String c rest)
          else
            match after_prefix "null" (String c rest),
                  after_prefix "true" (String c rest),
                  after_prefix "false" (String c rest) with
            | Some r, _, _ => Some (JNull, r)
            | _, Some r, _ => Some (JBool true, r)
            | _, _, Some r => Some (JBool false, r)
            | _, _, _ => None
            end
      end
  end
with members (fuel : nat) (s : string) : option (list (string * json) * string) :=
  match fuel with
  | O => None
  | S fuel' =>
      match s with
      | EmptyString => None
      | String c rest =>
          if negb (Ascii.eqb c quote) then None
          else
            match string_body rest with
            | None => None
            | Some (key, r1) =>
                match skip_spaces r1 with
                | EmptyString => None
                | String c1 r2 =>
                    if negb (Ascii.eqb c1 ":") then None
                    else
                      match value fuel' r2 with
                      | None => None
                      | Some (v, r3) =>
                          match skip_spaces r3 with
                          | EmptyString => None
                          | String c3 r4 =>
                              if Ascii.eqb c3 "}" then Some ([(key, v)], r4)
                              else if Ascii.eqb c3 "," then
                                match members fuel' (skip_spaces r4) with
                                | Some (ms, r5) => Some ((key, v) :: ms, r5)
                                | None => None
                                end
                              else None
                          end
                      end
                end
            end
      end
  end
with elements (fuel : nat) (s : string) : option (list json * string) :=
  match fuel with
  | O => None
  | S fuel' =>
      match value fuel' s with
      | None => None
      | Some (v, r1) =>
          match skip_spaces r1 with
          | EmptyString => None
          | String c r2 =>
              if Ascii.eqb c "]" then Some ([v], r2)
              else if Ascii.eqb c "," then
                match elements fuel' r2 with
                | Some (vs, r3) => Some (v :: vs, r3)
                | None => None
                end
              else None
          end
      end
  end.

(** 6.0, 3.0 and 2.0 as binary64 values. *)
Definition six : Server.float := S754_finite false 6755399441055744 (-50).
Definition three : Server.float := S754_finite false 6755399441055744 (-51).
Definition two : Server.float := S754_finite false 4503599627370496 (-51).

Definition format_float (_ : Server.float) : string := "<float>".

(** [json.loads(doc)]: one value, with nothing but blanks around it. *)
Definition json_loads (doc : string) : outcome json :=
  match value (S (String.length doc)) doc with
  | Some (v, rest) =>
      match skip_spaces rest with
      | EmptyString => Return v
      | String _ _ => Raise (JSONDecodeError doc)
      end
  | None => Raise (JSONDecodeError doc)
  end.

(** [json.dumps(v)], with its separators [", "] and [": "]. *)
Fixpoint json_dumps (v : json) : string :=
  match v with
  | JNull => "null"
  | JBool true => "true"
  | JBool false => "false"
  | JInt n => NilZero.string_of_int (Z.to_int n)
  | JStr s => quoted s
  | JArr items => "[" ++ String.concat ", " (map json_dumps items) ++ "]"
  | JObj ms =>
      "{" ++ String.concat ", "
               (map (fun m => quoted (fst m) ++ ": " ++ json_dumps (snd m)) ms)
          ++ "}"
  end.

Definition str (c : string) : string := c.

(** The session knows [calculate] and [greet]; calling [flaky] loses
    the connection, so that the call raises; a tool it does not know
    is answered, as a session does, with a result that has [isError]
    set and the complaint as its content. *)
Definition call_tool (_ : unit) (tool_name : string) (_ : json) (w : nat)
    : outcome (CallToolResult string) * nat :=
  if String.eqb tool_name "calculate"
  then (Return {| result_content := "5.0"; isError := false |}, S w)
  else if String.eqb tool_name "greet"
  then (Return {| result_content := "Hello, Ada!"; isError := false |}, S w)
  else if String.eqb tool_name "flaky"
  then (Raise (RemoteError "connection closed"), S w)
  else (Return {| result_content := "Unknown tool: " ++ tool_name;
                  isError := true |}, S w).

Definition ask (id tool_name arguments : string) : tool_call :=
  {| tc_id := id;
     tc_function := {| fn_name := tool_name; fn_arguments := arguments |} |}.

(** The argument documents the service sends, and their values. *)
Definition add_arguments : string :=
  "{" ++ quoted "operation" ++ ": " ++ quoted "add" ++ ", "
      ++ quoted "a" ++ ": 2, " ++ quoted "b" ++ ": 3}".

Definition add_parsed : json :=
  JObj [("operation", JStr "add"); ("a", JInt 2); ("b", JInt 3)].

Definition ada_arguments : string :=
  "{" ++ quoted "name" ++ ": " ++ quoted "Ada" ++ "}".

Definition ada_parsed : json := JObj [("name", JStr "Ada")].

Definition add_call : tool_call := ask "call_1" "calculate" add_arguments.

Definition answer (text : option string) (tcs : option (list tool_call))
    : completion :=
  {| choices := [ {| choice_message := {| content := text; tool_calls := tcs |} |} ] |}.

Definition query_of (req : request json) : string :=
  match req_messages req with
  | _ :: m :: _ => match msg_content m with Some q => q | None => "" end
  | _ => ""
  end.

(** The content of the last message of a request. *)
Definition last_content (req : request json) : string :=
  match msg_content (last (req_messages req) system_message) with
  | Some c => c
  | None => ""
  end.

(** With tool specs attached the service picks tools by the query;
    without them it answers in text, from the last tool result. *)
Definition chat_completions_create (req : request json) (w : nat)
    : outcome completion * nat :=
  match req_tools req with
  | None =>
      (Return (answer (Some ("The tool answered: " ++ last_content req)) None),
       S w)
  | Some _ =>
      let q := query_of req in
      if String.eqb q "add 2 and 3"
      then (Return (answer (Some "Let me calculate that.") (Some [add_call])),
            S w)
      else if String.eqb q "greet Ada, then ping"
      then (Return (answer (Some "Working on it.")
                      (Some [ask "call_1" "greet" ada_arguments;
                             ask "call_2" "flaky" "{}"])), S w)
      else if String.eqb q "ping"
      then (Return (answer None (Some [ask "call_1" "flaky" "{}"])), S w)
      else if String.eqb q "ping, then greet Ada"
      then (Return (answer None
                      (Some [ask "call_1" "flaky" "{}";
                             ask "call_2" "greet" ada_arguments])), S w)
      else if String.eqb q "what is the weather"
      then (Return (answer None (Some [ask "call_1" "weather" "{}"])), S w)
      else (Return (answer (Some "Hello!") None), S w)
  end.

(** The input schemas of the two tools. *)
Definition has_type (t : string) : json := JObj [("type", JStr t)].

Definition greet_schema : json :=
  JObj [("type", JStr "object");
        ("properties", JObj [("name", has_type "string")]);
        ("required", JArr [JStr "name"])].

Definition calculate_schema : json :=
  JObj [("type", JStr "object");
        ("properties", JObj [("operation", has_type "string");
                             ("a", has_type "number");
                             ("b", has_type "number")]);
        ("required", JArr [JStr "operation"; JStr "a"; JStr "b"])].

Definition tools : list (Tool json) :=
  [ {| name := "greet"; description := Some "Greet a person by name.";
       inputSchema := greet_schema |};
    {| name := "calculate"; description := Some "Perform a basic calculation.";
       inputSchema := calculate_schema |} ].

Definition connected : MCPLLMClient json unit :=
  {| session := Some tt; available_tools := tools |}.

Definition unconnected : MCPLLMClient json unit :=
  {| session := None; available_tools := [] |}.

Definition with_key (k : string) : option string :=
  if String.eqb k "OPENAI_API_KEY" then Some "sk-test" else None.

Definition without_key (_ : string) : option string := None.

Definition run (environ_get : string -> option string)
    (self : MCPLLMClient json unit) (query : string)
    : outcome string * state json json string nat :=
  run_process_query chat_completions_create call_tool json_loads json_dumps str
    environ_get self query 0.

End Fixture.

(** * The read-eval-print loops of the two clients

    Both [interactive_mode] methods are a [while True] around a [try]:
    read a line, run the body, [break] on a [KeyboardInterrupt] raised
    anywhere in the [try], print ["Error: ..."] on an [Exception] and
    go on; any other exception leaves the loop. *)

Module Console.

(** What the keyboard delivers to [input()]: a line, or Ctrl-C while
    it waits. *)
Inductive input_event : Type :=
| Line (text : string)
| Interrupt.

(** The message of the [EOFError] that [input()] raises. *)
Definition eof_text : string := "EOF when reading a line".

(** [input(prompt)], once the prompt is printed: the next line; a
    [KeyboardInterrupt] for Ctrl-C; and, when the list is used up, the
    input is at its end and [input()] raises [EOFError], every time it
    is called. *)
Definition input (inputs : list input_event)
    : outcome string * list input_event :=
  match inputs with
  | [] => (Raise (EOFError eof_text), [])
  | Interrupt :: rest => (Raise KeyboardInterrupt, rest)
  | Line text :: rest => (Return text, rest)
  end.

Section Loop.

Variable St : Type.
Variable print : string -> St -> St.      (* [print(x)], and the prompt of [input] *)
Variable exn_str : exn -> string.         (* [str(e)] *)
Variable prompt : string.
(** The body of the [try] from the line read on; [true] is [break]. *)
Variable body : string -> St -> outcome bool * St.

(** The loop can go on for ever, so it runs on fuel: [None] when the
    fuel is used up before the loop has ended.  When it ends, it ends
    normally, by a [break], or with the exception that neither handler
    caught. *)
Fixpoint loop (fuel : nat) (inputs : list input_event) (s : St)
    : option (outcome unit * St) :=
  match fuel with
  | O => None
  | S fuel' =>
      let s1 := print prompt s in
      let (line, rest) := input inputs in
      let (o, s2) := match line with
                     | Return text => body text s1
                     | Raise e => (Raise e, s1)
                     end in
      match o with
      | Return true => Some (Return tt, s2)
      | Return false => loop fuel' rest s2
      | Raise e =>
          if is_keyboard_interrupt e then Some (Return tt, s2)
          else if is_exception e
          then loop fuel' rest (print ("Error: " ++ exn_str e) s2)
          else Some (Raise e, s2)
      end
  end.

(** How the loop ends when the [try] raised [e] and [e] is no
    [Exception]: by the [break] of [except KeyboardInterrupt], or with
    [e] itself. *)
Definition left_with (e : exn) : outcome unit :=
  if is_keyboard_interrupt e then Return tt else Raise e.

End Loop.

(** The inputs that end a loop whose body breaks on the lines [exits]
    accepts, whatever the body does: those lines, and the interrupt. *)
Definition stops (exits : string -> bool) (ev : input_event) : bool :=
  match ev with
  | Interrupt => true
  | Line text => exits text
  end.

End Console.

(** * The rest of [mcp_llm_client.py]: the interactive loop *)

Module LLM.

Import Client Console.

Section Interactive.

Variables Schema JSON Content Session World : Type.
Variable chat_completions_create :
  request Schema -> World -> outcome completion * World.
Variable call_tool :
  Session -> string -> JSON -> World -> outcome (CallToolResult Content) * World.
Variable json_loads : string -> outcome JSON.
Variable json_dumps : JSON -> string.
Variable str : Content -> string.
Variable environ_get : string -> option string.
Variable strip : string -> string.        (* [s.strip()] *)
Variable lower : string -> string.        (* [s.lower()] *)
Variable exn_str : exn -> string.         (* [str(e)] *)

(** The console and the remote side as the loop leaves them: the world,
    what was printed, and the remote calls of all queries so far. *)
Record repl_state : Type := {
  rworld : World;
  stdout : list string;
  calls : list (event Schema JSON Content)
}.

Definition print (x : string) (s : repl_state) : repl_state :=
  {| rworld := rworld s; stdout := (stdout s ++ [x])%list; calls := calls s |}.

Definition query_prompt : string := newline ++ "Query: ".

(** Lines 166-173: the body of the [try].  Each query is processed
    from a fresh activation of [process_query] against the world as the
    queries before left it. *)
Definition query_body (self : MCPLLMClient Schema Session) (text : string)
    (s : repl_state) : outcome bool * repl_state :=
  let query := strip text in
  if String.eqb (lower query) "exit" then (Return true, s)
  else
    let (o, st) :=
      run_process_query chat_completions_create call_tool json_loads json_dumps
        str environ_get self query (rworld s) in
    let s1 := {| rworld := world st; stdout := stdout s;
                 calls := (calls s ++ trace st)%list |} in
    match o with
    | Return response =>
        (Return false, print response (print (newline ++ "Response:") s1))
    | Raise e => (Raise e, s1)
    end.

(** [interactive_mode], lines 159-179. *)
Definition interactive_mode (self : MCPLLMClient Schema Session) (fuel : nat)
    (inputs : list input_event) (s : repl_state)
    : option (outcome unit * repl_state) :=
  loop print exn_str query_prompt (query_body self) fuel inputs
       (print "Type your queries or 'exit' to quit"
          (print (newline ++ "=== Interactive MCP LLM Client with GPT-4 ===") s)).

(** A completion request that has tool specs attached: the first
    request of a query. *)
Definition carries_tools (req : request Schema) : bool :=
  match req_tools req with
  | Some _ => true
  | None => false
  end.

(** The lines on which the body breaks, and the inputs that end the
    loop. *)
Definition exits (text : string) : bool :=
  String.eqb (lower (strip text)) "exit".

Definition ends_loop (ev : input_event) : bool := stops exits ev.

(** The queries the loop hands to [process_query]: the lines read
    before the one that ends it, stripped. *)
Fixpoint queries_before_end (inputs : list input_event) : list string :=
  match inputs with
  | [] => []
  | ev :: rest =>
      if ends_loop ev then []
      else match ev with
           | Line text => strip text :: queries_before_end rest
           | Interrupt => []
           end
  end.

End Interactive.

(** ** Connecting, cleaning up, and [main], lines 37-64 and 181-199 *)

(** The remote steps of a connection, logged when they are attempted:
    entering [sse_client(server_url)], entering [ClientSession], the
    three session requests, and [exit_stack.aclose()]. *)
Inductive step : Type :=
| EnterTransport (server_url : string)
| EnterSession
| Initialize
| ListTools
| ListResources
| Close.

Definition default_url : string := "http://localhost:8000/sse".

(** Lines 188-192: the server URL [main] picks from [sys.argv]. *)
Definition server_url_of (argv : list string) : string :=
  if Nat.ltb (length argv) 2 then default_url else nth 1 argv "".

(** The steps of a connection that succeeds, in order. *)
Definition connect_steps (server_url : string) : list step :=
  [EnterTransport server_url; EnterSession; Initialize; ListTools; ListResources].

Section Lifecycle.

Variables Schema JSON Content Session World Transport Resource : Type.
Variable chat_completions_create :
  request Schema -> World -> outcome completion * World.
Variable call_tool :
  Session -> string -> JSON -> World -> outcome (CallToolResult Content) * World.
Variable json_loads : string -> outcome JSON.
Variable json_dumps : JSON -> string.
Variable str : Content -> string.
Variable environ_get : string -> option string.
Variable strip : string -> string.
Variable lower : string -> string.
Variable exn_str : exn -> string.

(** The connection: each step may move the world and may raise. *)
Variable sse_client : string -> World -> outcome Transport * World.
Variable client_session : Transport -> World -> outcome Session * World.
Variable initialize : Session -> World -> outcome unit * World.
Variable list_tools : Session -> World -> outcome (list (Tool Schema)) * World.
Variable list_resources : Session -> World -> outcome (list Resource) * World.
Variable aclose : World -> outcome unit * World.
(** [AsyncOpenAI(api_key=...)] in [__init__]: the constructor may
    refuse the key it is given. *)
Variable new_openai : option string -> outcome unit.

(** The process: console and world, the client object, the steps. *)
Record process_state : Type := {
  console : repl_state Schema JSON Content World;
  client : MCPLLMClient Schema Session;
  steps : list step
}.

Definition remote {A : Type} (st : step) (op : World -> outcome A * World)
    : M process_state A :=
  fun s =>
    let (o, w) := op (rworld (console s)) in
    (o, {| console := {| rworld := w; stdout := stdout (console s);
                         calls := calls (console s) |};
           client := client s;
           steps := (steps s ++ [st])%list |}).

(** [self.session = ...] and [self.available_tools = ...] *)
Definition set_session (sess : Session) : M process_state unit :=
  fun s =>
    (Return tt,
     {| console := console s;
        client := {| session := Some sess;
                     available_tools := available_tools (client s) |};
        steps := steps s |}).

Definition set_available_tools (tools : list (Tool Schema))
    : M process_state unit :=
  fun s =>
    (Return tt,
     {| console := console s;
        client := {| session := session (client s); available_tools := tools |};
        steps := steps s |}).

(** [connect_to_server], lines 37-64. *)
Definition connect_to_server (server_url : string)
    : M process_state (list (Tool Schema) * list Resource) :=
  (transport <- remote (EnterTransport server_url) (sse_client server_url) ;;
   sess <- remote EnterSession (client_session transport) ;;
   set_session sess ;;
   remote Initialize (initialize sess) ;;
   tools <- remote ListTools (list_tools sess) ;;
   set_available_tools tools ;;
   resources <- remote ListResources (list_resources sess) ;;
   ret (tools, resources))%py.

(** [cleanup], lines 181-183. *)
Definition cleanup : M process_state unit := remote Close aclose.

(** [try: ... finally: await client.cleanup()]: the outcome of the
    [try] stands unless the cleanup itself raises. *)
Definition finally_cleanup (o : outcome unit) (s : process_state)
    : outcome unit * process_state :=
  match cleanup s with
  | (Return _, s') => (o, s')
  | (Raise e, s') => (Raise e, s')
  end.

Definition started (w : World) : process_state :=
  {| console := {| rworld := w; stdout := []; calls := [] |};
     client := {| session := None; available_tools := [] |};
     steps := [] |}.

Definition say (x : string) (s : process_state) : process_state :=
  {| console := print x (console s); client := client s; steps := steps s |}.

(** [main], lines 186-199.  [None] when the fuel of the interactive
    loop is used up before the loop has ended. *)
Definition main (argv : list string) (fuel : nat) (inputs : list input_event)
    (w : World) : option (outcome unit * process_state) :=
  let s0 := started w in
  let s1 := if Nat.ltb (length argv) 2
            then say ("No server URL provided, using default: " ++ default_url) s0
            else s0 in
  match new_openai (environ_get "OPENAI_API_KEY") with
  | Raise e => Some (Raise e, s1)
  | Return _ =>
      match connect_to_server (server_url_of argv) s1 with
      | (Raise e, s2) => Some (finally_cleanup (Raise e) s2)
      | (Return _, s2) =>
          match interactive_mode chat_completions_create call_tool json_loads
                  json_dumps str environ_get strip lower exn_str
                  (client s2) fuel inputs (console s2) with
          | None => None
          | Some (o, c) =>
              Some (finally_cleanup o
                      {| console := c; client := client s2; steps := steps s2 |})
          end
      end
  end.

End Lifecycle.

End LLM.

(** [try: m except Exception as e: handler(e)]: an exception that is
    no [Exception] is not caught. *)
Definition catch {S A : Type} (m : M S A) (handler : exn -> M S A) : M S A :=
  fun s =>
    match m s with
    | (Return a, s') => (Return a, s')
    | (Raise e, s') => if is_exception e then handler e s' else (Raise e, s')
    end.

(** * The plain client, [mcp_http_client.py] *)

Module HTTP.

Import Console.

(** The values in the argument dict of a tool call: the client sends
    strings and floats. *)
Inductive arg : Type :=
| Str (s : string)
| Num (x : Server.float).

Definition args : Type := list (string * arg).

Section PlainClient.

Variables Content Session World : Type.
Variable call_tool :
  Session -> string -> args -> World
  -> outcome (Client.CallToolResult Content) * World.
Variable split : string -> list string.             (* [s.split()] *)
Variable strip : string -> string.                  (* [s.strip()] *)
Variable lower : string -> string.                  (* [s.lower()] *)
Variable to_float : string -> option Server.float.  (* [float(s)]; [None] is [ValueError] *)
Variable show : Content -> string.                  (* the result in an f-string *)
Variable exn_str : exn -> string.                   (* [str(e)] *)

Record MCPHTTPClient : Type := {
  session : option Session
}.

(** The world, what was printed, and the tool calls begun, in order. *)
Record console_state : Type := {
  world : World;
  printed : list string;
  calls : list (string * args)
}.

Definition put (x : string) (s : console_state) : console_state :=
  {| world := world s; printed := (printed s ++ [x])%list; calls := calls s |}.

(** [print(x)] *)
Definition print (x : string) : M console_state unit :=
  fun s => (Return tt, put x s).

(** [await self.session.call_tool(tool_name, arguments)] *)
Definition session_call_tool (sess : Session) (tool_name : string)
    (arguments : args) : M console_state (Client.CallToolResult Content) :=
  fun s =>
    let (o, w) := call_tool sess tool_name arguments (world s) in
    (o, {| world := w; printed := printed s;
           calls := (calls s ++ [(tool_name, arguments)])%list |}).

(** [call_greet], lines 56-63. *)
Definition call_greet (self : MCPHTTPClient) (name : string)
    : M console_state Content :=
  match session self with
  | None => raise (RuntimeError "Not connected to server")
  | Some sess =>
      (result <- session_call_tool sess "greet" [("name", Str name)] ;;
       ret (Client.result_content result))%py
  end.

(** [call_calculate], lines 65-76. *)
Definition call_calculate (self : MCPHTTPClient) (operation : string)
    (a b : Server.float) : M console_state Content :=
  match session self with
  | None => raise (RuntimeError "Not connected to server")
  | Some sess =>
      (result <- session_call_tool sess "calculate"
                   [("operation", Str operation); ("a", Num a); ("b", Num b)] ;;
       ret (Client.result_content result))%py
  end.

(** Lines 93-126: what the loop does with a command that is not
    [exit]. *)
Definition dispatch (self : MCPHTTPClient) (command : string)
    : M console_state unit :=
  let parts := split command in
  match parts with
  | [] => ret tt
  | cmd :: rest =>
      if String.eqb cmd "greet" then
        if Nat.ltb (length parts) 2 then print "Usage: greet <name>"
        else
          (let name := String.concat " " rest in
           result <- call_greet self name ;;
           print ("Result: " ++ show result))%py
      else if String.eqb cmd "calc" then
        if negb (Nat.eqb (length parts) 4) then
          (print "Usage: calc <operation> <a> <b>" ;;
           print "Operations: add, subtract, multiply, divide")%py
        else
          let operation := nth 1 parts "" in
          match to_float (nth 2 parts ""), to_float (nth 3 parts "") with
          | Some a, Some b =>
              catch
                (result <- call_calculate self operation a b ;;
                 print ("Result: " ++ show result))%py
                (fun e => print ("Error: " ++ exn_str e))
          | _, _ => print "Error: a and b must be numbers"
          end
      else print ("Unknown command: " ++ cmd)
  end.

(** Lines 88-126: the body of the [try]. *)
Definition command_body (self : MCPHTTPClient) (text : string)
    (s : console_state) : outcome bool * console_state :=
  let command := strip text in
  if String.eqb (lower command) "exit" then (Return true, s)
  else
    match dispatch self command s with
    | (Return _, s') => (Return false, s')
    | (Raise e, s') => (Raise e, s')
    end.

Definition command_prompt : string := newline ++ "> ".

(** [interactive_mode], lines 78-131. *)
Definition interactive_mode (self : MCPHTTPClient) (fuel : nat)
    (inputs : list input_event) (s : console_state)
    : option (outcome unit * console_state) :=
  loop put exn_str command_prompt (command_body self) fuel inputs
       (put "  exit - Exit the client"
          (put "  calc <operation> <a> <b> - Perform a calculation"
             (put "  greet <name> - Greet a person"
                (put "Available commands:"
                   (put (newline ++ "=== Interactive MCP HTTP/SSE Client ===")
                        s))))).

Definition exits (text : string) : bool :=
  String.eqb (lower (strip text)) "exit".

End PlainClient.

End HTTP.

(** * A concrete console, connection and plain session

    What the loops and [main] need beyond the concrete service: string
    functions for lines without surrounding blanks and in lower case,
    a connection whose steps succeed unless the URL is the one of a
    server that is down, a service that is down, and a service that
    sends arguments that are no JSON. *)

Module Scenario.

Import Client Console.

Definition strip (s : string) : string := s.

Definition lower (s : string) : string := s.

Definition exn_str (e : exn) : string :=
  match e with
  | RuntimeError msg => msg
  | ValueError msg => msg
  | IndexError msg => msg
  | JSONDecodeError doc => doc
  | EOFError msg => msg
  | RemoteError detail => detail
  | KeyboardInterrupt | CancelledError | SystemExit => ""
  end.

(** Words separated by single or repeated spaces. *)
Fixpoint words_from (word : string) (s : string) : list string :=
  match s with
  | EmptyString => if String.eqb word "" then [] else [word]
  | String c rest =>
      if Ascii.eqb c " "
      then if String.eqb word "" then words_from "" rest
           else word :: words_from "" rest
      else words_from (word ++ String c EmptyString) rest
  end.

Definition split (s : string) : list string := words_from "" s.

Definition to_float (s : string) : option Server.float :=
  if String.eqb s "6" then Some Fixture.six
  else if String.eqb s "3" then Some Fixture.three
  else if String.eqb s "0" then Some Server.fzero
  else None.

Definition show (c : string) : string := c.

(** The plain session: [greet] answers, anything else fails. *)
Definition plain_call_tool (_ : unit) (tool_name : string) (_ : HTTP.args)
    (w : nat) : outcome (CallToolResult string) * nat :=
  if String.eqb tool_name "greet"
  then (Return {| result_content := "Hello, Ada Lovelace!"; isError := false |}, S w)
  else (Raise (RemoteError "connection closed"), S w).

Definition plain_connected : HTTP.MCPHTTPClient unit := {| HTTP.session := Some tt |}.

Definition plain_start : HTTP.console_state nat :=
  {| HTTP.world := 0; HTTP.printed := []; HTTP.calls := [] |}.

(** The connection. *)
Definition sse_client (server_url : string) (w : nat) : outcome unit * nat :=
  if String.eqb server_url "http://down:8000/sse"
  then (Raise (RemoteError "connection refused"), S w)
  else (Return tt, S w).

Definition client_session (_ : unit) (w : nat) : outcome unit * nat :=
  (Return tt, S w).

Definition initialize (_ : unit) (w : nat) : outcome unit * nat :=
  (Return tt, S w).

Definition list_tools (_ : unit) (w : nat)
    : outcome (list (Tool Fixture.json)) * nat :=
  (Return Fixture.tools, S w).

Definition list_resources (_ : unit) (w : nat) : outcome (list string) * nat :=
  (Return ["calculator_resource"; "greeter_resource"], S w).

Definition aclose (w : nat) : outcome unit * nat := (Return tt, S w).

Definition new_openai (api_key : option string) : outcome unit :=
  match api_key with
  | None => Raise (RuntimeError "The api_key client option must be set")
  | Some _ => Return tt
  end.

Definition main (argv : list string) (fuel : nat) (inputs : list input_event)
    : option (outcome unit * LLM.process_state Fixture.json Fixture.json string unit nat) :=
  LLM.main Fixture.chat_completions_create Fixture.call_tool Fixture.json_loads
    Fixture.json_dumps Fixture.str Fixture.with_key strip lower exn_str
    sse_client client_session initialize list_tools list_resources aclose
    new_openai argv fuel inputs 0.

Definition repl_start : LLM.repl_state Fixture.json Fixture.json string nat :=
  {| LLM.rworld := 0; LLM.stdout := []; LLM.calls := [] |}.

Definition interactive_mode (fuel : nat) (inputs : list input_event)
    : option (outcome unit * LLM.repl_state Fixture.json Fixture.json string nat) :=
  LLM.interactive_mode Fixture.chat_completions_create Fixture.call_tool
    Fixture.json_loads Fixture.json_dumps Fixture.str Fixture.with_key
    strip lower exn_str Fixture.connected fuel inputs repl_start.

(** A service that is down, and one whose tool call has arguments
    that are no JSON. *)
Definition service_down (_ : request Fixture.json) (w : nat)
    : outcome completion * nat :=
  (Raise (RemoteError "service unavailable"), S w).

Definition garbled_call : tool_call := Fixture.ask "call_1" "greet" "{".

Definition service_garbling (_ : request Fixture.json) (w : nat)
    : outcome completion * nat :=
  (Return (Fixture.answer None (Some [garbled_call])), S w).

End Scenario.

Unset Implicit Arguments.

(** * Facts about the tool server *)

Section ServerFacts.

Import Server.

Variable format_float : float -> string.

Lemma feq_zero_iff (b : float) : feq b fzero = true <-> is_zero b.
Proof.
  unfold is_zero, feq, fzero.
  destruct b as [s | s | | s m e]; simpl.
  - split; [intros _; now exists s | reflexivity].
  - destruct s; split; try discriminate; intros [z Hz]; discriminate.
  - split; [discriminate | intros [z Hz]; discriminate].
  - destruct s; split; try discriminate; intros [z Hz]; discriminate.
Qed.

Lemma string_neq_eqb (x y : string) : x <> y -> String.eqb x y = false.
Proof. intros H. now apply String.eqb_neq. Qed.

(** C8. [calculate("divide", a, b)] raises exactly when [b] is a zero,
    and then returns no number; [calculate] raises for every operation
    name other than add, subtract, multiply and divide; otherwise it
    returns the sum, the difference, the product or the quotient. *)
Theorem calculate_raises_exactly_on_zero_divisor :
  forall a b : float,
    (raises (snd (calculate format_float "divide" a b)) <-> is_zero b) /\
    (is_zero b ->
       snd (calculate format_float "divide" a b)
       = Raise (ValueError "Cannot divide by zero")) /\
    (~ is_zero b ->
       snd (calculate format_float "divide" a b) = Return (fdiv a b)) /\
    (forall op, ~ In op operations ->
       snd (calculate format_float op a b)
       = Raise (ValueError ("Unknown operation: " ++ op))) /\
    snd (calculate format_float "add" a b) = Return (fadd a b) /\
    snd (calculate format_float "subtract" a b) = Return (fsub a b) /\
    snd (calculate format_float "multiply" a b) = Return (fmul a b).
Proof.
  intros a b.
  assert (Hdiv : snd (calculate format_float "divide" a b)
                 = if feq b fzero then Raise (ValueError "Cannot divide by zero")
                   else Return (fdiv a b)) by reflexivity.
  repeat split; try reflexivity.
  - intros [e He]. rewrite Hdiv in He.
    destruct (feq b fzero) eqn:Hz; [now apply feq_zero_iff | discriminate].
  - intros Hz. apply feq_zero_iff in Hz. rewrite Hdiv, Hz. now eexists.
  - intros Hz. apply feq_zero_iff in Hz. now rewrite Hdiv, Hz.
  - intros Hnz. rewrite Hdiv.
    destruct (feq b fzero) eqn:Hz; [| reflexivity].
    apply feq_zero_iff in Hz. contradiction.
  - intros op Hop. unfold operations in Hop. simpl in Hop.
    unfold calculate. simpl.
    rewrite !string_neq_eqb; [reflexivity | | | |]; intros ->; apply Hop; auto.
Qed.

End ServerFacts.

Lemma calculate_raises_exactly_on_zero_divisor_witness :
  snd (Server.calculate Fixture.format_float "modulo" Fixture.six Fixture.three)
  = Raise (ValueError "Unknown operation: modulo") /\
  snd (Server.calculate Fixture.format_float "divide" Fixture.six Fixture.three)
  = Return Fixture.two /\
  snd (Server.calculate Fixture.format_float "divide" Fixture.six (S754_zero true))
  = Raise (ValueError "Cannot divide by zero").
Proof.
  split; [| split].
  - apply (calculate_raises_exactly_on_zero_divisor
             Fixture.format_float Fixture.six Fixture.three).
    intros [H | [H | [H | [H | []]]]]; discriminate H.
  - apply (calculate_raises_exactly_on_zero_divisor
             Fixture.format_float Fixture.six Fixture.three).
    intros [s H]; discriminate H.
  - apply (calculate_raises_exactly_on_zero_divisor
             Fixture.format_float Fixture.six (S754_zero true)).
    now exists true.
Defined.

(** C10. The two [greet] definitions are extensionally equal: for
    every name each logs the same line and returns ["Hello, "] followed
    by the name and ["!"]; whichever of the two registrations a registry
    keeps under the name [greet], the tool behaves the same. *)
Theorem greet_definitions_agree :
  forall name : string,
    Server.Decl1.greet name = Server.Decl2.greet name /\
    snd (Server.Decl1.greet name) = Return ("Hello, " ++ name ++ "!") /\
    snd (Server.Decl2.greet name) = Return ("Hello, " ++ name ++ "!") /\
    option_map (fun f => f name)
      (Server.lookup_first "greet" Server.greet_registrations)
    = Some (["Greeting " ++ name], Return ("Hello, " ++ name ++ "!")) /\
    option_map (fun f => f name)
      (Server.lookup_last "greet" Server.greet_registrations)
    = Some (["Greeting " ++ name], Return ("Hello, " ++ name ++ "!")).
Proof.
  intros name. repeat split.
Qed.

(** * Facts about the client's query orchestration *)

Section ClientFacts.

Import Client.

Variables Schema JSON Content Session World : Type.
Variable chat_completions_create :
  request Schema -> World -> outcome completion * World.
Variable call_tool :
  Session -> string -> JSON -> World -> outcome (CallToolResult Content) * World.
Variable json_loads : string -> outcome JSON.
Variable json_dumps : JSON -> string.
Variable str : Content -> string.

Local Abbreviation state := (Client.state Schema JSON Content World).
Local Abbreviation event := (Client.event Schema JSON Content).
Local Abbreviation body := (execute_tool_call (Schema:=Schema) call_tool json_loads json_dumps str).
Local Abbreviation loop := (tool_loop (Schema:=Schema) call_tool json_loads json_dumps str).
Local Abbreviation run :=
  (run_process_query chat_completions_create call_tool json_loads json_dumps str).

(** ** The loop function follows the step relation *)

Lemma execute_tool_call_bad_arguments sess tc (s : state) e :
  json_loads (fn_arguments (tc_function tc)) = Raise e ->
  body sess tc s = (Raise e, s).
Proof.
  intros H. unfold execute_tool_call, bind, lift. now rewrite H.
Qed.

Lemma execute_tool_call_raises sess tc (s : state) a e w :
  json_loads (fn_arguments (tc_function tc)) = Return a ->
  call_tool sess (fn_name (tc_function tc)) a (world s) = (Raise e, w) ->
  body sess tc s = (Raise e, after_raise tc a e w s).
Proof.
  intros H1 H2. unfold execute_tool_call, bind, lift, session_call_tool.
  rewrite H1. cbn. now rewrite H2.
Qed.

Lemma execute_tool_call_returns sess tc (s : state) a r w :
  json_loads (fn_arguments (tc_function tc)) = Return a ->
  call_tool sess (fn_name (tc_function tc)) a (world s) = (Return r, w) ->
  body sess tc s = (Return tt, after_return json_dumps str tc a r w s).
Proof.
  intros H1 H2. unfold execute_tool_call, bind, lift, session_call_tool.
  rewrite H1. cbn. now rewrite H2.
Qed.

Lemma for_each_tool_loop sess tcs :
  forall s : state,
    loop sess tcs s (fst (for_each (body sess) tcs s))
                    (snd (for_each (body sess) tcs s)).
Proof.
  induction tcs as [| tc rest IH]; intros s.
  - apply loop_done.
  - simpl for_each. unfold bind.
    destruct (json_loads (fn_arguments (tc_function tc))) as [a | e] eqn:Hj.
    + destruct (call_tool sess (fn_name (tc_function tc)) a (world s))
        as [[r | e] w] eqn:Hc.
      * rewrite (execute_tool_call_returns sess tc s a r w Hj Hc).
        eapply loop_call_returns; [exact Hj | exact Hc | apply IH].
      * rewrite (execute_tool_call_raises sess tc s a e w Hj Hc).
        now apply loop_call_raises.
    + rewrite (execute_tool_call_bad_arguments sess tc s e Hj).
      now apply loop_bad_arguments.
Qed.

(** ** What one loop step leaves in each component of the state *)

Lemma trace_after_return tc a r w (s : state) :
  trace (after_return json_dumps str tc a r w s)
  = (trace s ++ [ToolCallBegin (fn_name (tc_function tc)) a;
                 ToolCallEnd (Return r)])%list.
Proof. cbn. now rewrite <- app_assoc. Qed.

Lemma trace_after_raise tc a e w (s : state) :
  trace (after_raise tc a e w s)
  = (trace s ++ [ToolCallBegin (fn_name (tc_function tc)) a;
                 ToolCallEnd (Raise e)])%list.
Proof. cbn. now rewrite <- app_assoc. Qed.

Lemma messages_after_return tc a r w (s : state) :
  messages (after_return json_dumps str tc a r w s)
  = (messages s ++ [echo_message json_dumps tc (fn_name (tc_function tc)) a;
                    result_message str tc r])%list.
Proof. cbn. now rewrite <- app_assoc. Qed.

Lemma snapshots_after_return tc a r w (s : state) :
  snapshots (after_return json_dumps str tc a r w s)
  = (snapshots s
     ++ [(messages s ++ [echo_message json_dumps tc (fn_name (tc_function tc)) a])%list;
         (messages s ++ [echo_message json_dumps tc (fn_name (tc_function tc)) a;
                         result_message str tc r])%list])%list.
Proof. cbn. now rewrite <- !app_assoc. Qed.

Lemma tool_calls_after_return tc a r w (s : state) :
  length (st_tool_calls (after_return json_dumps str tc a r w s))
  = S (length (st_tool_calls s)).
Proof. cbn. rewrite length_app. simpl. lia. Qed.

(** ** What the loop does to the trace *)

Lemma tool_loop_events sess tcs (s : state) o s' :
  loop sess tcs s o s' ->
  exists tevs : list event,
    trace s' = (trace s ++ tevs)%list /\
    loop_trace (Schema:=Schema) json_loads tcs o tevs.
Proof.
  unfold loop_trace.
  induction 1 as [s | tc rest s e Hj | tc rest s a e w Hj Hc
                 | tc rest s a r w o s' Hj Hc Hloop IH].
  - exists []. rewrite app_nil_r. simpl. repeat split; auto.
  - exists []. rewrite app_nil_r. simpl. repeat split; auto; try lia.
    right. split; [reflexivity |]. exists tc. now split.
  - exists [ToolCallBegin (fn_name (tc_function tc)) a; ToolCallEnd (Raise e)].
    rewrite trace_after_raise. simpl. repeat split; auto; try lia.
    + constructor; [now split | constructor].
    + left. exists [ToolCallBegin (fn_name (tc_function tc)) a]. now split.
  - destruct IH as (tevs & Ht & Hcr & Hte & Hone & Hlen & Hmatch & Hsum & Ho).
    exists (ToolCallBegin (fn_name (tc_function tc)) a
              :: ToolCallEnd (Return r) :: tevs).
    rewrite Ht, trace_after_return, <- app_assoc. simpl.
    repeat split; auto; try lia.
    + now rewrite Hte.
    + constructor; [now split | exact Hmatch].
    + destruct o as [u | e'].
      * destruct Ho as [Hret Hfail]. split; [lia | exact Hfail].
      * destruct Ho as [Hret Hcase]. split; [lia |].
        destruct Hcase as [(pre & Hpre & Hf) | (Hf & tc' & Hn & Hj')].
        -- left.
           exists (ToolCallBegin (fn_name (tc_function tc)) a
                     :: ToolCallEnd (Return r) :: pre).
           split; [now rewrite Hpre | exact Hf].
        -- right. split; [exact Hf |]. exists tc'. now split.
Qed.

(** ** What the loop does to the local lists *)

Lemma tool_loop_locals sess tcs (s : state) o s' :
  loop sess tcs s o s' ->
  final_text s' = final_text s /\
  (forall u, o = Return u ->
             length (st_tool_calls s') = length (st_tool_calls s) + length tcs).
Proof.
  induction 1 as [s | tc rest s e Hj | tc rest s a e w Hj Hc
                 | tc rest s a r w o s' Hj Hc Hloop IH].
  - split; [reflexivity | intros; simpl; lia].
  - split; [reflexivity | discriminate].
  - split; [reflexivity | discriminate].
  - destruct IH as [Hft Hlen]. split.
    + rewrite Hft. reflexivity.
    + intros u Hu. rewrite (Hlen u Hu), tool_calls_after_return. simpl. lia.
Qed.

(** ** The transcript invariant under the two kinds of append *)

Lemma invariant_nil : tool_ids_answer_earlier_calls [].
Proof. intros [| i] m H; discriminate H. Qed.

Lemma invariant_append_other ms m :
  tool_ids_answer_earlier_calls ms ->
  msg_role m <> tool ->
  tool_ids_answer_earlier_calls (ms ++ [m]).
Proof.
  intros Hinv Hrole i x Hx Htool.
  destruct (Nat.lt_ge_cases i (length ms)) as [Hlt | Hge].
  - rewrite nth_error_app1 in Hx by exact Hlt.
    destruct (Hinv i x Hx Htool) as (j & a & id & Hj & Ha & Hr & Hin & Hid).
    exists j, a, id. repeat split; auto.
    rewrite nth_error_app1 by lia. exact Ha.
  - rewrite nth_error_app2 in Hx by exact Hge.
    destruct (i - length ms) as [| n] eqn:Hn; simpl in Hx.
    + injection Hx as <-. contradiction.
    + destruct n; discriminate Hx.
Qed.

Lemma invariant_append_tool ms a m id :
  tool_ids_answer_earlier_calls ms ->
  In a ms -> msg_role a = assistant -> In id (carried_ids a) ->
  msg_tool_call_id m = Some id ->
  tool_ids_answer_earlier_calls (ms ++ [m]).
Proof.
  intros Hinv Hin Hrole Hcarried Hid i x Hx Htool.
  destruct (Nat.lt_ge_cases i (length ms)) as [Hlt | Hge].
  - rewrite nth_error_app1 in Hx by exact Hlt.
    destruct (Hinv i x Hx Htool) as (j & b & id' & Hj & Hb & Hr & Hc & Hi).
    exists j, b, id'. repeat split; auto.
    rewrite nth_error_app1 by lia. exact Hb.
  - rewrite nth_error_app2 in Hx by exact Hge.
    destruct (i - length ms) as [| n] eqn:Hn; simpl in Hx.
    + injection Hx as <-.
      destruct (In_nth_error ms a Hin) as [j Hj].
      assert (j < length ms) by (apply nth_error_Some; congruence).
      exists j, a, id. repeat split; auto; try lia.
      rewrite nth_error_app1 by lia. exact Hj.
    + destruct n; discriminate Hx.
Qed.

Lemma tool_loop_transcripts sess tcs (s : state) o s' :
  loop sess tcs s o s' -> transcripts_ok s -> transcripts_ok s'.
Proof.
  induction 1 as [s | tc rest s e Hj | tc rest s a e w Hj Hc
                 | tc rest s a r w o s' Hj Hc Hloop IH]; auto.
  intros [Hm Hs]. apply IH.
  assert (H1 : tool_ids_answer_earlier_calls
                 (messages s ++ [echo_message json_dumps tc
                                   (fn_name (tc_function tc)) a])).
  { apply invariant_append_other; [exact Hm | discriminate]. }
  assert (H2 : tool_ids_answer_earlier_calls
                 (messages s ++ [echo_message json_dumps tc
                                   (fn_name (tc_function tc)) a;
                                 result_message str tc r])).
  { change (messages s ++ [echo_message json_dumps tc (fn_name (tc_function tc)) a;
                           result_message str tc r])%list
      with (messages s ++ [echo_message json_dumps tc (fn_name (tc_function tc)) a]
                       ++ [result_message str tc r])%list.
    rewrite app_assoc.
    apply invariant_append_tool
      with (a := echo_message json_dumps tc (fn_name (tc_function tc)) a)
           (id := tc_id tc); auto.
    - apply in_or_app. right. now left.
    - now left. }
  split.
  - rewrite messages_after_return. exact H2.
  - rewrite snapshots_after_return. apply Forall_app. split; [exact Hs |].
    repeat constructor; assumption.
Qed.

Local Arguments for_each : simpl never.
Local Arguments final_completion : simpl never.

(** ** [process_query], executed symbolically

    Text: what the caller gets from the collected texts. *)

Lemma join_single_text c :
  String.concat newline (filter str_truthy [or_empty c])
  = match c with Some t => t | None => EmptyString end.
Proof.
  destruct c as [[| ch t] |]; reflexivity.
Qed.

(** A connected client with a key: the run is the first completion,
    then the loop over the requested tool calls, then, when the loop
    ends normally and calls were requested, the final completion. *)
Lemma run_connected environ_get self query w sess :
  session self = Some sess ->
  opt_str_truthy (environ_get "OPENAI_API_KEY") = true ->
  let req1 := first_request [system_message; user_message query]
                            (convert_tools (available_tools self)) in
  exists o1 w1,
    chat_completions_create req1 w = (o1, w1) /\
    let s1 : state := after_completion req1 w1 (seeded query w) in
    match o1 with
    | Raise e => run environ_get self query w = (Raise e, s1)
    | Return resp =>
        match first_choice_message resp with
        | Raise e => run environ_get self query w = (Raise e, s1)
        | Return msg =>
            let s2 := with_final_text [or_empty (content msg)] s1 in
            exists ol sl,
              loop sess (requested_tool_calls msg) s2 ol sl /\
              match ol with
              | Raise e => run environ_get self query w = (Raise e, sl)
              | Return _ =>
                  match requested_tool_calls msg with
                  | [] => run environ_get self query w = (Return (text_of msg), sl)
                  | _ :: _ =>
                      let req2 := final_request (messages sl) in
                      exists o3 w3,
                        chat_completions_create req2 (world sl) = (o3, w3) /\
                        let s3 := after_completion req2 w3 sl in
                        match o3 with
                        | Raise e => run environ_get self query w = (Raise e, s3)
                        | Return resp2 =>
                            match first_choice_message resp2 with
                            | Raise e =>
                                run environ_get self query w = (Raise e, s3)
                            | Return fm =>
                                let texts :=
                                  (final_text s3 ++ [or_empty (content fm)])%list in
                                run environ_get self query w
                                = (Return (String.concat newline
                                             (filter str_truthy texts)),
                                   with_final_text texts s3)
                            end
                        end
                  end
              end
        end
    end.
Proof.
  intros Hsess Hkey req1.
  destruct (chat_completions_create req1 w) as [o1 w1] eqn:Hc1.
  exists o1, w1. split; [reflexivity |].
  unfold run_process_query, process_query. rewrite Hsess, Hkey. cbn.
  unfold bind, messages_assign, get_messages, create. cbn.
  fold req1. rewrite Hc1.
  destruct o1 as [resp | e]; [| reflexivity].
  unfold lift. destruct (first_choice_message resp) as [msg | e]; [| reflexivity].
  cbn beta iota.
  destruct (requested_tool_calls msg) as [| tc rest] eqn:Hreq.
  - exists (Return tt), (with_final_text [or_empty (content msg)]
                           (after_completion req1 w1 (seeded query w))).
    split; [apply loop_done |].
    unfold text_of. rewrite <- (join_single_text (content msg)). reflexivity.
  - set (s2 := with_final_text [or_empty (content msg)]
                 (after_completion req1 w1 (seeded query w))).
    pose proof (for_each_tool_loop sess (tc :: rest) s2) as Hloop.
    match goal with
    | |- context [for_each _ _ ?st] => change st with s2
    end.
    destruct (for_each (body sess) (tc :: rest) s2) as [ol sl] eqn:Hfor.
    exists ol, sl. split; [exact Hloop |].
    destruct ol as [u | e]; [| reflexivity].
    destruct (tool_loop_locals sess (tc :: rest) s2 (Return u) sl Hloop)
      as [_ Hlen].
    specialize (Hlen u eq_refl). simpl in Hlen.
    unfold final_completion, bind, get_tool_calls.
    destruct (st_tool_calls sl) as [| rec recs] eqn:Hrecs; [discriminate Hlen |].
    unfold get_messages, create. cbn.
    destruct (chat_completions_create (final_request (messages sl)) (world sl))
      as [o3 w3] eqn:Hc3.
    exists o3, w3. split; [reflexivity |].
    destruct o3 as [resp2 | e]; [| reflexivity].
    unfold lift. destruct (first_choice_message resp2) as [fm | e]; reflexivity.
Qed.

(** What a run can raise: the not-connected error, the [IndexError] of
    an empty list of choices, or what a collaborator raised. *)
Lemma tool_loop_raises sess tcs (s : state) e s' :
  loop sess tcs s (Raise e) s' ->
  (exists tool_name tool_args w0,
     fst (call_tool sess tool_name tool_args w0) = Raise e) \/
  (exists doc, json_loads doc = Raise e).
Proof.
  intros H. remember (Raise e) as o eqn:Ho.
  induction H as [s | tc rest s e0 He0 | tc rest s a e0 w0 Ha Hc
                  | tc rest s a r w0 o s' Ha Hc Hrest IH].
  - discriminate Ho.
  - injection Ho as ->. right. now exists (fn_arguments (tc_function tc)).
  - injection Ho as ->. left.
    exists (fn_name (tc_function tc)), a, (world s). now rewrite Hc.
  - now apply IH.
Qed.

Lemma first_choice_message_raises resp e :
  first_choice_message resp = Raise e ->
  e = IndexError "list index out of range".
Proof.
  unfold first_choice_message. destruct (choices resp); intros H.
  - now injection H as <-.
  - discriminate H.
Qed.

Lemma run_unconnected environ_get self query w :
  session self = None ->
  run environ_get self query w
  = (Raise (RuntimeError "Not connected to server"), initial w).
Proof.
  intros H. unfold run_process_query, process_query. now rewrite H.
Qed.

Lemma run_without_key environ_get self query w sess :
  session self = Some sess ->
  opt_str_truthy (environ_get "OPENAI_API_KEY") = false ->
  run environ_get self query w = (Return missing_key_text, initial w).
Proof.
  intros H1 H2. unfold run_process_query, process_query. now rewrite H1, H2.
Qed.

Lemma run_raises_only environ_get self query w e :
  fst (run environ_get self query w) = Raise e ->
  e = RuntimeError "Not connected to server" \/
  e = IndexError "list index out of range" \/
  (exists req w0, fst (chat_completions_create req w0) = Raise e) \/
  (exists sess tool_name tool_args w0,
     fst (call_tool sess tool_name tool_args w0) = Raise e) \/
  (exists doc, json_loads doc = Raise e).
Proof.
  intros Hrun.
  destruct (session self) as [sess |] eqn:Hs.
  2:{ rewrite run_unconnected in Hrun by exact Hs.
      injection Hrun as <-. now left. }
  destruct (opt_str_truthy (environ_get "OPENAI_API_KEY")) eqn:Hk.
  2:{ rewrite (run_without_key environ_get self query w sess Hs Hk) in Hrun.
      discriminate Hrun. }
  destruct (run_connected environ_get self query w sess Hs Hk)
    as (o1 & w1 & Hc1 & H).
  cbv zeta in H.
  destruct o1 as [resp | e1].
  2:{ rewrite H in Hrun. injection Hrun as <-.
      right. right. left. eexists _, w. now rewrite Hc1. }
  destruct (first_choice_message resp) as [msg | e1] eqn:Hm.
  2:{ rewrite H in Hrun. injection Hrun as <-.
      right. left. now apply (first_choice_message_raises resp). }
  destruct H as (ol & sl & Hloop & H).
  destruct ol as [u | e2].
  2:{ rewrite H in Hrun. injection Hrun as <-.
      destruct (tool_loop_raises _ _ _ _ _ Hloop) as [(n & a & w0 & Hc) | Hj].
      - right. right. right. left. now exists sess, n, a, w0.
      - right. right. right. right. exact Hj. }
  destruct (requested_tool_calls msg) as [| tc rest].
  { rewrite H in Hrun. discriminate Hrun. }
  destruct H as (o3 & w3 & Hc3 & H). cbv zeta in H.
  destruct o3 as [resp2 | e3].
  2:{ rewrite H in Hrun. injection Hrun as <-.
      right. right. left. eexists _, (world sl). now rewrite Hc3. }
  destruct (first_choice_message resp2) as [fm | e3] eqn:Hfm.
  - rewrite H in Hrun. discriminate Hrun.
  - rewrite H in Hrun. injection Hrun as <-.
    right. left. now apply (first_choice_message_raises resp2).
Qed.

Lemma run_raises_exceptions_only environ_get self query w e :
  raise_exceptions_only chat_completions_create call_tool json_loads ->
  fst (run environ_get self query w) = Raise e ->
  is_exception e = true.
Proof.
  intros (Hchat & Htool & Hjson) Hrun.
  destruct (run_raises_only environ_get self query w e Hrun)
    as [-> | [-> | [(req & w0 & H) | [(sess & n & a & w0 & H) | (doc & H)]]]].
  - reflexivity.
  - reflexivity.
  - exact (Hchat _ _ _ H).
  - exact (Htool _ _ _ _ _ H).
  - exact (Hjson _ _ H).
Qed.

(** ** Every run, summarised

    Either nothing happened (a precondition failed), or the first
    completion was called and then: no message came back; or the loop
    ran over the requested tool calls and raised; or no tool call was
    requested; or the loop ended normally and the final completion was
    called with the transcript as it then stood. *)

Lemma seed_invariant query :
  tool_ids_answer_earlier_calls [system_message; user_message query].
Proof.
  intros i m H Htool.
  destruct i as [| [| i]]; simpl in H.
  - injection H as <-. discriminate Htool.
  - injection H as <-. discriminate Htool.
  - destruct i; discriminate H.
Qed.

Lemma run_summary environ_get self query w :
  let o := fst (run environ_get self query w) in
  let s' := snd (run environ_get self query w) in
  let req1 := first_request [system_message; user_message query]
                            (convert_tools (available_tools self)) in
  ((session self = None \/
    opt_str_truthy (environ_get "OPENAI_API_KEY") = false) /\
   trace s' = [] /\ snapshots s' = [] /\ messages s' = []) \/
  (exists o1 w1,
     chat_completions_create req1 w = (o1, w1) /\
     transcripts_ok s' /\
     ((trace s' = [CompletionCall req1] /\ (exists e, o = Raise e) /\
       (forall resp msg,
          o1 = Return resp -> first_choice_message resp <> Return msg))
      \/
      (exists resp msg ol tevs,
         o1 = Return resp /\ first_choice_message resp = Return msg /\
         loop_trace (Schema:=Schema) json_loads (requested_tool_calls msg) ol tevs /\
         ((exists e, ol = Raise e /\ o = Raise e /\
                     trace s' = CompletionCall req1 :: tevs)
          \/
          (exists u, ol = Return u /\ requested_tool_calls msg = [] /\
                     o = Return (text_of msg) /\
                     trace s' = CompletionCall req1 :: tevs)
          \/
          (exists u ms, ol = Return u /\ requested_tool_calls msg <> [] /\
                        tool_ids_answer_earlier_calls ms /\
                        trace s'
                        = CompletionCall req1
                            :: (tevs ++ [CompletionCall (final_request ms)])%list))))).
Proof.
  intros o s' req1. subst o s'.
  destruct (session self) as [sess |] eqn:Hs;
    [| left; rewrite run_unconnected by exact Hs; now repeat split; auto].
  destruct (opt_str_truthy (environ_get "OPENAI_API_KEY")) eqn:Hk;
    [| left; rewrite (run_without_key environ_get self query w sess Hs Hk);
       now repeat split; auto].
  right.
  destruct (run_connected environ_get self query w sess Hs Hk)
    as (o1 & w1 & Hc1 & Hrun).
  cbv zeta in Hrun. fold req1 in Hc1, Hrun.
  exists o1, w1. split; [exact Hc1 |].
  assert (Hseed : transcripts_ok (after_completion req1 w1 (seeded query w)
                                  : state)).
  { split; cbn; [| constructor; [| constructor]]; apply seed_invariant. }
  destruct o1 as [resp | e1].
  2:{ rewrite Hrun. split; [exact Hseed |]. left. repeat split.
      - now exists e1.
      - intros resp msg H. discriminate H. }
  destruct (first_choice_message resp) as [msg | e1] eqn:Hm.
  2:{ rewrite Hrun. split; [exact Hseed |]. left. repeat split.
      - now exists e1.
      - intros resp0 msg H. injection H as <-. rewrite Hm. discriminate. }
  destruct Hrun as (ol & sl & Hloop & Hrun).
  destruct (tool_loop_events _ _ _ _ _ Hloop) as (tevs & Ht & Hspec).
  assert (Hsl : transcripts_ok sl).
  { apply (tool_loop_transcripts _ _ _ _ _ Hloop). exact Hseed. }
  cbn in Ht.
  destruct ol as [u | e2].
  2:{ rewrite Hrun. split; [exact Hsl |]. right.
      exists resp, msg, (Raise e2), tevs.
      split; [reflexivity | split; [exact Hm | split; [exact Hspec |]]].
      left. exists e2. now repeat split. }
  destruct (requested_tool_calls msg) as [| tc rest] eqn:Hreq.
  { rewrite Hrun. split; [exact Hsl |]. right.
    exists resp, msg, (Return u), tevs. rewrite Hreq.
    split; [reflexivity | split; [exact Hm | split; [exact Hspec |]]].
    right. left. exists u. now repeat split. }
  destruct Hrun as (o3 & w3 & Hc3 & Hrun). cbv zeta in Hrun.
  assert (Hfin :
            transcripts_ok (snd (run environ_get self query w)) /\
            trace (snd (run environ_get self query w))
            = CompletionCall req1
                :: (tevs ++ [CompletionCall (final_request (messages sl))])%list).
  { destruct o3 as [resp2 | e3];
      [destruct (first_choice_message resp2) as [fm | e3] |];
      rewrite Hrun; (split; [exact Hsl | cbn; now rewrite Ht]). }
  destruct Hfin as [Hok Htrace].
  split; [exact Hok |]. right.
  exists resp, msg, (Return u), tevs. rewrite Hreq.
  split; [reflexivity | split; [exact Hm | split; [exact Hspec |]]].
  right. right. exists u, (messages sl).
  split; [reflexivity | split; [discriminate | split; [apply Hsl | exact Htrace]]].
Qed.

(** C7. [process_query] checks its preconditions before any remote
    call.  Without a session it raises the not-connected error; with a
    session but without a usable API key it returns the explanatory
    text; in both cases no completion call and no tool call is made and
    the world is left as it was.  When both are missing the session
    check, which comes first, decides. *)
Theorem process_query_checks_preconditions_first :
  forall environ_get self query w,
    (session self = None ->
       fst (run environ_get self query w)
       = Raise (RuntimeError "Not connected to server")) /\
    (session self <> None ->
     opt_str_truthy (environ_get "OPENAI_API_KEY") = false ->
       fst (run environ_get self query w) = Return missing_key_text) /\
    (session self = None \/
     opt_str_truthy (environ_get "OPENAI_API_KEY") = false ->
       trace (snd (run environ_get self query w)) = [] /\
       world (snd (run environ_get self query w)) = w).
Proof.
  intros environ_get self query w. repeat split.
  - intros H. now rewrite run_unconnected.
  - intros H1 H2. destruct (session self) as [sess |] eqn:Hs; [| contradiction].
    now rewrite (run_without_key environ_get self query w sess).
  - destruct (session self) as [sess |] eqn:Hs.
    + destruct H as [H | H]; [discriminate H |].
      now rewrite (run_without_key environ_get self query w sess).
    + now rewrite run_unconnected.
  - destruct (session self) as [sess |] eqn:Hs.
    + destruct H as [H | H]; [discriminate H |].
      now rewrite (run_without_key environ_get self query w sess).
    + now rewrite run_unconnected.
Qed.

(** C3. When the first completion response carries no tool call,
    [process_query] makes exactly one completion call, executes no
    tool, and returns exactly the text of the assistant message. *)
Theorem no_tool_call_one_completion_text_verbatim :
  forall environ_get self query w sess resp w1 msg,
    session self = Some sess ->
    opt_str_truthy (environ_get "OPENAI_API_KEY") = true ->
    chat_completions_create
      (first_request [system_message; user_message query]
                     (convert_tools (available_tools self))) w
    = (Return resp, w1) ->
    first_choice_message resp = Return msg ->
    requested_tool_calls msg = [] ->
    fst (run environ_get self query w) = Return (text_of msg) /\
    trace (snd (run environ_get self query w))
    = [CompletionCall
         (first_request [system_message; user_message query]
                        (convert_tools (available_tools self)))] /\
    length (completion_requests (trace (snd (run environ_get self query w)))) = 1 /\
    started_calls (trace (snd (run environ_get self query w))) = [].
Proof.
  intros environ_get self query w sess resp w1 msg Hs Hk Hc Hm Hr.
  destruct (run_connected environ_get self query w sess Hs Hk)
    as (o1 & w1' & Hc1 & Hrun).
  cbv zeta in Hrun. rewrite Hc in Hc1. injection Hc1 as <- <-.
  rewrite Hm in Hrun. destruct Hrun as (ol & sl & Hloop & Hrun).
  rewrite Hr in Hloop, Hrun. inversion Hloop; subst.
  rewrite Hrun. repeat split.
Qed.

(** C1, as the code has it.  When the first completion response
    carries exactly one tool call whose arguments parse and whose
    execution returns, [process_query] makes exactly two completion
    calls and exactly one tool execution, and the transcript passed to
    the second completion call holds four messages, in order: the system
    message, the user message, the assistant message that re-describes
    the single tool call, and the tool-role message with the result. *)
Theorem one_tool_call_two_completions_four_messages :
  forall environ_get self query w sess resp w1 msg tc a r w2,
    session self = Some sess ->
    opt_str_truthy (environ_get "OPENAI_API_KEY") = true ->
    chat_completions_create
      (first_request [system_message; user_message query]
                     (convert_tools (available_tools self))) w
    = (Return resp, w1) ->
    first_choice_message resp = Return msg ->
    requested_tool_calls msg = [tc] ->
    json_loads (fn_arguments (tc_function tc)) = Return a ->
    call_tool sess (fn_name (tc_function tc)) a w1 = (Return r, w2) ->
    let transcript :=
      [system_message; user_message query;
       echo_message json_dumps tc (fn_name (tc_function tc)) a;
       result_message str tc r] in
    trace (snd (run environ_get self query w))
    = [CompletionCall
         (first_request [system_message; user_message query]
                        (convert_tools (available_tools self)));
       ToolCallBegin (fn_name (tc_function tc)) a;
       ToolCallEnd (Return r);
       CompletionCall (final_request transcript)] /\
    length (completion_requests (trace (snd (run environ_get self query w)))) = 2 /\
    length (started_calls (trace (snd (run environ_get self query w)))) = 1 /\
    map msg_role transcript = [system; user; assistant; tool].
Proof.
  intros environ_get self query w sess resp w1 msg tc a r w2
         Hs Hk Hc Hm Hr Hj Hcall transcript.
  destruct (run_connected environ_get self query w sess Hs Hk)
    as (o1 & w1' & Hc1 & Hrun).
  cbv zeta in Hrun. rewrite Hc in Hc1. injection Hc1 as <- <-.
  rewrite Hm in Hrun. destruct Hrun as (ol & sl & Hloop & Hrun).
  rewrite Hr in Hloop, Hrun.
  assert (Hsl : ol = Return tt /\
                sl = after_return json_dumps str tc a r w2
                       (with_final_text [or_empty (content msg)]
                          (after_completion
                             (first_request [system_message; user_message query]
                                (convert_tools (available_tools self)))
                             w1 (seeded query w)))).
  { inversion Hloop as [| ? ? ? e He | ? ? ? a0 e w0 Ha0 Hc0
                        | ? ? ? a0 r0 w0 o0 s0 Ha0 Hc0 Hrest]; subst.
    - rewrite Hj in He. discriminate He.
    - rewrite Hj in Ha0. injection Ha0 as <-.
      cbn in Hc0. rewrite Hcall in Hc0. discriminate Hc0.
    - rewrite Hj in Ha0. injection Ha0 as <-.
      cbn in Hc0. rewrite Hcall in Hc0. injection Hc0 as <- <-.
      inversion Hrest; subst. now split. }
  destruct Hsl as [-> ->].
  destruct Hrun as (o3 & w3 & Hc3 & Hrun). cbv zeta in Hrun.
  assert (Htrace :
            trace (snd (run environ_get self query w))
            = [CompletionCall
                 (first_request [system_message; user_message query]
                                (convert_tools (available_tools self)));
               ToolCallBegin (fn_name (tc_function tc)) a;
               ToolCallEnd (Return r);
               CompletionCall (final_request transcript)]).
  { destruct o3 as [resp2 | e];
      [destruct (first_choice_message resp2) as [fm | e] |];
      rewrite Hrun; reflexivity. }
  rewrite Htrace. repeat split.
Qed.

(** Observations over a trace that ends with a completion call. *)

Lemma failed_calls_then_completion (tevs : list event) req :
  failed_calls (tevs ++ [CompletionCall req]) = failed_calls tevs.
Proof. unfold failed_calls. rewrite flat_map_app. simpl. apply app_nil_r. Qed.

Lemma started_calls_then_completion (tevs : list event) req :
  started_calls (tevs ++ [CompletionCall req]) = started_calls tevs.
Proof. unfold started_calls. rewrite flat_map_app. simpl. apply app_nil_r. Qed.

Lemma returned_calls_then_completion (tevs : list event) req :
  returned_calls (tevs ++ [CompletionCall req]) = returned_calls tevs.
Proof. unfold returned_calls. rewrite flat_map_app. simpl. apply app_nil_r. Qed.

Lemma tool_events_then_completion (tevs : list event) req :
  tool_events (tevs ++ [CompletionCall req]) = tool_events tevs.
Proof. unfold tool_events. rewrite filter_app. simpl. apply app_nil_r. Qed.

Lemma completion_requests_then_completion (tevs : list event) req :
  completion_requests (tevs ++ [CompletionCall req])
  = (completion_requests tevs ++ [req])%list.
Proof. unfold completion_requests. now rewrite flat_map_app. Qed.

(** C6, as the code has it.  If [session.call_tool] raises during a
    tool-call execution, the exception is what the caller of
    [process_query] gets, nothing happens after the call that raised,
    and the only completion call of the run is the first one: the final
    completion call is not made. *)
Theorem tool_failure_propagates_without_final_completion :
  forall environ_get self query w e,
    In e (failed_calls (trace (snd (run environ_get self query w)))) ->
    fst (run environ_get self query w) = Raise e /\
    (exists pre,
       trace (snd (run environ_get self query w))
       = (pre ++ [ToolCallEnd (Raise e)])%list) /\
    completion_requests (trace (snd (run environ_get self query w)))
    = [first_request [system_message; user_message query]
                     (convert_tools (available_tools self))].
Proof.
  intros environ_get self query w e Hin.
  destruct (run_summary environ_get self query w)
    as [(_ & Ht & _) | (o1 & w1 & Hc1 & Hok & Hcase)].
  { rewrite Ht in Hin. contradiction. }
  destruct Hcase as [(Ht & _) | (resp & msg & ol & tevs & Ho1 & Hm & Hspec & Hcase)].
  { rewrite Ht in Hin. contradiction. }
  destruct Hspec as (Hcr & _ & _ & _ & _ & _ & Ho).
  destruct Hcase as [(e2 & -> & Hres & Ht) | [(u & -> & _ & _ & Ht) | (u & ms & -> & _ & _ & Ht)]];
    rewrite Ht in Hin |- *; simpl in Hin.
  - destruct Ho as [_ [(pre & Hpre & Hf) | (Hf & _)]];
      rewrite Hf in Hin; [| contradiction].
    destruct Hin as [<- | []].
    split; [exact Hres | split].
    + exists (CompletionCall
                (first_request [system_message; user_message query]
                   (convert_tools (available_tools self))) :: pre).
      now rewrite Hpre.
    + simpl. now rewrite Hcr.
  - destruct Ho as [_ Hf]. rewrite Hf in Hin. contradiction.
  - destruct Ho as [_ Hf].
    rewrite failed_calls_then_completion, Hf in Hin. contradiction.
Qed.

(** C9. In every transcript [process_query] builds, each tool-role
    message carries the id of a tool call that an assistant message
    earlier in the same transcript carries.  This holds for the value of
    the transcript after each of its updates, for the transcript the
    run ends with, and for the transcript passed to each completion
    call. *)
Theorem tool_messages_answer_earlier_tool_calls :
  forall environ_get self query w,
    Forall tool_ids_answer_earlier_calls
           (snapshots (snd (run environ_get self query w))) /\
    tool_ids_answer_earlier_calls
      (messages (snd (run environ_get self query w))) /\
    Forall (fun req => tool_ids_answer_earlier_calls (req_messages req))
           (completion_requests (trace (snd (run environ_get self query w)))).
Proof.
  intros environ_get self query w.
  destruct (run_summary environ_get self query w)
    as [(_ & Ht & Hsn & Hms) | (o1 & w1 & Hc1 & [Hm Hs] & Hcase)].
  { rewrite Ht, Hsn, Hms. repeat split; auto using invariant_nil. }
  split; [exact Hs | split; [exact Hm |]].
  destruct Hcase as [(Ht & _) | (resp & msg & ol & tevs & Ho1 & Hmsg & Hspec & Hcase)].
  { rewrite Ht. simpl. repeat constructor. apply seed_invariant. }
  destruct Hspec as (Hcr & _).
  destruct Hcase as [(e2 & _ & _ & Ht) | [(u & _ & _ & _ & Ht) | (u & ms & _ & _ & Hinv & Ht)]];
    rewrite Ht; simpl.
  - rewrite Hcr. repeat constructor. apply seed_invariant.
  - rewrite Hcr. repeat constructor. apply seed_invariant.
  - rewrite completion_requests_then_completion, Hcr. simpl.
    repeat constructor; [apply seed_invariant | exact Hinv].
Qed.

(** Which message the first completion returned decides the rest of a
    run: the summary speaks of that message. *)
Lemma run_summary_of_message environ_get self query w resp w1 msg :
  session self <> None ->
  opt_str_truthy (environ_get "OPENAI_API_KEY") = true ->
  chat_completions_create
    (first_request [system_message; user_message query]
                   (convert_tools (available_tools self))) w
  = (Return resp, w1) ->
  first_choice_message resp = Return msg ->
  let o := fst (run environ_get self query w) in
  let t := trace (snd (run environ_get self query w)) in
  let req1 := first_request [system_message; user_message query]
                            (convert_tools (available_tools self)) in
  exists ol tevs,
    loop_trace (Schema:=Schema) json_loads (requested_tool_calls msg) ol tevs /\
    ((exists e, ol = Raise e /\ o = Raise e /\ t = CompletionCall req1 :: tevs)
     \/
     (exists u, ol = Return u /\ requested_tool_calls msg = [] /\
                o = Return (text_of msg) /\ t = CompletionCall req1 :: tevs)
     \/
     (exists u ms, ol = Return u /\ requested_tool_calls msg <> [] /\
                   t = CompletionCall req1
                         :: (tevs ++ [CompletionCall (final_request ms)])%list)).
Proof.
  intros Hs Hk Hc Hm o t req1. subst o t.
  destruct (run_summary environ_get self query w)
    as [([H | H] & _) | (o1 & w1' & Hc1 & _ & Hcase)];
    [contradiction | rewrite Hk in H; discriminate H |].
  cbv zeta in Hc1. rewrite Hc in Hc1. injection Hc1 as <- <-.
  destruct Hcase as [(_ & _ & Hno)
                    | (resp' & msg' & ol & tevs & Ho1 & Hm' & Hspec & Hcase)].
  { exfalso. exact (Hno resp msg eq_refl Hm). }
  injection Ho1 as <-. rewrite Hm in Hm'. injection Hm' as <-.
  exists ol, tevs. split; [exact Hspec |].
  destruct Hcase as [H | [H | (u & ms & H1 & H2 & _ & H3)]]; auto.
  right. right. now exists u, ms.
Qed.

(** C5, as the code has it.  The requested tool calls are executed one
    at a time, in the order of the response, each with its parsed
    arguments, each over before the next begins.  The loop stops at the
    first call that raises and at the first arguments that do not parse:
    at most one call raises, none is begun after it, and all [N] requested
    calls are executed exactly when the loop is not stopped, in
    particular whenever [process_query] returns. *)
Theorem tool_calls_execute_in_order_until_first_failure :
  forall environ_get self query w resp w1 msg,
    session self <> None ->
    opt_str_truthy (environ_get "OPENAI_API_KEY") = true ->
    chat_completions_create
      (first_request [system_message; user_message query]
                     (convert_tools (available_tools self))) w
    = (Return resp, w1) ->
    first_choice_message resp = Return msg ->
    let tcs := requested_tool_calls msg in
    let t := trace (snd (run environ_get self query w)) in
    one_at_a_time (tool_events t) = true /\
    length (started_calls t) <= length tcs /\
    Forall2 (call_matches json_loads)
            (firstn (length (started_calls t)) tcs) (started_calls t) /\
    length (returned_calls t) + length (failed_calls t)
    = length (started_calls t) /\
    length (failed_calls t) <= 1 /\
    (forall e, In e (failed_calls t) ->
               exists pre, tool_events t = (pre ++ [ToolCallEnd (Raise e)])%list) /\
    (failed_calls t = [] ->
     (forall tc, In tc tcs ->
        exists a, json_loads (fn_arguments (tc_function tc)) = Return a) ->
     length (returned_calls t) = length tcs) /\
    (forall text, fst (run environ_get self query w) = Return text ->
                  length (returned_calls t) = length tcs).
Proof.
  intros environ_get self query w resp w1 msg Hs Hk Hc Hm tcs t.
  destruct (run_summary_of_message environ_get self query w resp w1 msg
              Hs Hk Hc Hm) as (ol & tevs & Hspec & Hcase).
  cbv zeta in Hcase. fold t in Hcase. fold tcs in Hspec, Hcase.
  destruct Hspec as (Hcr & Hte & Hone & Hlen & Hmatch & Hsum & Ho).
  assert (Hobs : tool_events t = tevs /\ started_calls t = started_calls tevs /\
                 returned_calls t = returned_calls tevs /\
                 failed_calls t = failed_calls tevs).
  { destruct Hcase as [(e & _ & _ & ->) | [(u & _ & _ & _ & ->) | (u & ms & _ & _ & ->)]];
      simpl;
      rewrite ?tool_events_then_completion, ?started_calls_then_completion,
              ?returned_calls_then_completion, ?failed_calls_then_completion;
      now rewrite Hte. }
  destruct Hobs as (-> & -> & -> & ->).
  split; [exact Hone | split; [exact Hlen | split; [exact Hmatch |
    split; [exact Hsum |]]]].
  destruct ol as [u | e].
  - destruct Ho as [Hret Hf]. rewrite Hf. simpl. repeat split; auto.
    intros e [].
  - destruct Ho as [Hret Hwhy]. split; [| split; [| split]].
    + destruct Hwhy as [(pre & _ & ->) | (-> & _)]; simpl; lia.
    + intros e' He'.
      destruct Hwhy as [(pre & Hpre & Hf) | (Hf & _)]; rewrite Hf in He';
        [| contradiction].
      destruct He' as [<- | []]. now exists pre.
    + intros Hf Hparse.
      destruct Hwhy as [(pre & _ & Hf') | (_ & tc & Hn & Hj)].
      * rewrite Hf' in Hf. discriminate Hf.
      * destruct (Hparse tc (nth_error_In _ _ Hn)) as [a Ha].
        rewrite Hj in Ha. discriminate Ha.
    + intros text Htext.
      destruct Hcase as [(e' & _ & Hres & _) | [(u & Hu & _) | (u & ms & Hu & _)]];
        [rewrite Hres in Htext | |]; discriminate.
Qed.

(** Every trace is empty, or the first completion call, then tool
    events only, then at most the final completion call. *)
Lemma run_trace_shape
    environ_get self query w :
  let t := trace (snd (run environ_get self query w)) in
  t = [] \/
  exists tevs fin,
    t = CompletionCall
          (first_request [system_message; user_message query]
                         (convert_tools (available_tools self)))
          :: (tevs ++ fin)%list /\
    completion_requests tevs = [] /\
    (fin = [] \/ exists ms, fin = [CompletionCall (final_request ms)]).
Proof.
  intros t.
  destruct (run_summary environ_get self query w)
    as [(_ & Ht & _) | (o1 & w1 & Hc1 & _ & Hcase)]; [now left | right].
  fold t in Hcase.
  destruct Hcase as [(Ht & _) | (resp & msg & ol & tevs & _ & _ & Hspec & Hcase)].
  { exists [], []. rewrite Ht. repeat split. now left. }
  destruct Hspec as (Hcr & _).
  destruct Hcase as [(e & _ & _ & Ht) | [(u & _ & _ & _ & Ht) | (u & ms & _ & _ & _ & Ht)]].
  - exists tevs, []. rewrite app_nil_r. repeat split; eauto.
  - exists tevs, []. rewrite app_nil_r. repeat split; eauto.
  - exists tevs, [CompletionCall (final_request ms)]. repeat split; eauto.
Qed.

(** C4, as the code has it.  A run makes at most two completion
    calls; a second one is sent without tool specs and without a tool
    choice; every tool event of the run lies between the first
    completion call and the final one, so there is at most one round of
    tool executions.  The final completion call is made exactly when the
    first response requested at least one tool call and every requested
    call was executed and returned. *)
Theorem final_completion_iff_every_requested_call_returned :
  forall environ_get self query w,
    let t := trace (snd (run environ_get self query w)) in
    length (completion_requests t) <= 2 /\
    (forall req, nth_error (completion_requests t) 1 = Some req ->
                 req_tools req = None /\ req_tool_choice req = None) /\
    (t = [] \/
     exists req1 tevs fin,
       t = CompletionCall req1 :: (tevs ++ fin)%list /\
       tool_events tevs = tevs /\ completion_requests tevs = [] /\
       (fin = [] \/ exists ms, fin = [CompletionCall (final_request ms)])) /\
    (forall resp w1 msg,
       session self <> None ->
       opt_str_truthy (environ_get "OPENAI_API_KEY") = true ->
       chat_completions_create
         (first_request [system_message; user_message query]
                        (convert_tools (available_tools self))) w
       = (Return resp, w1) ->
       first_choice_message resp = Return msg ->
       (length (completion_requests t) = 2 <->
        requested_tool_calls msg <> [] /\
        length (returned_calls t) = length (requested_tool_calls msg))).
Proof.
  intros environ_get self query w t.
  assert (Hshape :
            t = [] \/
            exists req1 tevs fin,
              t = CompletionCall req1 :: (tevs ++ fin)%list /\
              tool_events tevs = tevs /\ completion_requests tevs = [] /\
              (fin = [] \/ exists ms, fin = [CompletionCall (final_request ms)])).
  { destruct (run_summary environ_get self query w)
      as [(_ & Ht & _) | (o1 & w1 & Hc1 & _ & Hcase)]; [now left | right].
    fold t in Hcase.
    destruct Hcase as [(Ht & _) | (resp & msg & ol & tevs & _ & _ & Hspec & Hcase)].
    { eexists _, [], []. rewrite Ht. repeat split. now left. }
    destruct Hspec as (Hcr & Hte & _).
    destruct Hcase as [(e & _ & _ & Ht) | [(u & _ & _ & _ & Ht) | (u & ms & _ & _ & _ & Ht)]].
    - eexists _, tevs, []. rewrite app_nil_r. repeat split; eauto.
    - eexists _, tevs, []. rewrite app_nil_r. repeat split; eauto.
    - eexists _, tevs, _. repeat split; eauto. }
  assert (Hcount :
            forall req1 tevs fin,
              completion_requests tevs = [] ->
              completion_requests (CompletionCall req1 :: (tevs ++ fin)%list : list event)
              = req1 :: completion_requests fin).
  { intros req1 tevs fin H. unfold completion_requests in *. simpl.
    now rewrite flat_map_app, H. }
  split; [| split; [| split; [exact Hshape |]]].
  - destruct Hshape as [-> | (req1 & tevs & fin & -> & _ & Hcr & Hfin)];
      [simpl; lia |].
    rewrite (Hcount _ _ _ Hcr).
    destruct Hfin as [-> | (ms & ->)]; simpl; lia.
  - intros req Hreq.
    destruct Hshape as [Ht | (req1 & tevs & fin & Ht & _ & Hcr & Hfin)];
      rewrite Ht in Hreq; [discriminate Hreq |].
    rewrite (Hcount _ _ _ Hcr) in Hreq.
    destruct Hfin as [-> | (ms & ->)]; simpl in Hreq; [discriminate Hreq |].
    injection Hreq as <-. now split.
  - intros resp w1 msg Hs Hk Hc Hm.
    destruct (run_summary_of_message environ_get self query w resp w1 msg
                Hs Hk Hc Hm) as (ol & tevs & Hspec & Hcase).
    cbv zeta in Hcase. fold t in Hcase.
    destruct Hspec as (Hcr & _ & _ & _ & _ & _ & Ho).
    destruct Hcase as [(e & -> & _ & Ht) | [(u & -> & Hreq & _ & Ht) | (u & ms & -> & Hreq & Ht)]];
      rewrite Ht; simpl.
    + rewrite Hcr. simpl. destruct Ho as [Hlt _].
      split; [discriminate | intros [_ H]; lia].
    + rewrite Hcr. simpl.
      split; [discriminate | intros [H _]; contradiction].
    + rewrite completion_requests_then_completion, Hcr,
              returned_calls_then_completion.
      destruct Ho as [Hret _]. simpl. now repeat split.
Qed.

(** ** The catalog transform *)

Lemma convert_tools_from (tools : list (Tool Schema)) :
  forall acc,
    fold_left (fun openai_tools t => (openai_tools ++ [to_openai_tool t])%list)
              tools acc
    = (acc ++ map (@to_openai_tool Schema) tools)%list.
Proof.
  induction tools as [| t rest IH]; intros acc; simpl.
  - now rewrite app_nil_r.
  - rewrite IH, <- app_assoc. reflexivity.
Qed.

Lemma convert_tools_map (tools : list (Tool Schema)) :
  convert_tools tools = map (@to_openai_tool Schema) tools.
Proof. unfold convert_tools. now rewrite convert_tools_from. Qed.

(** The tool specs a run sends are the catalog of the client's tools:
    the first completion carries it, the final one carries none. *)
Lemma requests_carry_the_catalog environ_get self query w req :
  In req (completion_requests (trace (snd (run environ_get self query w)))) ->
  req_tools req = Some (convert_tools (available_tools self)) \/
  req_tools req = None.
Proof.
  intros Hin.
  destruct (run_trace_shape
              environ_get self query w)
    as [Ht | (tevs & fin & Ht & Hcr & Hfin)]; rewrite Ht in Hin.
  - contradiction.
  - unfold completion_requests in Hin. simpl in Hin.
    rewrite flat_map_app in Hin. fold (completion_requests tevs) in Hin.
    rewrite Hcr in Hin. simpl in Hin.
    destruct Hin as [<- | Hin]; [now left |].
    destruct Hfin as [-> | (ms & ->)]; simpl in Hin; [contradiction |].
    destruct Hin as [<- | []]. now right.
Qed.

(** C2. For tool descriptors with pairwise distinct names, the catalog
    transform is a function of the descriptors alone; its output has
    the length of its input and keeps its order; the record at each
    position has type ["function"] and the name, description and
    parameters of the descriptor at that position; and whatever the
    query and the world, the tool specs a run attaches to a completion
    call are this catalog. *)
Theorem catalog_keeps_size_order_and_fields :
  forall tools : list (Tool Schema),
    NoDup (map (@name Schema) tools) ->
    convert_tools tools = map (@to_openai_tool Schema) tools /\
    length (convert_tools tools) = length tools /\
    (forall i t,
       nth_error tools i = Some t ->
       nth_error (convert_tools tools) i
       = Some {| ot_type := "function";
                 ot_function := {| spec_name := name t;
                                   spec_description := description t;
                                   spec_parameters := inputSchema t |} |}) /\
    map (fun o => spec_name (ot_function o)) (convert_tools tools)
    = map (@name Schema) tools /\
    NoDup (map (fun o => spec_name (ot_function o)) (convert_tools tools)) /\
    (forall environ_get self query w req,
       available_tools self = tools ->
       In req (completion_requests
                 (trace (snd (run environ_get self query w)))) ->
       req_tools req = Some (convert_tools tools) \/ req_tools req = None).
Proof.
  intros tools Hnd.
  assert (Hnames : map (fun o => spec_name (ot_function o))
                       (map (@to_openai_tool Schema) tools)
                   = map (@name Schema) tools).
  { rewrite map_map. reflexivity. }
  rewrite convert_tools_map.
  split; [reflexivity | split; [apply length_map | split; [| split; [| split]]]].
  - intros i t Hi. rewrite nth_error_map, Hi. reflexivity.
  - exact Hnames.
  - rewrite Hnames. exact Hnd.
  - intros environ_get self query w req Htools Hin.
    rewrite <- convert_tools_map, <- Htools.
    exact (requests_carry_the_catalog environ_get self query w req Hin).
Qed.

(** ** The transcript a run builds, in full *)

Lemma growing_prefixes_append (ms : list message) m :
  2 <= length ms ->
  growing_prefixes (ms ++ [m])
  = (growing_prefixes ms ++ [(ms ++ [m])%list])%list.
Proof.
  intros Hlen. unfold growing_prefixes.
  assert (Hn : length (ms ++ [m]) - 1 = S (length ms - 1))
    by (rewrite length_app; simpl; lia).
  rewrite Hn, seq_S, map_app. f_equal.
  - apply map_ext_in. intros k Hk. apply in_seq in Hk.
    rewrite firstn_app. replace (k - length ms) with 0 by lia.
    simpl. apply app_nil_r.
  - cbn [map]. f_equal.
    replace (2 + (length ms - 1)) with (length (ms ++ [m]))
      by (rewrite length_app; simpl; lia).
    apply firstn_all.
Qed.

Lemma returned_calls_app (t1 t2 : list event) :
  returned_calls (t1 ++ t2) = (returned_calls t1 ++ returned_calls t2)%list.
Proof. unfold returned_calls. apply flat_map_app. Qed.

Lemma transcript_grows_after_return tc a r w (s : state) :
  transcript_grows s ->
  transcript_grows (after_return json_dumps str tc a r w s).
Proof.
  intros [Hlen Hsn]. unfold transcript_grows.
  rewrite messages_after_return, snapshots_after_return, Hsn.
  split; [rewrite length_app; lia |].
  change (messages s ++ [echo_message json_dumps tc (fn_name (tc_function tc)) a;
                         result_message str tc r])%list
    with (messages s ++ [echo_message json_dumps tc (fn_name (tc_function tc)) a]
                     ++ [result_message str tc r])%list.
  rewrite app_assoc.
  rewrite (growing_prefixes_append (messages s ++ _)) by (rewrite length_app; lia).
  rewrite (growing_prefixes_append (messages s)) by exact Hlen.
  rewrite <- (app_assoc (growing_prefixes (messages s))). reflexivity.
Qed.

Lemma tool_loop_builds_transcript sess tcs (s : state) o s' :
  loop sess tcs s o s' ->
  transcript_grows s ->
  exists done : list (tool_call * JSON * CallToolResult Content),
    messages s' = (messages s ++ flat_map (exchange json_dumps str) done)%list /\
    transcript_grows s' /\
    returned_calls (trace s') = (returned_calls (trace s) ++ map snd done)%list /\
    map (fun x => fst (fst x)) done = firstn (length done) tcs /\
    Forall (fun x => json_loads (fn_arguments (tc_function (fst (fst x))))
                     = Return (snd (fst x))) done /\
    (forall u, o = Return u -> length done = length tcs).
Proof.
  induction 1 as [s | tc rest s e Hj | tc rest s a e w Hj Hc
                 | tc rest s a r w o s' Hj Hc Hloop IH]; intros Hg.
  - exists []. simpl. rewrite !app_nil_r. repeat split; auto; apply Hg.
  - exists []. simpl. rewrite !app_nil_r.
    repeat split; auto; try apply Hg. discriminate.
  - exists []. rewrite trace_after_raise, returned_calls_app. simpl.
    rewrite !app_nil_r.
    repeat split; auto; try apply Hg. discriminate.
  - destruct (IH (transcript_grows_after_return tc a r w s Hg))
      as (done & Hm & Hg' & Hr & Hfst & Hparse & Hlen).
    exists ((tc, a, r) :: done).
    rewrite Hm, Hr, messages_after_return, trace_after_return, returned_calls_app.
    simpl. rewrite <- !app_assoc. simpl.
    split; [reflexivity | split; [exact Hg' | split; [reflexivity |
      split; [| split]]]].
    + f_equal. exact Hfst.
    + constructor; [exact Hj | exact Hparse].
    + intros u Hu. now rewrite (Hlen u Hu).
Qed.

Lemma join_two_texts c1 c2 :
  String.concat newline (filter str_truthy [or_empty c1; or_empty c2])
  = joined_texts (match c1 with Some t => t | None => EmptyString end)
                 (match c2 with Some t => t | None => EmptyString end).
Proof.
  destruct c1 as [[| ch1 t1] |], c2 as [[| ch2 t2] |]; reflexivity.
Qed.

(** A connected run with a key, seen from its end: the transcript, the
    requests that carried it, and the text returned. *)
Lemma run_anatomy environ_get self query w sess :
  session self = Some sess ->
  opt_str_truthy (environ_get "OPENAI_API_KEY") = true ->
  let o := fst (run environ_get self query w) in
  let s' := snd (run environ_get self query w) in
  let seed := [system_message; user_message query] in
  let req1 := first_request seed (convert_tools (available_tools self)) in
  exists done : list (tool_call * JSON * CallToolResult Content),
    messages s' = (seed ++ flat_map (exchange json_dumps str) done)%list /\
    transcript_grows s' /\
    returned_calls (trace s') = map snd done /\
    Forall (fun x => json_loads (fn_arguments (tc_function (fst (fst x))))
                     = Return (snd (fst x))) done /\
    (forall req, In req (completion_requests (trace s')) ->
                 req = req1 \/ req = final_request (messages s')) /\
    (forall resp w1 msg,
       chat_completions_create req1 w = (Return resp, w1) ->
       first_choice_message resp = Return msg ->
       map (fun x => fst (fst x)) done
       = firstn (length done) (requested_tool_calls msg) /\
       (forall text, o = Return text ->
          length done = length (requested_tool_calls msg) /\
          ((requested_tool_calls msg = [] /\ text = text_of msg) \/
           (requested_tool_calls msg <> [] /\
            exists w2 w3 resp2 fm,
              chat_completions_create (final_request (messages s')) w2
              = (Return resp2, w3) /\
              first_choice_message resp2 = Return fm /\
              text = joined_texts (text_of msg) (text_of fm))))).
Proof.
  intros Hs Hk o s' seed req1. subst o s'.
  destruct (run_connected environ_get self query w sess Hs Hk)
    as (o1 & w1 & Hc1 & Hrun).
  cbv zeta in Hrun. fold seed in Hc1, Hrun. fold req1 in Hc1, Hrun.
  assert (Hseed : transcript_grows (after_completion req1 w1 (seeded query w)
                                    : state)).
  { split; cbn; [lia | reflexivity]. }
  assert (Hnone :
            forall e,
              run environ_get self query w
              = (Raise e, after_completion req1 w1 (seeded query w)) ->
              (forall resp msg, o1 = Return resp ->
                                first_choice_message resp <> Return msg) ->
              exists done : list (tool_call * JSON * CallToolResult Content),
                messages (snd (run environ_get self query w))
                = (seed ++ flat_map (exchange json_dumps str) done)%list /\
                transcript_grows (snd (run environ_get self query w)) /\
                returned_calls (trace (snd (run environ_get self query w)))
                = map snd done /\
                Forall (fun x => json_loads (fn_arguments (tc_function (fst (fst x))))
                                 = Return (snd (fst x))) done /\
                (forall req,
                   In req (completion_requests
                             (trace (snd (run environ_get self query w)))) ->
                   req = req1 \/
                   req = final_request (messages (snd (run environ_get self query w)))) /\
                (forall resp w1' msg,
                   chat_completions_create req1 w = (Return resp, w1') ->
                   first_choice_message resp = Return msg ->
                   map (fun x => fst (fst x)) done
                   = firstn (length done) (requested_tool_calls msg) /\
                   (forall text,
                      fst (run environ_get self query w) = Return text ->
                      length done = length (requested_tool_calls msg) /\
                      ((requested_tool_calls msg = [] /\ text = text_of msg) \/
                       (requested_tool_calls msg <> [] /\
                        exists w2 w3 resp2 fm,
                          chat_completions_create
                            (final_request
                               (messages (snd (run environ_get self query w)))) w2
                          = (Return resp2, w3) /\
                          first_choice_message resp2 = Return fm /\
                          text = joined_texts (text_of msg) (text_of fm)))))).
  { intros e Hr Hno. rewrite Hr. exists []. cbn.
    split; [reflexivity | split; [exact Hseed | split; [reflexivity |
      split; [constructor | split]]]].
    - intros req [<- | []]. now left.
    - intros resp w1' msg Hc Hm. rewrite Hc in Hc1. injection Hc1 as <- <-.
      exfalso. exact (Hno resp msg eq_refl Hm). }
  destruct o1 as [resp | e1].
  2:{ apply (Hnone e1 Hrun). intros resp msg H. discriminate H. }
  destruct (first_choice_message resp) as [msg | e1] eqn:Hm.
  2:{ apply (Hnone e1 Hrun). intros resp0 msg H. injection H as <-.
      rewrite Hm. discriminate. }
  clear Hnone.
  destruct Hrun as (ol & sl & Hloop & Hrun).
  destruct (tool_loop_builds_transcript _ _ _ _ _ Hloop Hseed)
    as (done & Hms & Hg & Hret & Hfst & Hparse & Hlen).
  destruct (tool_loop_events _ _ _ _ _ Hloop) as (tevs & Ht & Hspec).
  destruct (tool_loop_locals _ _ _ _ _ Hloop) as [Hft _].
  destruct Hspec as (Hcr & _).
  cbn in Hms, Hret, Ht, Hft.
  assert (Hend :
            messages (snd (run environ_get self query w)) = messages sl /\
            snapshots (snd (run environ_get self query w)) = snapshots sl /\
            (trace (snd (run environ_get self query w)) = trace sl \/
             trace (snd (run environ_get self query w))
             = (trace sl ++ [CompletionCall (final_request (messages sl))])%list) /\
            (forall text,
               fst (run environ_get self query w) = Return text ->
               (exists u, ol = Return u) /\
               ((requested_tool_calls msg = [] /\ text = text_of msg) \/
                (requested_tool_calls msg <> [] /\
                 exists w2 w3 resp2 fm,
                   chat_completions_create (final_request (messages sl)) w2
                   = (Return resp2, w3) /\
                   first_choice_message resp2 = Return fm /\
                   text = joined_texts (text_of msg) (text_of fm))))).
  { destruct ol as [u | e2].
    2:{ rewrite Hrun.
        split; [reflexivity | split; [reflexivity | split; [now left |]]].
        intros text H. discriminate H. }
    destruct (requested_tool_calls msg) as [| tc rest] eqn:Hreq.
    { rewrite Hrun.
      split; [reflexivity | split; [reflexivity | split; [now left |]]].
      intros text H. cbn in H. injection H as <-.
      split; [now exists u | left; now split]. }
    destruct Hrun as (o3 & w3 & Hc3 & Hrun). cbv zeta in Hrun.
    destruct o3 as [resp2 | e3].
    2:{ rewrite Hrun.
        split; [reflexivity | split; [reflexivity | split; [now right |]]].
        intros text H. discriminate H. }
    destruct (first_choice_message resp2) as [fm | e3] eqn:Hfm.
    2:{ rewrite Hrun.
        split; [reflexivity | split; [reflexivity | split; [now right |]]].
        intros text H. discriminate H. }
    rewrite Hrun.
    split; [reflexivity | split; [reflexivity | split; [now right |]]].
    intros text H. cbn in H. injection H as <-.
    split; [now exists u |].
    right. split; [discriminate |].
    exists (world sl), w3, resp2, fm.
    split; [exact Hc3 | split; [exact Hfm |]].
    rewrite Hft. apply join_two_texts. }
  destruct Hend as (Hm' & Hs' & Ht' & Htext).
  exists done.
  split; [now rewrite Hm' | split; [| split; [| split; [exact Hparse | split]]]].
  - split; [rewrite Hm'; apply Hg | rewrite Hs', Hm'; apply Hg].
  - destruct Ht' as [-> | ->]; [exact Hret |].
    now rewrite returned_calls_then_completion.
  - intros req Hin. rewrite Hm'.
    destruct Ht' as [Ht' | Ht']; rewrite Ht', Ht in Hin.
    + simpl in Hin. rewrite Hcr in Hin. destruct Hin as [<- | []]. now left.
    + change ((CompletionCall req1 :: tevs)
                ++ [CompletionCall (final_request (messages sl))])%list
        with (CompletionCall req1
                :: (tevs ++ [CompletionCall (final_request (messages sl))]))%list
        in Hin.
      simpl in Hin. rewrite completion_requests_then_completion, Hcr in Hin.
      destruct Hin as [<- | [<- | []]]; [now left | now right].
  - intros resp0 w0 msg0 Hc0 Hm0.
    rewrite Hc0 in Hc1. injection Hc1 as <- <-.
    rewrite Hm in Hm0. injection Hm0 as <-.
    split; [exact Hfst |].
    intros text Htxt. destruct (Htext text Htxt) as [[u Hu] Hcase].
    split; [exact (Hlen u Hu) |]. rewrite Hm'. exact Hcase.
Qed.

Lemma exchanged_length (done : list (tool_call * JSON * CallToolResult Content)) :
  length (flat_map (exchange json_dumps str) done) = 2 * length done.
Proof.
  induction done as [| [[tc a] r] rest IH]; simpl; [reflexivity | lia].
Qed.

(** X1. The transcript of a run is the system message, the user
    message, and then, for each tool call that returned, in the order
    of execution, the echo of the call with its parsed arguments
    serialised again followed by the tool message with its result: two
    seed messages plus two per returned call.  The calls are the first
    requested ones, and the final completion call, when made, is given
    exactly this transcript. *)
Theorem transcript_is_seed_then_one_exchange_per_returned_call :
  forall environ_get self query w,
    session self <> None ->
    opt_str_truthy (environ_get "OPENAI_API_KEY") = true ->
    exists done : list (tool_call * JSON * CallToolResult Content),
      messages (snd (run environ_get self query w))
      = ([system_message; user_message query]
           ++ flat_map (exchange json_dumps str) done)%list /\
      map snd done = returned_calls (trace (snd (run environ_get self query w))) /\
      Forall (fun x => json_loads (fn_arguments (tc_function (fst (fst x))))
                       = Return (snd (fst x))) done /\
      length (messages (snd (run environ_get self query w)))
      = 2 + 2 * length (returned_calls (trace (snd (run environ_get self query w)))) /\
      (forall req,
         nth_error (completion_requests (trace (snd (run environ_get self query w)))) 1
         = Some req ->
         req_messages req = messages (snd (run environ_get self query w))) /\
      (forall resp w1 msg,
         chat_completions_create
           (first_request [system_message; user_message query]
                          (convert_tools (available_tools self))) w
         = (Return resp, w1) ->
         first_choice_message resp = Return msg ->
         map (fun x => fst (fst x)) done
         = firstn (length done) (requested_tool_calls msg)).
Proof.
  intros environ_get self query w Hs Hk.
  destruct (session self) as [sess |] eqn:Hsess; [| contradiction].
  destruct (run_anatomy environ_get self query w sess Hsess Hk)
    as (done & Hm & _ & Hret & Hparse & Hreqs & Hmsg).
  cbv zeta in Hm, Hret, Hreqs, Hmsg.
  exists done.
  split; [exact Hm | split; [now rewrite Hret | split; [exact Hparse |
    split; [| split]]]].
  - rewrite Hm, Hret, length_app, exchanged_length, length_map. reflexivity.
  - intros req Hnth.
    destruct (Hreqs req (nth_error_In _ _ Hnth)) as [-> | ->]; [| reflexivity].
    exfalso.
    destruct (run_trace_shape environ_get self query w)
      as [Ht | (tevs & fin & Ht & Hcr & Hfin)]; rewrite Ht in Hnth;
      [discriminate Hnth |].
    unfold completion_requests in Hnth. simpl in Hnth.
    rewrite flat_map_app in Hnth. fold (completion_requests tevs) in Hnth.
    rewrite Hcr in Hnth.
    destruct Hfin as [-> | (ms & ->)]; simpl in Hnth; discriminate Hnth.
  - intros resp w1 msg Hc Hmg. exact (proj1 (Hmsg resp w1 msg Hc Hmg)).
Qed.

(** X2. The transcript only grows, one message at a time: the value it
    had after its [i]-th update is the first [i + 2] messages of the
    transcript the run ends with.  No message is ever removed,
    replaced or reordered. *)
Theorem transcript_is_append_only :
  forall environ_get self query w i snap,
    nth_error (snapshots (snd (run environ_get self query w))) i = Some snap ->
    snap = firstn (i + 2) (messages (snd (run environ_get self query w))) /\
    i + 2 <= length (messages (snd (run environ_get self query w))).
Proof.
  intros environ_get self query w i snap Hnth.
  destruct (session self) as [sess |] eqn:Hs.
  2:{ rewrite run_unconnected in Hnth by exact Hs.
      destruct i; discriminate Hnth. }
  destruct (opt_str_truthy (environ_get "OPENAI_API_KEY")) eqn:Hk.
  2:{ rewrite (run_without_key environ_get self query w sess Hs Hk) in Hnth.
      destruct i; discriminate Hnth. }
  destruct (run_anatomy environ_get self query w sess Hs Hk)
    as (done & _ & [Hlen Hsn] & _).
  rewrite Hsn in Hnth. unfold growing_prefixes in Hnth.
  assert (Hi : i < length (messages (snd (run environ_get self query w))) - 1).
  { assert (H : nth_error
                  (map (fun k => firstn k (messages (snd (run environ_get self query w))))
                       (seq 2 (length (messages (snd (run environ_get self query w))) - 1)))
                  i <> None) by congruence.
    apply nth_error_Some in H. now rewrite length_map, length_seq in H. }
  rewrite nth_error_map in Hnth.
  destruct (nth_error (seq 2 (length (messages (snd (run environ_get self query w))) - 1)) i)
    as [k |] eqn:Hk'; [| discriminate Hnth].
  simpl in Hnth. injection Hnth as <-.
  assert (Hkv : k = 2 + i).
  { apply nth_error_nth with (d := 0) in Hk'. rewrite seq_nth in Hk' by exact Hi.
    now symmetry. }
  subst k. split; [| lia]. f_equal. lia.
Qed.

(** X3. What a successful run returns: the text of the first
    assistant message alone when that message requested no tool call;
    otherwise the texts of the first and of the final assistant message,
    the empty ones left out and a single newline between the two when
    both are there.  The result never starts or ends with the
    separator. *)
Theorem returned_text_joins_first_and_final_text :
  forall environ_get self query w resp w1 msg text,
    session self <> None ->
    opt_str_truthy (environ_get "OPENAI_API_KEY") = true ->
    chat_completions_create
      (first_request [system_message; user_message query]
                     (convert_tools (available_tools self))) w
    = (Return resp, w1) ->
    first_choice_message resp = Return msg ->
    fst (run environ_get self query w) = Return text ->
    (requested_tool_calls msg = [] /\ text = text_of msg) \/
    (requested_tool_calls msg <> [] /\
     exists w2 w3 resp2 fm,
       chat_completions_create
         (final_request (messages (snd (run environ_get self query w)))) w2
       = (Return resp2, w3) /\
       first_choice_message resp2 = Return fm /\
       text = joined_texts (text_of msg) (text_of fm) /\
       (text_of msg = EmptyString -> text = text_of fm) /\
       (text_of fm = EmptyString -> text = text_of msg) /\
       (text_of msg <> EmptyString -> text_of fm <> EmptyString ->
        text = text_of msg ++ newline ++ text_of fm)).
Proof.
  intros environ_get self query w resp w1 msg text Hs Hk Hc Hm Htext.
  destruct (session self) as [sess |] eqn:Hsess; [| contradiction].
  destruct (run_anatomy environ_get self query w sess Hsess Hk)
    as (done & _ & _ & _ & _ & _ & Hmsg).
  cbv zeta in Hmsg.
  destruct (Hmsg resp w1 msg Hc Hm) as [_ Hret].
  destruct (Hret text Htext) as [_ [Hno | (Hreq & w2 & w3 & resp2 & fm & Hc2 & Hfm & Hjoin)]];
    [now left | right].
  split; [exact Hreq |]. exists w2, w3, resp2, fm.
  split; [exact Hc2 | split; [exact Hfm | split; [exact Hjoin |]]].
  rewrite Hjoin. unfold joined_texts.
  destruct (text_of msg) as [| c1 t1], (text_of fm) as [| c2 t2];
    repeat split; try reflexivity; try discriminate; intros; congruence.
Qed.

(** X4. If the first completion call fails, or its response has no
    choice, [process_query] raises that failure (an [IndexError] for
    the empty list of choices) after exactly one remote call: no tool
    is executed, no second completion is asked for, and the transcript
    is still the two seed messages. *)
Theorem first_completion_failure_propagates :
  forall environ_get self query w o1 w1 e,
    session self <> None ->
    opt_str_truthy (environ_get "OPENAI_API_KEY") = true ->
    chat_completions_create
      (first_request [system_message; user_message query]
                     (convert_tools (available_tools self))) w
    = (o1, w1) ->
    o1 = Raise e \/
    (exists resp, o1 = Return resp /\ choices resp = [] /\
                  e = IndexError "list index out of range") ->
    fst (run environ_get self query w) = Raise e /\
    trace (snd (run environ_get self query w))
    = [CompletionCall
         (first_request [system_message; user_message query]
                        (convert_tools (available_tools self)))] /\
    messages (snd (run environ_get self query w))
    = [system_message; user_message query] /\
    world (snd (run environ_get self query w)) = w1.
Proof.
  intros environ_get self query w o1 w1 e Hs Hk Hc Hfail.
  destruct (session self) as [sess |] eqn:Hsess; [| contradiction].
  destruct (run_connected environ_get self query w sess Hsess Hk)
    as (o1' & w1' & Hc1 & Hrun).
  cbv zeta in Hrun. rewrite Hc in Hc1. injection Hc1 as <- <-.
  destruct Hfail as [-> | (resp & -> & Hch & ->)].
  - rewrite Hrun. repeat split.
  - unfold first_choice_message in Hrun. rewrite Hch in Hrun.
    rewrite Hrun. repeat split.
Qed.

Lemma Forall2_In_left {A B : Type} (R : A -> B -> Prop) l l' x :
  Forall2 R l l' -> In x l -> exists y, In y l' /\ R x y.
Proof.
  induction 1 as [| a b l l' Hab _ IH]; intros Hin; [contradiction |].
  destruct Hin as [<- | Hin].
  - exists b. split; [now left | exact Hab].
  - destruct (IH Hin) as (y & Hy & Hr). exists y. split; [now right | exact Hr].
Qed.

Lemma Forall2_In_right {A B : Type} (R : A -> B -> Prop) l l' y :
  Forall2 R l l' -> In y l' -> exists x, In x l /\ R x y.
Proof.
  induction 1 as [| a b l l' Hab _ IH]; intros Hin; [contradiction |].
  destruct Hin as [<- | Hin].
  - exists a. split; [now left | exact Hab].
  - destruct (IH Hin) as (x & Hx & Hr). exists x. split; [now right | exact Hr].
Qed.

Lemma In_firstn_In {A : Type} (x : A) n l : In x (firstn n l) -> In x l.
Proof.
  intros H. rewrite <- (firstn_skipn n l). apply in_or_app. now left.
Qed.

(** X5. Arguments that are not valid JSON stop the run.  If the
    arguments of any requested tool call do not parse, [process_query]
    raises and the final completion call is never made; and every tool
    call that was begun is a requested one, begun with the parsed value
    of its arguments. *)
Theorem unparsable_arguments_stop_the_run :
  forall environ_get self query w resp w1 msg tc e0,
    session self <> None ->
    opt_str_truthy (environ_get "OPENAI_API_KEY") = true ->
    chat_completions_create
      (first_request [system_message; user_message query]
                     (convert_tools (available_tools self))) w
    = (Return resp, w1) ->
    first_choice_message resp = Return msg ->
    In tc (requested_tool_calls msg) ->
    json_loads (fn_arguments (tc_function tc)) = Raise e0 ->
    (exists e, fst (run environ_get self query w) = Raise e) /\
    completion_requests (trace (snd (run environ_get self query w)))
    = [first_request [system_message; user_message query]
                     (convert_tools (available_tools self))] /\
    (forall n a,
       In (n, a) (started_calls (trace (snd (run environ_get self query w)))) ->
       exists tc', In tc' (requested_tool_calls msg) /\
                   n = fn_name (tc_function tc') /\
                   json_loads (fn_arguments (tc_function tc')) = Return a).
Proof.
  intros environ_get self query w resp w1 msg tc e0 Hs Hk Hc Hm Hin Hbad.
  destruct (run_summary_of_message environ_get self query w resp w1 msg
              Hs Hk Hc Hm) as (ol & tevs & Hspec & Hcase).
  cbv zeta in Hcase.
  destruct Hspec as (Hcr & _ & _ & Hlen & Hmatch & Hsum & Ho).
  assert (Hstarted :
            forall n a, In (n, a) (started_calls tevs) ->
              exists tc', In tc' (requested_tool_calls msg) /\
                          n = fn_name (tc_function tc') /\
                          json_loads (fn_arguments (tc_function tc')) = Return a).
  { intros n a Hna.
    destruct (Forall2_In_right _ _ _ _ Hmatch Hna) as (tc' & Htc' & Hn & Ha).
    exists tc'. split; [| split; [exact Hn | exact Ha]].
    eapply In_firstn_In; exact Htc'. }
  assert (Hraised : exists e, ol = Raise e).
  { destruct ol as [u | e]; [exfalso | now exists e].
    destruct Ho as [Hret Hf]. rewrite Hf in Hsum. simpl in Hsum.
    assert (Hall : length (started_calls tevs)
                   = length (requested_tool_calls msg)) by lia.
    rewrite Hall, firstn_all in Hmatch.
    destruct (Forall2_In_left _ _ _ _ Hmatch Hin) as (c & _ & _ & Hok).
    rewrite Hbad in Hok. discriminate Hok. }
  destruct Hraised as [e ->].
  destruct Hcase as [(e' & He' & Hres & Ht) | [(u & Hu & _) | (u & ms & Hu & _)]];
    [| discriminate Hu | discriminate Hu].
  rewrite Ht. simpl. rewrite Hcr.
  split; [now exists e' | split; [reflexivity | exact Hstarted]].
Qed.

(** ** The error flag of a tool result plays no part *)

Section Reflagged.

Variable flag : CallToolResult Content -> bool.

Local Abbreviation sim := (simulates (Schema:=Schema) (JSON:=JSON) (World:=World) flag).
Local Abbreviation call_tool' := (reflagged call_tool flag).

Lemma sim_bind {A B : Type} (m m' : M state A) (k k' : A -> M state B) :
  sim m m' -> (forall a, sim (k a) (k' a)) -> sim (bind m k) (bind m' k').
Proof.
  intros Hm Hk s. unfold bind. rewrite Hm.
  destruct (m s) as [[a | e] s1]; simpl; [apply Hk | reflexivity].
Qed.

Lemma sim_create req :
  sim (create chat_completions_create req) (create chat_completions_create req).
Proof.
  intros s. unfold create. cbn.
  destruct (chat_completions_create req (world s)) as [o w1]. cbn.
  unfold reflag_state. cbn. now rewrite map_app.
Qed.

Lemma sim_execute_tool_call sess tc :
  sim (body sess tc)
      (execute_tool_call (Schema:=Schema) call_tool' json_loads json_dumps str
                         sess tc).
Proof.
  intros s. unfold execute_tool_call, bind, lift, session_call_tool.
  destruct (json_loads (fn_arguments (tc_function tc))) as [a | e];
    [| reflexivity].
  cbn. unfold reflagged.
  destruct (call_tool sess (fn_name (tc_function tc)) a (world s))
    as [[r | e] w1]; cbn; unfold reflag_state; cbn;
    now rewrite !map_app.
Qed.

Lemma sim_for_each sess tcs :
  sim (for_each (body sess) tcs)
      (for_each (execute_tool_call (Schema:=Schema) call_tool' json_loads
                                   json_dumps str sess) tcs).
Proof.
  induction tcs as [| tc rest IH].
  - intros s. reflexivity.
  - cbn [for_each]. apply sim_bind; [apply sim_execute_tool_call |].
    intros _. exact IH.
Qed.

Lemma sim_final_completion :
  sim (final_completion chat_completions_create)
      (final_completion chat_completions_create).
Proof.
  unfold final_completion.
  apply sim_bind; [intros s; reflexivity |]. intros executed.
  destruct executed as [| r rs]; [intros s; reflexivity |].
  apply sim_bind; [intros s; reflexivity |]. intros ms.
  apply sim_bind; [apply sim_create |]. intros final_response.
  apply sim_bind; [intros s; reflexivity |]. intros final_message.
  intros s. reflexivity.
Qed.

Lemma sim_process_query environ_get self query :
  sim (process_query chat_completions_create call_tool json_loads json_dumps str
                     environ_get self query)
      (process_query chat_completions_create call_tool' json_loads json_dumps str
                     environ_get self query).
Proof.
  unfold process_query.
  destruct (session self) as [sess |]; [| intros s; reflexivity].
  destruct (negb (opt_str_truthy (environ_get "OPENAI_API_KEY")));
    [intros s; reflexivity |].
  apply sim_bind; [intros s; reflexivity |]. intros _.
  apply sim_bind; [intros s; reflexivity |]. intros ms.
  apply sim_bind; [apply sim_create |]. intros response.
  apply sim_bind; [intros s; reflexivity |]. intros msg.
  apply sim_bind; [intros s; reflexivity |]. intros _.
  apply sim_bind.
  - destruct (requested_tool_calls msg) as [| tc rest]; [intros s; reflexivity |].
    apply sim_bind; [apply sim_for_each |]. intros _.
    apply sim_final_completion.
  - intros _. apply sim_bind; [intros s; reflexivity |]. intros texts.
    intros s. reflexivity.
Qed.

Lemma completion_requests_reflagged (t : list event) :
  completion_requests (map (reflag_event flag) t) = completion_requests t.
Proof.
  induction t as [| [req | n a | [r | e]] t IH]; simpl; now rewrite ?IH.
Qed.

Lemma started_calls_reflagged (t : list event) :
  started_calls (map (reflag_event flag) t) = started_calls t.
Proof.
  induction t as [| [req | n a | [r | e]] t IH]; simpl; now rewrite ?IH.
Qed.

Lemma returned_calls_reflagged (t : list event) :
  map (@result_content Content) (returned_calls (map (reflag_event flag) t))
  = map (@result_content Content) (returned_calls t).
Proof.
  induction t as [| [req | n a | [r | e]] t IH]; simpl; now rewrite ?IH.
Qed.

(** X6. [process_query] never looks at the [isError] flag of a tool
    result.  Against a session that answers alike but flags its
    results differently, a run returns or raises the same, builds the
    same transcript, sends the same completion requests, begins the same
    tool calls, gets the same result contents and leaves the same
    world: a result flagged as an error is threaded into the final
    completion like any other. *)
Theorem error_flag_of_a_result_is_ignored :
  forall environ_get self query w,
    fst (run_process_query chat_completions_create call_tool' json_loads
           json_dumps str environ_get self query w)
    = fst (run environ_get self query w) /\
    messages (snd (run_process_query chat_completions_create call_tool' json_loads
                     json_dumps str environ_get self query w))
    = messages (snd (run environ_get self query w)) /\
    completion_requests
      (trace (snd (run_process_query chat_completions_create call_tool' json_loads
                     json_dumps str environ_get self query w)))
    = completion_requests (trace (snd (run environ_get self query w))) /\
    started_calls
      (trace (snd (run_process_query chat_completions_create call_tool' json_loads
                     json_dumps str environ_get self query w)))
    = started_calls (trace (snd (run environ_get self query w))) /\
    map (@result_content Content)
      (returned_calls
         (trace (snd (run_process_query chat_completions_create call_tool'
                        json_loads json_dumps str environ_get self query w))))
    = map (@result_content Content)
        (returned_calls (trace (snd (run environ_get self query w)))) /\
    world (snd (run_process_query chat_completions_create call_tool' json_loads
                  json_dumps str environ_get self query w))
    = world (snd (run environ_get self query w)).
Proof.
  intros environ_get self query w.
  unfold run_process_query at 1 3 5 7 9 11.
  change (initial w : state) with (reflag_state flag (initial w : state)).
  rewrite (sim_process_query environ_get self query (initial w)).
  cbn [fst snd]. unfold run_process_query. unfold reflag_state at 2 3 4. cbn [trace].
  rewrite completion_requests_reflagged, started_calls_reflagged,
          returned_calls_reflagged.
  repeat split.
Qed.

End Reflagged.

End ClientFacts.

(** * The facts at work on the concrete session and service *)

Lemma process_query_checks_preconditions_first_witness :
  fst (Fixture.run Fixture.with_key Fixture.unconnected "add 2 and 3")
  = Raise (RuntimeError "Not connected to server") /\
  fst (Fixture.run Fixture.without_key Fixture.connected "add 2 and 3")
  = Return Client.missing_key_text /\
  Client.trace (snd (Fixture.run Fixture.without_key Fixture.connected "add 2 and 3"))
  = [].
Proof.
  split; [| split].
  - apply (process_query_checks_preconditions_first
             _ _ _ _ _ Fixture.chat_completions_create Fixture.call_tool
             Fixture.json_loads Fixture.json_dumps Fixture.str
             Fixture.with_key Fixture.unconnected "add 2 and 3" 0).
    reflexivity.
  - apply (process_query_checks_preconditions_first
             _ _ _ _ _ Fixture.chat_completions_create Fixture.call_tool
             Fixture.json_loads Fixture.json_dumps Fixture.str
             Fixture.without_key Fixture.connected "add 2 and 3" 0).
    + discriminate.
    + reflexivity.
  - apply (process_query_checks_preconditions_first
             _ _ _ _ _ Fixture.chat_completions_create Fixture.call_tool
             Fixture.json_loads Fixture.json_dumps Fixture.str
             Fixture.without_key Fixture.connected "add 2 and 3" 0).
    right. reflexivity.
Defined.

Lemma no_tool_call_one_completion_text_verbatim_witness :
  fst (Fixture.run Fixture.with_key Fixture.connected "hello") = Return "Hello!" /\
  length (Client.completion_requests
            (Client.trace (snd (Fixture.run Fixture.with_key Fixture.connected "hello"))))
  = 1 /\
  Client.started_calls
    (Client.trace (snd (Fixture.run Fixture.with_key Fixture.connected "hello")))
  = [].
Proof.
  destruct (no_tool_call_one_completion_text_verbatim
              _ _ _ _ _ Fixture.chat_completions_create Fixture.call_tool
              Fixture.json_loads Fixture.json_dumps Fixture.str
              Fixture.with_key Fixture.connected "hello" 0 tt
              (Fixture.answer (Some "Hello!") None) 1
              {| Client.content := Some "Hello!"; Client.tool_calls := None |}
              eq_refl eq_refl eq_refl eq_refl eq_refl)
    as (H1 & _ & H3 & H4).
  exact (conj H1 (conj H3 H4)).
Defined.

Lemma one_tool_call_two_completions_four_messages_witness :
  length (Client.completion_requests
            (Client.trace
               (snd (Fixture.run Fixture.with_key Fixture.connected "add 2 and 3"))))
  = 2 /\
  length (Client.started_calls
            (Client.trace
               (snd (Fixture.run Fixture.with_key Fixture.connected "add 2 and 3"))))
  = 1.
Proof.
  destruct (one_tool_call_two_completions_four_messages
              _ _ _ _ _ Fixture.chat_completions_create Fixture.call_tool
              Fixture.json_loads Fixture.json_dumps Fixture.str
              Fixture.with_key Fixture.connected "add 2 and 3" 0 tt
              (Fixture.answer (Some "Let me calculate that.")
                              (Some [Fixture.add_call])) 1
              {| Client.content := Some "Let me calculate that.";
                 Client.tool_calls := Some [Fixture.add_call] |}
              Fixture.add_call Fixture.add_parsed
              {| Client.result_content := "5.0"; Client.isError := false |} 2
              eq_refl eq_refl eq_refl eq_refl eq_refl eq_refl eq_refl)
    as (_ & H2 & H3 & _).
  exact (conj H2 H3).
Defined.

(** C1 as stated fails.  The service answers the query with the
    single [calculate] call, whose arguments parse and whose execution
    returns; the second completion call then receives four messages,
    not five: system, user, assistant and tool, and the assistant
    message the service returned is not among them.  And for the query
    whose single tool call raises there is one completion call, not
    two. *)
Lemma second_transcript_has_four_messages :
  Fixture.chat_completions_create
    (Client.first_request
       [Client.system_message; Client.user_message "add 2 and 3"]
       (Client.convert_tools Fixture.tools)) 0
  = (Return (Fixture.answer (Some "Let me calculate that.")
               (Some [Fixture.add_call])), 1) /\
  Fixture.json_loads Fixture.add_arguments = Return Fixture.add_parsed /\
  Client.started_calls
    (Client.trace
       (snd (Fixture.run Fixture.with_key Fixture.connected "add 2 and 3")))
  = [("calculate", Fixture.add_parsed)] /\
  Client.returned_calls
    (Client.trace
       (snd (Fixture.run Fixture.with_key Fixture.connected "add 2 and 3")))
  = [{| Client.result_content := "5.0"; Client.isError := false |}] /\
  map (fun req => map Client.msg_role (Client.req_messages req))
      (Client.completion_requests
         (Client.trace
            (snd (Fixture.run Fixture.with_key Fixture.connected "add 2 and 3"))))
  = [[Client.system; Client.user];
     [Client.system; Client.user; Client.assistant; Client.tool]] /\
  ~ In (Client.returned_assistant_message
          {| Client.content := Some "Let me calculate that.";
             Client.tool_calls := Some [Fixture.add_call] |})
       (Client.messages
          (snd (Fixture.run Fixture.with_key Fixture.connected "add 2 and 3"))) /\
  length (Client.completion_requests
            (Client.trace
               (snd (Fixture.run Fixture.with_key Fixture.connected "ping"))))
  = 1.
Proof.
  split; [reflexivity | split; [reflexivity | split; [reflexivity |
    split; [reflexivity | split; [reflexivity | split; [| reflexivity]]]]]].
  vm_compute. intros [H | [H | [H | [H | []]]]]; discriminate H.
Qed.

(** C4 as stated fails.  The service requests [greet] and then the
    tool that loses the connection; the arguments of both parse,
    [greet] is executed and returns, the second call raises, and the
    final completion call is not made although a tool call was
    executed. *)
Lemma executed_call_without_final_completion :
  Fixture.json_loads Fixture.ada_arguments = Return Fixture.ada_parsed /\
  Fixture.json_loads "{}" = Return (Fixture.JObj []) /\
  Client.started_calls
    (Client.trace
       (snd (Fixture.run Fixture.with_key Fixture.connected
               "greet Ada, then ping")))
  = [("greet", Fixture.ada_parsed); ("flaky", Fixture.JObj [])] /\
  Client.returned_calls
    (Client.trace
       (snd (Fixture.run Fixture.with_key Fixture.connected
               "greet Ada, then ping")))
  = [{| Client.result_content := "Hello, Ada!"; Client.isError := false |}] /\
  length (Client.completion_requests
            (Client.trace
               (snd (Fixture.run Fixture.with_key Fixture.connected
                       "greet Ada, then ping"))))
  = 1 /\
  ~ (length (Client.completion_requests
               (Client.trace
                  (snd (Fixture.run Fixture.with_key Fixture.connected
                          "greet Ada, then ping"))))
     = 2 <->
     Client.started_calls
       (Client.trace
          (snd (Fixture.run Fixture.with_key Fixture.connected
                  "greet Ada, then ping")))
     <> []).
Proof.
  split; [reflexivity | split; [reflexivity | split; [reflexivity |
    split; [reflexivity | split; [reflexivity |]]]]].
  intros [_ H]. assert (H' : 1 = 2) by (apply H; discriminate).
  discriminate H'.
Qed.

(** C5 as stated fails.  The response requests two tool calls; the
    first one raises, the exception reaches the caller, and the second
    one is never executed: one execution, not two. *)
Lemma second_call_not_executed_after_failure :
  length (Client.requested_tool_calls
            {| Client.content := None;
               Client.tool_calls :=
                 Some [Fixture.ask "call_1" "flaky" "{}";
                       Fixture.ask "call_2" "greet" Fixture.ada_arguments] |})
  = 2 /\
  Fixture.chat_completions_create
    (Client.first_request
       [Client.system_message; Client.user_message "ping, then greet Ada"]
       (Client.convert_tools Fixture.tools)) 0
  = (Return (Fixture.answer None
               (Some [Fixture.ask "call_1" "flaky" "{}";
                      Fixture.ask "call_2" "greet" Fixture.ada_arguments])), 1) /\
  Client.started_calls
    (Client.trace
       (snd (Fixture.run Fixture.with_key Fixture.connected "ping, then greet Ada")))
  = [("flaky", Fixture.JObj [])] /\
  fst (Fixture.run Fixture.with_key Fixture.connected "ping, then greet Ada")
  = Raise (RemoteError "connection closed").
Proof.
  repeat split.
Qed.

Lemma final_completion_iff_every_requested_call_returned_witness :
  length (Client.completion_requests
            (Client.trace
               (snd (Fixture.run Fixture.with_key Fixture.connected "add 2 and 3"))))
  = 2 /\
  (forall req,
     nth_error
       (Client.completion_requests
          (Client.trace
             (snd (Fixture.run Fixture.with_key Fixture.connected "add 2 and 3"))))
       1 = Some req ->
     Client.req_tools req = None /\ Client.req_tool_choice req = None).
Proof.
  destruct (final_completion_iff_every_requested_call_returned
              _ _ _ _ _ Fixture.chat_completions_create Fixture.call_tool
              Fixture.json_loads Fixture.json_dumps Fixture.str
              Fixture.with_key Fixture.connected "add 2 and 3" 0)
    as (_ & Hfinal & _ & Hiff).
  split; [| exact Hfinal].
  apply (Hiff (Fixture.answer (Some "Let me calculate that.")
                              (Some [Fixture.add_call])) 1
              {| Client.content := Some "Let me calculate that.";
                 Client.tool_calls := Some [Fixture.add_call] |}).
  - discriminate.
  - reflexivity.
  - reflexivity.
  - reflexivity.
  - split; [discriminate | reflexivity].
Defined.

Lemma tool_calls_execute_in_order_until_first_failure_witness :
  Client.one_at_a_time
    (Client.tool_events
       (Client.trace
          (snd (Fixture.run Fixture.with_key Fixture.connected
                  "greet Ada, then ping"))))
  = true /\
  length (Client.failed_calls
            (Client.trace
               (snd (Fixture.run Fixture.with_key Fixture.connected
                       "greet Ada, then ping"))))
  <= 1.
Proof.
  destruct (tool_calls_execute_in_order_until_first_failure
              _ _ _ _ _ Fixture.chat_completions_create Fixture.call_tool
              Fixture.json_loads Fixture.json_dumps Fixture.str
              Fixture.with_key Fixture.connected "greet Ada, then ping" 0
              (Fixture.answer (Some "Working on it.")
                 (Some [Fixture.ask "call_1" "greet" Fixture.ada_arguments;
                        Fixture.ask "call_2" "flaky" "{}"])) 1
              {| Client.content := Some "Working on it.";
                 Client.tool_calls :=
                   Some [Fixture.ask "call_1" "greet" Fixture.ada_arguments;
                         Fixture.ask "call_2" "flaky" "{}"] |})
    as (H1 & _ & _ & _ & H5 & _).
  - discriminate.
  - reflexivity.
  - reflexivity.
  - reflexivity.
  - exact (conj H1 H5).
Defined.

(** C6 as stated fails.  The service requests a tool the session does
    not know; the session answers with a result that has [isError] set
    and the complaint as its content.  The tool call has failed, yet
    nothing is raised: the complaint goes into the transcript as a tool
    message, the final completion call is made, and the caller gets
    text. *)
Lemma failed_tool_call_reaches_final_completion :
  Fixture.chat_completions_create
    (Client.first_request
       [Client.system_message; Client.user_message "what is the weather"]
       (Client.convert_tools Fixture.tools)) 0
  = (Return (Fixture.answer None
               (Some [Fixture.ask "call_1" "weather" "{}"])), 1) /\
  Fixture.call_tool tt "weather" (Fixture.JObj []) 1
  = (Return {| Client.result_content := "Unknown tool: weather";
               Client.isError := true |}, 2) /\
  Client.returned_calls
    (Client.trace
       (snd (Fixture.run Fixture.with_key Fixture.connected
               "what is the weather")))
  = [{| Client.result_content := "Unknown tool: weather";
        Client.isError := true |}] /\
  Client.failed_calls
    (Client.trace
       (snd (Fixture.run Fixture.with_key Fixture.connected
               "what is the weather")))
  = [] /\
  length (Client.completion_requests
            (Client.trace
               (snd (Fixture.run Fixture.with_key Fixture.connected
                       "what is the weather"))))
  = 2 /\
  fst (Fixture.run Fixture.with_key Fixture.connected "what is the weather")
  = Return "The tool answered: Unknown tool: weather".
Proof.
  repeat split.
Qed.

Lemma tool_failure_propagates_without_final_completion_witness :
  fst (Fixture.run Fixture.with_key Fixture.connected "greet Ada, then ping")
  = Raise (RemoteError "connection closed") /\
  length (Client.completion_requests
            (Client.trace
               (snd (Fixture.run Fixture.with_key Fixture.connected
                       "greet Ada, then ping"))))
  = 1.
Proof.
  destruct (tool_failure_propagates_without_final_completion
              _ _ _ _ _ Fixture.chat_completions_create Fixture.call_tool
              Fixture.json_loads Fixture.json_dumps Fixture.str
              Fixture.with_key Fixture.connected "greet Ada, then ping" 0
              (RemoteError "connection closed"))
    as (H1 & _ & H3).
  - left. reflexivity.
  - split; [exact H1 |].
    exact (f_equal (@length _) H3).
Defined.

Lemma catalog_keeps_size_order_and_fields_witness :
  length (Client.convert_tools Fixture.tools) = 2 /\
  map (fun o => Client.spec_name (Client.ot_function o))
      (Client.convert_tools Fixture.tools)
  = ["greet"; "calculate"].
Proof.
  destruct (catalog_keeps_size_order_and_fields
              _ _ _ _ _ Fixture.chat_completions_create Fixture.call_tool
              Fixture.json_loads Fixture.json_dumps Fixture.str Fixture.tools)
    as (_ & H2 & _ & H4 & _).
  - repeat constructor; simpl; intuition discriminate.
  - exact (conj H2 H4).
Defined.

(** * Facts about the read-eval-print loops *)

Section ConsoleFacts.

Import Console.

Variable St : Type.
Variable print : string -> St -> St.
Variable exn_str : exn -> string.
Variable prompt : string.
Variable body : string -> St -> outcome bool * St.

(** The lines on which the body breaks, whatever the state. *)
Variable exits : string -> bool.
Hypothesis body_breaks :
  forall text s, fst (body text s) = Return true <-> exits text = true.

Local Abbreviation stops := (Console.stops exits).
Local Abbreviation repl := (loop print exn_str prompt body).

(** One turn of the loop, by what [input()] delivers. *)

Lemma loop_at_the_end_of_input fuel s :
  repl (S fuel) [] s
  = repl fuel []
      (print ("Error: " ++ exn_str (EOFError eof_text)) (print prompt s)).
Proof. reflexivity. Qed.

Lemma loop_on_an_interrupt fuel rest s :
  repl (S fuel) (Interrupt :: rest) s = Some (Return tt, print prompt s).
Proof. reflexivity. Qed.

Lemma loop_on_a_line fuel text rest s :
  repl (S fuel) (Line text :: rest) s
  = match body text (print prompt s) with
    | (Return true, s2) => Some (Return tt, s2)
    | (Return false, s2) => repl fuel rest s2
    | (Raise e, s2) =>
        if is_keyboard_interrupt e then Some (Return tt, s2)
        else if is_exception e
        then repl fuel rest (print ("Error: " ++ exn_str e) s2)
        else Some (Raise e, s2)
    end.
Proof.
  cbn [loop input].
  destruct (body text (print prompt s)) as [[[|] | e] s2]; reflexivity.
Qed.

Lemma loop_never_ends_at_the_end_of_input fuel s : repl fuel [] s = None.
Proof.
  revert s. induction fuel as [| fuel IH]; intros s; [reflexivity |].
  rewrite loop_at_the_end_of_input. apply IH.
Qed.

Lemma body_goes_on text s :
  fst (body text s) <> Return true -> exits text = false.
Proof.
  intros H. destruct (exits text) eqn:Hx; [| reflexivity].
  exfalso. apply H. now apply body_breaks.
Qed.

(** How the loop can end: at the first input that stops it, or at a
    line before that whose body raised what is no [Exception]. *)
Lemma loop_ends_cases fuel :
  forall inputs s o s',
    repl fuel inputs s = Some (o, s') ->
    exists pre ev rest,
      inputs = (pre ++ ev :: rest)%list /\
      Forall (fun ev => stops ev = false) pre /\
      ((stops ev = true /\ o = Return tt) \/
       (exists text s1 e,
          ev = Line text /\ exits text = false /\
          fst (body text s1) = Raise e /\
          is_exception e = false /\ o = left_with e)).
Proof.
  induction fuel as [| fuel IH]; intros inputs s o s' H; [discriminate H |].
  destruct inputs as [| [text |] rest].
  - rewrite loop_never_ends_at_the_end_of_input in H. discriminate H.
  - rewrite loop_on_a_line in H.
    destruct (body text (print prompt s)) as [[[|] | e] s2] eqn:Hb.
    + injection H as <- <-. exists [], (Line text), rest.
      split; [reflexivity | split; [constructor |]].
      left. split; [| reflexivity].
      apply (body_breaks text (print prompt s)). now rewrite Hb.
    + assert (Hx : exits text = false).
      { apply (body_goes_on text (print prompt s)). rewrite Hb. discriminate. }
      destruct (IH _ _ _ _ H) as (pre & ev & post & -> & Hpre & Hcase).
      exists (Line text :: pre), ev, post.
      split; [reflexivity | split; [now constructor | exact Hcase]].
    + assert (Hx : exits text = false).
      { apply (body_goes_on text (print prompt s)). rewrite Hb. discriminate. }
      destruct (is_keyboard_interrupt e) eqn:Hki.
      * injection H as <- <-. exists [], (Line text), rest.
        split; [reflexivity | split; [constructor |]].
        right. exists text, (print prompt s), e. rewrite Hb.
        unfold left_with. rewrite Hki.
        repeat split; try assumption.
        destruct e; try discriminate Hki; reflexivity.
      * destruct (is_exception e) eqn:Hex.
        -- destruct (IH _ _ _ _ H) as (pre & ev & post & -> & Hpre & Hcase).
           exists (Line text :: pre), ev, post.
           split; [reflexivity | split; [now constructor | exact Hcase]].
        -- injection H as <- <-. exists [], (Line text), rest.
           split; [reflexivity | split; [constructor |]].
           right. exists text, (print prompt s), e. rewrite Hb.
           unfold left_with. rewrite Hki. now repeat split.
  - rewrite loop_on_an_interrupt in H. injection H as <- <-.
    exists [], Interrupt, rest.
    split; [reflexivity | split; [constructor |]]. left. now split.
Qed.

Lemma first_stop_splits (inputs : list input_event) :
  Exists (fun ev => stops ev = true) inputs ->
  exists pre stop post,
    inputs = (pre ++ stop :: post)%list /\
    Forall (fun ev => stops ev = false) pre /\ stops stop = true.
Proof.
  induction inputs as [| ev rest IH]; intros Hex; [inversion Hex |].
  destruct (stops ev) eqn:Hev.
  - exists [], ev, rest. repeat split; [constructor | exact Hev].
  - inversion Hex as [? ? H | ? ? H]; subst; [congruence |].
    destruct (IH H) as (pre & stop & post & -> & Hpre & Hstop).
    exists (ev :: pre), stop, post. repeat split; [| exact Hstop].
    now constructor.
Qed.

(** ** A body that raises nothing but [Exception]s *)

Section Tame.

Hypothesis body_tame :
  forall text s e, fst (body text s) = Raise e -> is_exception e = true.

Lemma loop_ends_at_the_first_stop :
  forall pre stop post,
    Forall (fun ev => stops ev = false) pre ->
    stops stop = true ->
    forall s, exists s',
      repl (S (length pre)) (pre ++ stop :: post) s = Some (Return tt, s').
Proof.
  induction pre as [| ev pre IH]; intros stop post Hpre Hstop s.
  - destruct stop as [text |].
    + simpl in Hstop. cbn [app length]. rewrite loop_on_a_line.
      apply (body_breaks text (print prompt s)) in Hstop.
      destruct (body text (print prompt s)) as [[[|] | e] s2];
        try discriminate Hstop.
      now exists s2.
    + exists (print prompt s). reflexivity.
  - inversion Hpre as [| ? ? Hev Hrest]; subst.
    destruct ev as [text |]; [| discriminate Hev]. simpl in Hev.
    cbn [app length]. rewrite loop_on_a_line.
    destruct (body text (print prompt s)) as [[[|] | e] s2] eqn:Hb.
    + assert (H : exits text = true)
        by (apply (body_breaks text (print prompt s)); now rewrite Hb).
      rewrite H in Hev. discriminate Hev.
    + now apply IH.
    + assert (Hex : is_exception e = true)
        by (apply (body_tame text (print prompt s)); now rewrite Hb).
      rewrite Hex.
      destruct (is_keyboard_interrupt e) eqn:Hki;
        [destruct e; discriminate |].
      now apply IH.
Qed.

Lemma loop_ends_iff_a_stop_is_read (inputs : list input_event) s :
  (exists fuel, repl fuel inputs s <> None) <->
  Exists (fun ev => stops ev = true) inputs.
Proof.
  split.
  - intros [fuel Hfuel].
    destruct (repl fuel inputs s) as [[o s'] |] eqn:Hrun; [| contradiction].
    destruct (loop_ends_cases fuel inputs s o s' Hrun)
      as (pre & ev & rest & -> & _ & [[Hstop _] | (text & s1 & e & _ & _ & Hb & Hex & _)]).
    + apply Exists_app. right. now constructor.
    + rewrite (body_tame text s1 e Hb) in Hex. discriminate Hex.
  - intros Hex.
    destruct (first_stop_splits inputs Hex) as (pre & stop & post & -> & Hpre & Hstop).
    exists (S (length pre)).
    destruct (loop_ends_at_the_first_stop pre stop post Hpre Hstop s) as [s' ->].
    discriminate.
Qed.

End Tame.

End ConsoleFacts.

Section LLMFacts.

Import Client Console LLM.

Variables Schema JSON Content Session World : Type.
Variable chat_completions_create :
  request Schema -> World -> outcome completion * World.
Variable call_tool :
  Session -> string -> JSON -> World -> outcome (CallToolResult Content) * World.
Variable json_loads : string -> outcome JSON.
Variable json_dumps : JSON -> string.
Variable str : Content -> string.
Variable environ_get : string -> option string.
Variable strip : string -> string.
Variable lower : string -> string.
Variable exn_str : exn -> string.

Local Abbreviation run :=
  (run_process_query chat_completions_create call_tool json_loads json_dumps str
                     environ_get).
Local Abbreviation query_body :=
  (LLM.query_body chat_completions_create call_tool json_loads json_dumps str
                  environ_get strip lower).
Local Abbreviation interactive_mode :=
  (LLM.interactive_mode chat_completions_create call_tool json_loads json_dumps
                        str environ_get strip lower exn_str).
Local Abbreviation repl_state := (LLM.repl_state Schema JSON Content World).
Local Abbreviation collaborators_raise_exceptions_only :=
  (raise_exceptions_only chat_completions_create call_tool json_loads).

Lemma query_body_breaks self text (s : repl_state) :
  fst (query_body self text s) = Return true <-> exits strip lower text = true.
Proof.
  unfold LLM.query_body, exits.
  destruct (String.eqb (lower (strip text)) "exit").
  - split; reflexivity.
  - destruct (run self (strip text) (rworld s)) as [[response | e] st];
      simpl; split; discriminate.
Qed.

(** The body raises what [process_query] raises. *)
Lemma query_body_raises self text (s : repl_state) e :
  fst (query_body self text s) = Raise e ->
  fst (run self (strip text) (rworld s)) = Raise e.
Proof.
  unfold LLM.query_body.
  destruct (String.eqb (lower (strip text)) "exit"); [discriminate |].
  destruct (run self (strip text) (rworld s)) as [[response | e'] st];
    simpl; [discriminate | intros H; now injection H as <-].
Qed.

Lemma query_body_tame self :
  collaborators_raise_exceptions_only ->
  forall text (s : repl_state) e,
    fst (query_body self text s) = Raise e -> is_exception e = true.
Proof.
  intros Htame text s e H. apply query_body_raises in H.
  exact (run_raises_exceptions_only Schema JSON Content Session World
           chat_completions_create call_tool json_loads json_dumps str
           environ_get self (strip text) (rworld s) e Htame H).
Qed.

(** X7. How the interactive loop of the LLM client ends.  It ends
    normally at the first line that is [exit] once stripped and
    lowered and at the first Ctrl-C at the prompt; before that it ends
    only at a query during which [process_query] raised what is no
    [Exception]: normally when that is a [KeyboardInterrupt], and with
    the exception itself otherwise (a cancellation, a [SystemExit]).  An
    [Exception] out of a query never ends it.  So, when the
    collaborators raise nothing but [Exception]s, the loop ends exactly
    when it reads [exit] or an interrupt.  The end of the input never
    ends it: there the loop reports the [EOFError] and asks again, for
    ever. *)
Theorem llm_loop_ends_by_exit_interrupt_or_escaping_exception :
  forall self,
    (forall fuel inputs (s : repl_state) o s',
       interactive_mode self fuel inputs s = Some (o, s') ->
       exists pre ev rest,
         inputs = (pre ++ ev :: rest)%list /\
         Forall (fun ev => ends_loop strip lower ev = false) pre /\
         ((ends_loop strip lower ev = true /\ o = Return tt) \/
          (exists text w e,
             ev = Line text /\ exits strip lower text = false /\
             fst (run self (strip text) w) = Raise e /\
             is_exception e = false /\ o = left_with e))) /\
    (collaborators_raise_exceptions_only ->
     forall inputs (s : repl_state),
       (exists fuel, interactive_mode self fuel inputs s <> None) <->
       Exists (fun ev => ends_loop strip lower ev = true) inputs) /\
    (forall fuel (s : repl_state), interactive_mode self fuel [] s = None).
Proof.
  intros self. split; [| split].
  - intros fuel inputs s o s' H. unfold LLM.interactive_mode in H.
    destruct (loop_ends_cases _ _ _ _ _ (exits strip lower)
                (query_body_breaks self) fuel _ _ _ _ H)
      as (pre & ev & rest & Hin & Hpre & Hcase).
    exists pre, ev, rest. split; [exact Hin | split; [exact Hpre |]].
    destruct Hcase as [Hstop | (text & s1 & e & Hev & Hx & Hb & Hex & Ho)].
    + left. exact Hstop.
    + right. exists text, (rworld s1), e.
      split; [exact Hev | split; [exact Hx | split; [| now split]]].
      now apply query_body_raises.
  - intros Htame inputs s. unfold LLM.interactive_mode, ends_loop.
    apply loop_ends_iff_a_stop_is_read.
    + apply query_body_breaks.
    + apply query_body_tame. exact Htame.
  - intros fuel s. unfold LLM.interactive_mode.
    apply loop_never_ends_at_the_end_of_input.
Qed.

Lemma completion_requests_app (t1 t2 : list (event Schema JSON Content)) :
  completion_requests (t1 ++ t2)
  = (completion_requests t1 ++ completion_requests t2)%list.
Proof. unfold completion_requests. apply flat_map_app. Qed.

Lemma run_first_request self query w :
  session self <> None ->
  opt_str_truthy (environ_get "OPENAI_API_KEY") = true ->
  filter (@carries_tools Schema)
         (completion_requests (trace (snd (run self query w))))
  = [first_request [system_message; user_message query]
                   (convert_tools (available_tools self))].
Proof.
  intros Hs Hk.
  destruct (run_summary Schema JSON Content Session World chat_completions_create
              call_tool json_loads json_dumps str environ_get self query w)
    as [([H | H] & _) | (o1 & w1 & _ & _ & Hcase)];
    [contradiction | rewrite Hk in H; discriminate H |].
  destruct Hcase as [(Ht & _) | (resp & msg & ol & tevs & _ & _ & Hspec & Hcase)].
  { rewrite Ht. reflexivity. }
  destruct Hspec as (Hcr & _).
  destruct Hcase as [(e & _ & _ & Ht) | [(u & _ & _ & _ & Ht) | (u & ms & _ & _ & _ & Ht)]];
    rewrite Ht.
  - simpl. now rewrite Hcr.
  - simpl. now rewrite Hcr.
  - change (CompletionCall ?r :: (tevs ++ ?f))%list
      with ([CompletionCall r] ++ tevs ++ f)%list.
    rewrite !completion_requests_app, Hcr. reflexivity.
Qed.

(** The tool-carrying requests of a loop that has ended: one per query
    it processed, which are the first of the queries before the stop,
    and all of them unless a query let out what is no [Exception]. *)
Lemma loop_first_requests self :
  session self <> None ->
  opt_str_truthy (environ_get "OPENAI_API_KEY") = true ->
  forall fuel inputs (s : repl_state) o s',
    loop (@LLM.print Schema JSON Content World) exn_str query_prompt
         (query_body self) fuel inputs s = Some (o, s') ->
    exists n,
      filter (@carries_tools Schema) (completion_requests (calls s'))
      = (filter (@carries_tools Schema) (completion_requests (calls s))
         ++ map (fun q => first_request [system_message; user_message q]
                                        (convert_tools (available_tools self)))
                (firstn n (queries_before_end strip lower inputs)))%list /\
      (collaborators_raise_exceptions_only ->
       firstn n (queries_before_end strip lower inputs)
       = queries_before_end strip lower inputs).
Proof.
  intros Hs Hk.
  induction fuel as [| fuel IH]; intros inputs s o s' Hloop; [discriminate Hloop |].
  destruct inputs as [| [text |] rest].
  - rewrite loop_never_ends_at_the_end_of_input in Hloop. discriminate Hloop.
  - rewrite loop_on_a_line in Hloop.
    cbn [queries_before_end]. unfold ends_loop, stops.
    unfold LLM.query_body in Hloop. unfold exits.
    destruct (String.eqb (lower (strip text)) "exit").
    { injection Hloop as <- <-. exists 0. cbn. now rewrite app_nil_r. }
    pose proof (run_first_request self (strip text)
                  (rworld (LLM.print query_prompt s)) Hs Hk) as Hrun.
    pose proof (run_raises_exceptions_only Schema JSON Content Session World
                  chat_completions_create call_tool json_loads json_dumps str
                  environ_get self (strip text)
                  (rworld (LLM.print query_prompt s))) as Htame.
    destruct (run self (strip text) (rworld (LLM.print query_prompt s)))
      as [[response | e] st]; cbn [fst snd] in Hrun, Htame.
    + destruct (IH _ _ _ _ Hloop) as (n & Heq & Hall).
      exists (S n). cbn [firstn map]. split.
      * rewrite Heq. cbn [calls LLM.print].
        rewrite completion_requests_app, filter_app, Hrun, <- app_assoc.
        reflexivity.
      * intros Hc. now rewrite (Hall Hc).
    + destruct (is_keyboard_interrupt e) eqn:Hki.
      { injection Hloop as <- <-. exists 1. cbn [firstn map calls]. split.
        - rewrite completion_requests_app, filter_app, Hrun. reflexivity.
        - intros Hc. specialize (Htame e Hc eq_refl).
          destruct e; discriminate. }
      destruct (is_exception e) eqn:Hex.
      * destruct (IH _ _ _ _ Hloop) as (n & Heq & Hall).
        exists (S n). cbn [firstn map]. split.
        -- rewrite Heq. cbn [calls LLM.print].
           rewrite completion_requests_app, filter_app, Hrun, <- app_assoc.
           reflexivity.
        -- intros Hc. now rewrite (Hall Hc).
      * injection Hloop as <- <-. exists 1. cbn [firstn map calls]. split.
        -- rewrite completion_requests_app, filter_app, Hrun. reflexivity.
        -- intros Hc. specialize (Htame e Hc eq_refl). congruence.
  - rewrite loop_on_an_interrupt in Hloop. injection Hloop as <- <-.
    exists 0. cbn. now rewrite app_nil_r.
Qed.

(** X8. Queries do not build on each other.  With a connected client
    and a key, the completion requests that carry tool specs are, in
    order, one per query the loop processed, each with the transcript
    of exactly the system message and that query, and each with the
    same catalog: nothing of an earlier query or answer is sent along
    with a later one.  The queries processed are the first of the
    queries read before the loop's stop, and all of them when the
    collaborators raise nothing but [Exception]s. *)
Theorem each_query_starts_from_a_fresh_transcript :
  forall self fuel inputs (s : repl_state) o s',
    session self <> None ->
    opt_str_truthy (environ_get "OPENAI_API_KEY") = true ->
    interactive_mode self fuel inputs s = Some (o, s') ->
    exists n,
      filter (@carries_tools Schema) (completion_requests (calls s'))
      = (filter (@carries_tools Schema) (completion_requests (calls s))
         ++ map (fun q => first_request [system_message; user_message q]
                                        (convert_tools (available_tools self)))
                (firstn n (queries_before_end strip lower inputs)))%list /\
      (collaborators_raise_exceptions_only ->
       firstn n (queries_before_end strip lower inputs)
       = queries_before_end strip lower inputs).
Proof.
  intros self fuel inputs s o s' Hs Hk Hloop.
  unfold LLM.interactive_mode in Hloop.
  destruct (loop_first_requests self Hs Hk _ _ _ _ _ Hloop) as (n & Heq & Hall).
  exists n. split; [| exact Hall].
  rewrite Heq. reflexivity.
Qed.

End LLMFacts.

(** * Facts about the plain client *)

Section HTTPFacts.

Import Console HTTP.

Variables Content Session World : Type.
Variable call_tool :
  Session -> string -> args -> World
  -> outcome (Client.CallToolResult Content) * World.
Variable split : string -> list string.
Variable strip : string -> string.
Variable lower : string -> string.
Variable to_float : string -> option Server.float.
Variable show : Content -> string.
Variable exn_str : exn -> string.

Local Abbreviation console_state := (HTTP.console_state World).
Local Abbreviation dispatch :=
  (HTTP.dispatch call_tool split to_float show exn_str).
Local Abbreviation command_body :=
  (HTTP.command_body call_tool split strip lower to_float show exn_str).
Local Abbreviation interactive_mode :=
  (HTTP.interactive_mode call_tool split strip lower to_float show exn_str).

(** The dispatcher on a well-formed command. *)

Lemma dispatch_greet self command (s : console_state) x rest :
  split command = "greet" :: x :: rest ->
  dispatch self command s
  = bind (call_greet call_tool self (String.concat " " (x :: rest)))
         (fun result => print ("Result: " ++ show result)) s.
Proof.
  intros Hsplit. unfold HTTP.dispatch. rewrite Hsplit. reflexivity.
Qed.

Lemma dispatch_calc self command (s : console_state) op sa sb a b :
  split command = ["calc"; op; sa; sb] ->
  to_float sa = Some a -> to_float sb = Some b ->
  dispatch self command s
  = catch (bind (call_calculate call_tool self op a b)
                (fun result => print ("Result: " ++ show result)))
          (fun e => print ("Error: " ++ exn_str e)) s.
Proof.
  intros Hsplit Ha Hb. unfold HTTP.dispatch. rewrite Hsplit.
  cbn [String.eqb Ascii.eqb Bool.eqb length Nat.eqb negb nth].
  rewrite Ha, Hb. reflexivity.
Qed.

(** What a command does to the session, by its form. *)
Lemma dispatch_cases self command (s : console_state) :
  (exists x rest, split command = "greet" :: x :: rest) \/
  (exists op sa sb a b,
     split command = ["calc"; op; sa; sb] /\
     to_float sa = Some a /\ to_float sb = Some b) \/
  ((forall x rest, split command <> "greet" :: x :: rest) /\
   (forall op sa sb a b,
      split command = ["calc"; op; sa; sb] ->
      to_float sa = Some a -> to_float sb = Some b -> False) /\
   fst (dispatch self command s) = Return tt /\
   calls (snd (dispatch self command s)) = calls s /\
   world (snd (dispatch self command s)) = world s).
Proof.
  unfold HTTP.dispatch.
  destruct (split command) as [| cmd rest] eqn:Hsplit.
  { right. right. repeat split; discriminate. }
  destruct (String.eqb cmd "greet") eqn:Hgreet.
  { apply String.eqb_eq in Hgreet. subst cmd.
    destruct rest as [| x rest]; [| left; now exists x, rest].
    right. right. repeat split; discriminate. }
  destruct (String.eqb cmd "calc") eqn:Hcalc.
  2:{ right. right. repeat split.
      - intros x r H. injection H as -> _. discriminate Hgreet.
      - intros op sa sb a b H. injection H as -> _. discriminate Hcalc. }
  apply String.eqb_eq in Hcalc. subst cmd.
  destruct rest as [| op [| sa [| sb [| extra rest]]]];
    try (right; right; repeat split; discriminate).
  cbn [length Nat.eqb negb nth].
  destruct (to_float sa) as [a |] eqn:Ha.
  2:{ right. right. repeat split; try discriminate.
      intros op' sa' sb' a b H Ha' _. injection H as _ <- _. congruence. }
  destruct (to_float sb) as [b |] eqn:Hb.
  2:{ right. right. repeat split; try discriminate.
      intros op' sa' sb' a' b H _ Hb'. injection H as _ _ <-. congruence. }
  right. left. now exists op, sa, sb, a, b.
Qed.

(** X9. Exactly the well-formed commands of a connected client reach
    the session, each with one call.  [greet] followed by at least one
    word calls the tool [greet] with the words joined by single spaces
    as the name; [calc] followed by exactly three words of which the
    last two read as numbers calls the tool [calculate] with the
    operation and the two numbers; in both cases the world is left as
    that call left it.  Every other command, and every command of an
    unconnected client, makes no call and leaves the world as it
    was. *)
Theorem exactly_the_well_formed_commands_reach_the_session :
  forall self command (s : console_state),
    (forall sess x rest,
       session self = Some sess ->
       split command = "greet" :: x :: rest ->
       calls (snd (dispatch self command s))
       = (calls s ++ [("greet", [("name", Str (String.concat " " (x :: rest)))])])%list /\
       world (snd (dispatch self command s))
       = snd (call_tool sess "greet"
                [("name", Str (String.concat " " (x :: rest)))] (world s))) /\
    (forall sess op sa sb a b,
       session self = Some sess ->
       split command = ["calc"; op; sa; sb] ->
       to_float sa = Some a -> to_float sb = Some b ->
       calls (snd (dispatch self command s))
       = (calls s ++ [("calculate",
                       [("operation", Str op); ("a", Num a); ("b", Num b)])])%list /\
       world (snd (dispatch self command s))
       = snd (call_tool sess "calculate"
                [("operation", Str op); ("a", Num a); ("b", Num b)] (world s))) /\
    (session self = None \/
     ((forall x rest, split command <> "greet" :: x :: rest) /\
      (forall op sa sb,
         split command = ["calc"; op; sa; sb] ->
         to_float sa = None \/ to_float sb = None)) ->
     calls (snd (dispatch self command s)) = calls s /\
     world (snd (dispatch self command s)) = world s).
Proof.
  intros self command s. split; [| split].
  - intros sess x rest Hsess Hsplit.
    rewrite (dispatch_greet self command s x rest Hsplit).
    remember (String.concat " " (x :: rest)) as name eqn:Hname.
    unfold bind, call_greet. rewrite Hsess.
    unfold bind, session_call_tool.
    destruct (call_tool sess "greet" [("name", Str name)] (world s))
      as [[r | e] w1]; now split.
  - intros sess op sa sb a b Hsess Hsplit Ha Hb.
    rewrite (dispatch_calc self command s op sa sb a b Hsplit Ha Hb).
    unfold catch, bind, call_calculate. rewrite Hsess.
    unfold bind, session_call_tool.
    destruct (call_tool sess "calculate"
                [("operation", Str op); ("a", Num a); ("b", Num b)] (world s))
      as [[r | e] w1]; cbn; [now split |].
    destruct (is_exception e); now split.
  - intros Hno.
    destruct (dispatch_cases self command s)
      as [(x & rest & Hsplit)
         | [(op & sa & sb & a & b & Hsplit & Ha & Hb)
           | (_ & _ & _ & Hcalls & Hworld)]];
      [| | now split].
    + destruct Hno as [Hsess | [Hgreet _]]; [| now destruct (Hgreet x rest)].
      rewrite (dispatch_greet self command s x rest Hsplit).
      unfold bind, call_greet. rewrite Hsess. now split.
    + destruct Hno as [Hsess | [_ Hcalc]].
      * rewrite (dispatch_calc self command s op sa sb a b Hsplit Ha Hb).
        unfold catch, bind, call_calculate. rewrite Hsess. now split.
      * destruct (Hcalc op sa sb Hsplit); congruence.
Qed.

(** What the dispatcher lets out, and where it comes from. *)
Lemma dispatch_raise_cases self command (s : console_state) e :
  fst (dispatch self command s) = Raise e ->
  printed (snd (dispatch self command s)) = printed s /\
  ((exists x rest,
      split command = "greet" :: x :: rest /\
      (session self = None -> e = RuntimeError "Not connected to server") /\
      (forall sess,
         session self = Some sess ->
         fst (call_tool sess "greet"
                [("name", Str (String.concat " " (x :: rest)))] (world s))
         = Raise e)) \/
   (exists sess op sa sb a b,
      session self = Some sess /\
      split command = ["calc"; op; sa; sb] /\
      to_float sa = Some a /\ to_float sb = Some b /\
      fst (call_tool sess "calculate"
             [("operation", Str op); ("a", Num a); ("b", Num b)] (world s))
      = Raise e /\
      is_exception e = false)).
Proof.
  destruct (dispatch_cases self command s)
    as [(x & rest & Hsplit)
       | [(op & sa & sb & a & b & Hsplit & Ha & Hb)
         | (_ & _ & Hret & _)]].
  - rewrite (dispatch_greet self command s x rest Hsplit).
    remember (String.concat " " (x :: rest)) as name eqn:Hname.
    unfold bind, call_greet.
    destruct (session self) as [sess |] eqn:Hsess.
    + unfold bind, session_call_tool.
      destruct (call_tool sess "greet" [("name", Str name)] (world s))
        as [[r | e'] w1] eqn:Hcall; cbn [fst snd]; [discriminate |].
      intros H. injection H as <-. split; [reflexivity |].
      left. exists x, rest. rewrite <- Hname.
      split; [exact Hsplit | split; [discriminate |]].
      intros sess' H. injection H as <-. now rewrite Hcall.
    + cbn [fst snd raise]. intros H. injection H as <-. split; [reflexivity |].
      left. exists x, rest.
      split; [exact Hsplit | split; [reflexivity | discriminate]].
  - rewrite (dispatch_calc self command s op sa sb a b Hsplit Ha Hb).
    unfold catch, bind, call_calculate.
    destruct (session self) as [sess |] eqn:Hsess; [| discriminate].
    unfold bind, session_call_tool.
    destruct (call_tool sess "calculate"
                [("operation", Str op); ("a", Num a); ("b", Num b)] (world s))
      as [[r | e'] w1] eqn:Hcall; cbn; [discriminate |].
    destruct (is_exception e') eqn:Hex; cbn; [discriminate |].
    intros H. injection H as <-. split; [reflexivity |].
    right. exists sess, op, sa, sb, a, b. rewrite Hcall. now repeat split.
  - rewrite Hret. discriminate.
Qed.


Lemma command_body_breaks self text (s : console_state) :
  fst (command_body self text s) = Return true
  <-> HTTP.exits strip lower text = true.
Proof.
  unfold HTTP.command_body, HTTP.exits.
  destruct (String.eqb (lower (strip text)) "exit").
  - split; reflexivity.
  - destruct (dispatch self (strip text) s) as [[u | e] s1];
      simpl; split; discriminate.
Qed.

Lemma command_body_raises self text (s : console_state) e :
  fst (command_body self text s) = Raise e ->
  fst (dispatch self (strip text) s) = Raise e.
Proof.
  unfold HTTP.command_body.
  destruct (String.eqb (lower (strip text)) "exit"); [discriminate |].
  destruct (dispatch self (strip text) s) as [[u | e'] s1];
    simpl; [discriminate | intros H; now injection H as <-].
Qed.

Lemma command_body_tame self :
  (forall sess tool_name arguments w e,
     fst (call_tool sess tool_name arguments w) = Raise e ->
     is_exception e = true) ->
  forall text (s : console_state) e,
    fst (command_body self text s) = Raise e -> is_exception e = true.
Proof.
  intros Htame text s e H. apply command_body_raises in H.
  destruct (dispatch_raise_cases self (strip text) s e H)
    as [_ [(x & rest & _ & Hnone & Hsome)
          | (sess & op & sa & sb & a & b & _ & _ & _ & _ & Hcall & _)]].
  - destruct (session self) as [sess |] eqn:Hsess.
    + exact (Htame _ _ _ _ _ (Hsome sess eq_refl)).
    + now rewrite (Hnone eq_refl).
  - exact (Htame _ _ _ _ _ Hcall).
Qed.

(** X11. How the interactive loop of the plain client ends.  It ends
    normally at the first line that is [exit] once stripped and
    lowered and at the first Ctrl-C at the prompt; before that it ends
    only at a command that let out what is no [Exception]: normally
    when that is a [KeyboardInterrupt], and with the exception itself
    otherwise.  An [Exception] out of a command never ends it.  So, when
    the session raises nothing but [Exception]s, the loop ends exactly
    when it reads [exit] or an interrupt.  The end of the input never
    ends it. *)
Theorem plain_loop_ends_by_exit_interrupt_or_escaping_exception :
  forall self,
    (forall fuel inputs (s : console_state) o s',
       interactive_mode self fuel inputs s = Some (o, s') ->
       exists pre ev rest,
         inputs = (pre ++ ev :: rest)%list /\
         Forall (fun ev => stops (HTTP.exits strip lower) ev = false) pre /\
         ((stops (HTTP.exits strip lower) ev = true /\ o = Return tt) \/
          (exists text s1 e,
             ev = Line text /\ HTTP.exits strip lower text = false /\
             fst (dispatch self (strip text) s1) = Raise e /\
             is_exception e = false /\ o = left_with e))) /\
    ((forall sess tool_name arguments w e,
        fst (call_tool sess tool_name arguments w) = Raise e ->
        is_exception e = true) ->
     forall inputs (s : console_state),
       (exists fuel, interactive_mode self fuel inputs s <> None) <->
       Exists (fun ev => stops (HTTP.exits strip lower) ev = true) inputs) /\
    (forall fuel (s : console_state), interactive_mode self fuel [] s = None).
Proof.
  intros self. split; [| split].
  - intros fuel inputs s o s' H. unfold HTTP.interactive_mode in H.
    destruct (loop_ends_cases _ _ _ _ _ (HTTP.exits strip lower)
                (command_body_breaks self) fuel _ _ _ _ H)
      as (pre & ev & rest & Hin & Hpre & Hcase).
    exists pre, ev, rest. split; [exact Hin | split; [exact Hpre |]].
    destruct Hcase as [Hstop | (text & s1 & e & Hev & Hx & Hb & Hex & Ho)].
    + left. exact Hstop.
    + right. exists text, s1, e.
      split; [exact Hev | split; [exact Hx | split; [| now split]]].
      now apply command_body_raises.
  - intros Htame inputs s. unfold HTTP.interactive_mode.
    apply loop_ends_iff_a_stop_is_read.
    + apply command_body_breaks.
    + apply command_body_tame. exact Htame.
  - intros fuel s. unfold HTTP.interactive_mode.
    apply loop_never_ends_at_the_end_of_input.
Qed.

End HTTPFacts.

(** * Facts about connecting, cleaning up and [main] *)

Section LifecycleFacts.

Import Client Console LLM.

Variables Schema JSON Content Session World Transport Resource : Type.
Variable chat_completions_create :
  request Schema -> World -> outcome completion * World.
Variable call_tool :
  Session -> string -> JSON -> World -> outcome (CallToolResult Content) * World.
Variable json_loads : string -> outcome JSON.
Variable json_dumps : JSON -> string.
Variable str : Content -> string.
Variable environ_get : string -> option string.
Variable strip : string -> string.
Variable lower : string -> string.
Variable exn_str : exn -> string.
Variable sse_client : string -> World -> outcome Transport * World.
Variable client_session : Transport -> World -> outcome Session * World.
Variable initialize : Session -> World -> outcome unit * World.
Variable list_tools : Session -> World -> outcome (list (Tool Schema)) * World.
Variable list_resources : Session -> World -> outcome (list Resource) * World.
Variable aclose : World -> outcome unit * World.
Variable new_openai : option string -> outcome unit.

Local Abbreviation process_state := (LLM.process_state Schema JSON Content Session World).
Local Abbreviation connect_to_server :=
  (LLM.connect_to_server (JSON:=JSON) (Content:=Content)
     sse_client client_session initialize list_tools list_resources).
Local Abbreviation main :=
  (LLM.main chat_completions_create call_tool json_loads json_dumps str
            environ_get strip lower exn_str sse_client client_session
            initialize list_tools list_resources aclose new_openai).

Lemma connect_to_server_cases :
  forall server_url (s : process_state),
    calls (console (snd (connect_to_server server_url s))) = calls (console s) /\
    stdout (console (snd (connect_to_server server_url s))) = stdout (console s) /\
    ((exists e k,
        fst (connect_to_server server_url s) = Raise e /\
        1 <= k <= 5 /\
        steps (snd (connect_to_server server_url s))
        = (steps s ++ firstn k (connect_steps server_url))%list /\
        (k <= 2 -> client (snd (connect_to_server server_url s)) = client s) /\
        (3 <= k -> session (client (snd (connect_to_server server_url s))) <> None) /\
        (k <= 4 ->
         available_tools (client (snd (connect_to_server server_url s)))
         = available_tools (client s))) \/
     (exists tools resources sess w1 w2,
        fst (connect_to_server server_url s) = Return (tools, resources) /\
        steps (snd (connect_to_server server_url s))
        = (steps s ++ connect_steps server_url)%list /\
        client (snd (connect_to_server server_url s))
        = {| session := Some sess; available_tools := tools |} /\
        list_tools sess w1 = (Return tools, w2))).
Proof.
  intros server_url s.
  unfold LLM.connect_to_server, bind, remote, set_session, set_available_tools.
  destruct (sse_client server_url (rworld (console s))) as [[transport | e] w1].
  2:{ cbn. repeat split. left. exists e, 1. cbn.
      repeat split; auto; try lia. }
  cbn. destruct (client_session transport w1) as [[sess | e] w2].
  2:{ cbn. repeat split. left. exists e, 2. cbn.
      rewrite <- app_assoc. repeat split; auto; try lia. }
  cbn. destruct (initialize sess w2) as [[u | e] w3].
  2:{ cbn. repeat split. left. exists e, 3. cbn.
      rewrite <- !app_assoc. repeat split; auto; try lia; discriminate. }
  cbn. destruct (list_tools sess w3) as [[tools | e] w4] eqn:Htools.
  2:{ cbn. repeat split. left. exists e, 4. cbn.
      rewrite <- !app_assoc. repeat split; auto; try lia; discriminate. }
  cbn. destruct (list_resources sess w4) as [[resources | e] w5].
  2:{ cbn. repeat split. left. exists e, 5. cbn.
      rewrite <- !app_assoc. repeat split; auto; try lia; discriminate. }
  cbn. repeat split. right. exists tools, resources, sess, w3, w4. cbn.
  rewrite <- !app_assoc. repeat split; auto.
Qed.

(** X12. [connect_to_server] takes its five remote steps in order,
    each in the world the step before left, and stops at the first that
    raises: it then raises the same exception, and no later step is
    attempted.  The session is stored as soon as it is opened, before
    [initialize], so that a failure of [initialize] or of a listing
    leaves the client with that session; the tools are stored when
    their listing has returned, so that a failure of the listing of
    the resources leaves the client with the new tools.  When all five
    return, the method returns the tools and the resources listed.
    Nothing is printed and no tool or completion call is made. *)
Theorem connect_stops_at_the_first_failed_step :
  forall server_url (s : process_state),
    let r := connect_to_server server_url s in
    let attempted k := (steps s ++ firstn k (connect_steps server_url))%list in
    let holding sess tools := {| session := Some sess; available_tools := tools |} in
    calls (console (snd r)) = calls (console s) /\
    stdout (console (snd r)) = stdout (console s) /\
    match sse_client server_url (rworld (console s)) with
    | (Raise e, w1) =>
        fst r = Raise e /\ steps (snd r) = attempted 1 /\
        client (snd r) = client s /\ rworld (console (snd r)) = w1
    | (Return transport, w1) =>
        match client_session transport w1 with
        | (Raise e, w2) =>
            fst r = Raise e /\ steps (snd r) = attempted 2 /\
            client (snd r) = client s /\ rworld (console (snd r)) = w2
        | (Return sess, w2) =>
            match initialize sess w2 with
            | (Raise e, w3) =>
                fst r = Raise e /\ steps (snd r) = attempted 3 /\
                client (snd r) = holding sess (available_tools (client s)) /\
                rworld (console (snd r)) = w3
            | (Return _, w3) =>
                match list_tools sess w3 with
                | (Raise e, w4) =>
                    fst r = Raise e /\ steps (snd r) = attempted 4 /\
                    client (snd r) = holding sess (available_tools (client s)) /\
                    rworld (console (snd r)) = w4
                | (Return tools, w4) =>
                    match list_resources sess w4 with
                    | (Raise e, w5) =>
                        fst r = Raise e /\ steps (snd r) = attempted 5 /\
                        client (snd r) = holding sess tools /\
                        rworld (console (snd r)) = w5
                    | (Return resources, w5) =>
                        fst r = Return (tools, resources) /\
                        steps (snd r) = attempted 5 /\
                        client (snd r) = holding sess tools /\
                        rworld (console (snd r)) = w5
                    end
                end
            end
        end
    end.
Proof.
  intros server_url s r attempted holding. subst r attempted holding.
  destruct (connect_to_server_cases server_url s) as (Hcalls & Hout & _).
  split; [exact Hcalls | split; [exact Hout |]].
  unfold LLM.connect_to_server, bind, remote, set_session, set_available_tools.
  destruct (sse_client server_url (rworld (console s))) as [[transport | e] w1];
    [| cbn; now repeat split].
  cbn. destruct (client_session transport w1) as [[sess | e] w2];
    [| cbn; rewrite <- app_assoc; now repeat split].
  cbn. destruct (initialize sess w2) as [[u | e] w3];
    [| cbn; rewrite <- !app_assoc; now repeat split].
  cbn. destruct (list_tools sess w3) as [[tools | e] w4];
    [| cbn; rewrite <- !app_assoc; now repeat split].
  cbn. destruct (list_resources sess w4) as [[resources | e] w5];
    cbn; rewrite <- !app_assoc; now repeat split.
Qed.

(** How [main] can end: the client could not be built; the connection
    failed at one of its five steps; or the connection was complete and
    the interactive loop ran to its end.  Cleanup follows in the last
    two cases. *)
Lemma main_cases argv fuel inputs w o (s : process_state) :
  main argv fuel inputs w = Some (o, s) ->
  let notice := if Nat.ltb (length argv) 2
                then [("No server URL provided, using default: " ++ default_url)%string]
                else [] in
  (exists e,
     new_openai (environ_get "OPENAI_API_KEY") = Raise e /\ o = Raise e /\
     steps s = [] /\ calls (console s) = [] /\ stdout (console s) = notice) \/
  (exists e k,
     o = Raise e /\ 1 <= k <= 5 /\
     steps s = (firstn k (connect_steps (server_url_of argv)) ++ [Close])%list /\
     calls (console s) = [] /\ stdout (console s) = notice) \/
  (exists sess tools w1 w2 c0 oi c,
     steps s = (connect_steps (server_url_of argv) ++ [Close])%list /\
     client s = {| session := Some sess; available_tools := tools |} /\
     list_tools sess w1 = (Return tools, w2) /\
     calls c0 = [] /\ stdout c0 = notice /\
     LLM.interactive_mode chat_completions_create call_tool json_loads
       json_dumps str environ_get strip lower exn_str (client s) fuel inputs c0
     = Some (oi, c) /\
     calls (console s) = calls c /\ stdout (console s) = stdout c).
Proof.
  intros Hmain notice. unfold LLM.main in Hmain.
  set (s1 := if Nat.ltb (length argv) 2 then say _ _ else _) in Hmain.
  assert (Hs1 : steps s1 = [] /\ calls (console s1) = [] /\
                stdout (console s1) = notice).
  { subst s1 notice. destruct (Nat.ltb (length argv) 2); now repeat split. }
  destruct Hs1 as (Hsteps1 & Hcalls1 & Hout1).
  destruct (new_openai (environ_get "OPENAI_API_KEY")) as [u | e].
  2:{ injection Hmain as <- <-. left. exists e. now repeat split. }
  destruct (connect_to_server_cases (server_url_of argv) s1)
    as (Hcalls & Hout & Hcase).
  destruct (connect_to_server (server_url_of argv) s1) as [oc s2].
  cbn [fst snd] in Hcalls, Hout, Hcase.
  rewrite Hsteps1 in Hcase. cbn [app] in Hcase.
  destruct Hcase as [(e & k & -> & Hk & Hsteps & _)
                    | (tools & resources & sess & w1 & w2 & -> & Hsteps & Hclient & Htools)].
  - right. left.
    unfold finally_cleanup, cleanup, remote in Hmain.
    destruct (aclose (rworld (console s2))) as [[u' | e'] w'];
      injection Hmain as <- <-; cbn;
      [exists e, k | exists e', k];
      rewrite Hsteps, Hcalls, Hout, Hcalls1, Hout1; now repeat split.
  - right. right.
    destruct (LLM.interactive_mode chat_completions_create call_tool json_loads
                json_dumps str environ_get strip lower exn_str (client s2) fuel
                inputs (console s2)) as [[oi c] |] eqn:Hloop; [| discriminate Hmain].
    unfold finally_cleanup, cleanup, remote in Hmain. cbn in Hmain.
    exists sess, tools, w1, w2, (console s2), oi, c.
    destruct (aclose (rworld c)) as [[u' | e'] w'];
      injection Hmain as <- <-; cbn;
      rewrite Hsteps, Hcalls, Hout, Hcalls1, Hout1;
      (split; [reflexivity | split; [exact Hclient | split; [exact Htools |
         split; [reflexivity | split; [reflexivity | split; [exact Hloop |
           split; reflexivity]]]]]]).
Qed.



(** X14. No query without a complete connection.  If [main] ends
    without having taken all five connection steps, then it raises, the
    prompt was never printed and no completion or tool call was made:
    the interactive loop is entered only after the session was opened,
    initialised and both listings were fetched. *)
Theorem no_query_without_a_complete_connection :
  forall argv fuel inputs w o (s : process_state),
    main argv fuel inputs w = Some (o, s) ->
    steps s <> (connect_steps (server_url_of argv) ++ [Close])%list ->
    (exists e, o = Raise e) /\
    calls (console s) = [] /\
    ~ In query_prompt (stdout (console s)).
Proof.
  intros argv fuel inputs w o s Hmain Hsteps.
  assert (Hnotice :
            ~ In query_prompt
                (if Nat.ltb (length argv) 2
                 then [("No server URL provided, using default: " ++ default_url)%string]
                 else [])).
  { destruct (Nat.ltb (length argv) 2); [| intros []].
    intros [H | []]. discriminate H. }
  destruct (main_cases argv fuel inputs w o s Hmain)
    as [(e & _ & Ho & _ & Hcalls & Hout)
       | [(e & k & Ho & _ & _ & Hcalls & Hout)
         | (sess & tools & w1 & w2 & c0 & oi & c & Hs & _)]].
  - rewrite Hout. split; [now exists e | now split].
  - rewrite Hout. split; [now exists e | now split].
  - contradiction.
Qed.

(** X15. The tools listed once at connection time are what every query
    offers to the model.  In a run of [main] with a key, each
    completion request that carries tool specs is the first request of
    one of the queries read before the loop ended, with the two seed
    messages of that query and with the catalog of exactly the tools
    the session's listing returned. *)
Theorem every_query_offers_the_listed_tools :
  forall argv fuel inputs w o (s : process_state) req,
    main argv fuel inputs w = Some (o, s) ->
    opt_str_truthy (environ_get "OPENAI_API_KEY") = true ->
    In req (completion_requests (calls (console s))) ->
    carries_tools req = true ->
    exists sess w1 w2 tools q,
      list_tools sess w1 = (Return tools, w2) /\
      available_tools (client s) = tools /\
      In q (queries_before_end strip lower inputs) /\
      req = first_request [system_message; user_message q] (convert_tools tools).
Proof.
  intros argv fuel inputs w o s req Hmain Hk Hin Htools.
  destruct (main_cases argv fuel inputs w o s Hmain)
    as [(e & _ & _ & _ & Hcalls & _)
       | [(e & k & _ & _ & _ & Hcalls & _)
         | (sess & tools & w1 & w2 & c0 & oi & c & _ & Hclient & Hlist & Hc0 & _ & Hloop & Hcalls & _)]].
  - rewrite Hcalls in Hin. contradiction.
  - rewrite Hcalls in Hin. contradiction.
  - unfold LLM.interactive_mode in Hloop.
    assert (Hs : session (client s) <> None) by (rewrite Hclient; discriminate).
    destruct (loop_first_requests Schema JSON Content Session World
                chat_completions_create call_tool json_loads json_dumps str
                environ_get strip lower exn_str (client s) Hs Hk
                _ _ _ _ _ Hloop) as (n & Hreqs & _).
    cbn [calls LLM.print] in Hreqs. rewrite Hc0 in Hreqs. cbn [completion_requests flat_map filter app] in Hreqs.
    assert (Hmem : In req (filter (@carries_tools Schema)
                             (completion_requests (calls c)))).
    { apply filter_In. split; [now rewrite <- Hcalls | exact Htools]. }
    rewrite Hreqs in Hmem. apply in_map_iff in Hmem.
    destruct Hmem as (q & <- & Hq). apply In_firstn_In in Hq.
    exists sess, w1, w2, tools, q. rewrite Hclient. now repeat split.
Qed.

End LifecycleFacts.

(** * The further facts at work on the concrete setting *)

Lemma transcript_is_seed_then_one_exchange_per_returned_call_witness :
  exists done,
    Client.messages (snd (Fixture.run Fixture.with_key Fixture.connected "add 2 and 3"))
    = ([Client.system_message; Client.user_message "add 2 and 3"]
         ++ flat_map (Client.exchange Fixture.json_dumps Fixture.str) done)%list /\
    length done = 1.
Proof.
  destruct (transcript_is_seed_then_one_exchange_per_returned_call
              _ _ _ _ _ Fixture.chat_completions_create Fixture.call_tool
              Fixture.json_loads Fixture.json_dumps Fixture.str
              Fixture.with_key Fixture.connected "add 2 and 3" 0)
    as (done & Hm & Hret & _).
  - discriminate.
  - reflexivity.
  - exists done. split; [exact Hm |].
    rewrite <- (length_map snd done), Hret. reflexivity.
Defined.

Lemma transcript_is_append_only_witness :
  1 + 2
  <= length (Client.messages
               (snd (Fixture.run Fixture.with_key Fixture.connected "add 2 and 3"))).
Proof.
  refine (proj2 (transcript_is_append_only
                   _ _ _ _ _ Fixture.chat_completions_create Fixture.call_tool
                   Fixture.json_loads Fixture.json_dumps Fixture.str
                   Fixture.with_key Fixture.connected "add 2 and 3" 0 1
                   [Client.system_message; Client.user_message "add 2 and 3";
                    Client.echo_message Fixture.json_dumps Fixture.add_call
                      "calculate" Fixture.add_parsed]
                   _)).
  vm_compute. reflexivity.
Defined.

Lemma returned_text_joins_first_and_final_text_witness :
  exists fm,
    "Let me calculate that." ++ newline ++ "The tool answered: 5.0"
    = Client.joined_texts "Let me calculate that." (Client.text_of fm).
Proof.
  destruct (returned_text_joins_first_and_final_text
              _ _ _ _ _ Fixture.chat_completions_create Fixture.call_tool
              Fixture.json_loads Fixture.json_dumps Fixture.str
              Fixture.with_key Fixture.connected "add 2 and 3" 0
              (Fixture.answer (Some "Let me calculate that.")
                              (Some [Fixture.add_call])) 1
              {| Client.content := Some "Let me calculate that.";
                 Client.tool_calls := Some [Fixture.add_call] |}
              ("Let me calculate that." ++ newline ++ "The tool answered: 5.0"))
    as [[Hno _] | (_ & w2 & w3 & resp2 & fm & _ & _ & Hjoin & _)].
  - discriminate.
  - reflexivity.
  - reflexivity.
  - reflexivity.
  - reflexivity.
  - discriminate Hno.
  - exists fm. exact Hjoin.
Defined.

Lemma first_completion_failure_propagates_witness :
  fst (Client.run_process_query Scenario.service_down Fixture.call_tool
         Fixture.json_loads Fixture.json_dumps Fixture.str
         Fixture.with_key Fixture.connected "add 2 and 3" 0)
  = Raise (RemoteError "service unavailable").
Proof.
  apply (first_completion_failure_propagates
           _ _ _ _ _ Scenario.service_down Fixture.call_tool
           Fixture.json_loads Fixture.json_dumps Fixture.str
           Fixture.with_key Fixture.connected "add 2 and 3" 0
           (Raise (RemoteError "service unavailable")) 1
           (RemoteError "service unavailable")).
  - discriminate.
  - reflexivity.
  - reflexivity.
  - left. reflexivity.
Defined.

Lemma unparsable_arguments_stop_the_run_witness :
  Client.completion_requests
    (Client.trace
       (snd (Client.run_process_query Scenario.service_garbling Fixture.call_tool
               Fixture.json_loads Fixture.json_dumps Fixture.str
               Fixture.with_key Fixture.connected "greet Ada" 0)))
  = [Client.first_request [Client.system_message; Client.user_message "greet Ada"]
       (Client.convert_tools Fixture.tools)].
Proof.
  apply (unparsable_arguments_stop_the_run
           _ _ _ _ _ Scenario.service_garbling Fixture.call_tool
           Fixture.json_loads Fixture.json_dumps Fixture.str
           Fixture.with_key Fixture.connected "greet Ada" 0
           (Fixture.answer None (Some [Scenario.garbled_call])) 1
           {| Client.content := None;
              Client.tool_calls := Some [Scenario.garbled_call] |}
           Scenario.garbled_call (JSONDecodeError "{")).
  - discriminate.
  - reflexivity.
  - reflexivity.
  - reflexivity.
  - left. reflexivity.
  - reflexivity.
Defined.

Lemma concrete_collaborators_raise_exceptions_only :
  Client.raise_exceptions_only Fixture.chat_completions_create
    Fixture.call_tool Fixture.json_loads.
Proof.
  split; [| split].
  - intros req w e. unfold Fixture.chat_completions_create.
    destruct (Client.req_tools req); [| discriminate].
    repeat match goal with
           | |- context [if ?b then _ else _] => destruct b
           end; discriminate.
  - intros sess tool_name tool_args w e. unfold Fixture.call_tool.
    repeat match goal with
           | |- context [if ?b then _ else _] => destruct b
           end; try discriminate.
    intros H. now injection H as <-.
  - intros doc e. unfold Fixture.json_loads.
    destruct (Fixture.value _ _) as [[v rest] |];
      [destruct (Fixture.skip_spaces rest) |];
      try discriminate; intros H; now injection H as <-.
Qed.

Lemma each_query_starts_from_a_fresh_transcript_witness :
  exists o s',
    Scenario.interactive_mode 5 [Console.Line "hello"; Console.Line "exit"]
    = Some (o, s') /\
    filter (@LLM.carries_tools Fixture.json)
           (Client.completion_requests (LLM.calls s'))
    = [Client.first_request [Client.system_message; Client.user_message "hello"]
         (Client.convert_tools Fixture.tools)].
Proof.
  assert (H : exists o s',
            Scenario.interactive_mode 5 [Console.Line "hello"; Console.Line "exit"]
            = Some (o, s')) by (vm_compute; eexists _, _; reflexivity).
  destruct H as (o & s' & H). exists o, s'. split; [exact H |].
  destruct (each_query_starts_from_a_fresh_transcript
              _ _ _ _ _ Fixture.chat_completions_create Fixture.call_tool
              Fixture.json_loads Fixture.json_dumps Fixture.str Fixture.with_key
              Scenario.strip Scenario.lower Scenario.exn_str
              Fixture.connected 5 [Console.Line "hello"; Console.Line "exit"]
              Scenario.repl_start o s')
    as (n & Heq & Hall).
  - discriminate.
  - reflexivity.
  - exact H.
  - rewrite Heq, (Hall concrete_collaborators_raise_exceptions_only).
    reflexivity.
Defined.


Lemma no_query_without_a_complete_connection_witness :
  exists o s,
    Scenario.main ["client.py"; "http://down:8000/sse"] 5 [Console.Line "hello"]
    = Some (o, s) /\
    (exists e, o = Raise e) /\
    LLM.calls (LLM.console s) = [] /\
    ~ In LLM.query_prompt (LLM.stdout (LLM.console s)).
Proof.
  eexists _, _. split.
  - vm_compute. reflexivity.
  - refine (no_query_without_a_complete_connection
              _ _ _ _ _ _ _ Fixture.chat_completions_create Fixture.call_tool
              Fixture.json_loads Fixture.json_dumps Fixture.str Fixture.with_key
              Scenario.strip Scenario.lower Scenario.exn_str
              Scenario.sse_client Scenario.client_session Scenario.initialize
              Scenario.list_tools Scenario.list_resources Scenario.aclose
              Scenario.new_openai
              ["client.py"; "http://down:8000/sse"] 5 [Console.Line "hello"] 0
              _ _ _ _).
    + vm_compute. reflexivity.
    + vm_compute. discriminate.
Defined.

Lemma every_query_offers_the_listed_tools_witness :
  exists o s,
    Scenario.main ["client.py"] 5 [Console.Line "hello"; Console.Line "exit"]
    = Some (o, s) /\
    exists sess w1 w2 tools q,
      Scenario.list_tools sess w1 = (Return tools, w2) /\
      Client.available_tools (LLM.client s) = tools /\
      In q (LLM.queries_before_end Scenario.strip Scenario.lower
              [Console.Line "hello"; Console.Line "exit"]) /\
      Client.first_request [Client.system_message; Client.user_message "hello"]
        (Client.convert_tools Fixture.tools)
      = Client.first_request [Client.system_message; Client.user_message q]
          (Client.convert_tools tools).
Proof.
  eexists _, _. split.
  - vm_compute. reflexivity.
  - refine (every_query_offers_the_listed_tools
              _ _ _ _ _ _ _ Fixture.chat_completions_create Fixture.call_tool
              Fixture.json_loads Fixture.json_dumps Fixture.str Fixture.with_key
              Scenario.strip Scenario.lower Scenario.exn_str
              Scenario.sse_client Scenario.client_session Scenario.initialize
              Scenario.list_tools Scenario.list_resources Scenario.aclose
              Scenario.new_openai
              ["client.py"] 5 [Console.Line "hello"; Console.Line "exit"] 0
              _ _
              (Client.first_request
                 [Client.system_message; Client.user_message "hello"]
                 (Client.convert_tools Fixture.tools))
              _ _ _ _).
    + vm_compute. reflexivity.
    + reflexivity.
    + vm_compute. left. reflexivity.
    + reflexivity.
Defined.

Lemma llm_loop_ends_by_exit_interrupt_or_escaping_exception_witness :
  exists fuel,
    Scenario.interactive_mode fuel [Console.Line "hello"; Console.Line "exit"]
    <> None.
Proof.
  apply (proj1 (proj2 (llm_loop_ends_by_exit_interrupt_or_escaping_exception
                         _ _ _ _ _ Fixture.chat_completions_create
                         Fixture.call_tool Fixture.json_loads Fixture.json_dumps
                         Fixture.str Fixture.with_key
                         Scenario.strip Scenario.lower Scenario.exn_str
                         Fixture.connected))
               concrete_collaborators_raise_exceptions_only
               [Console.Line "hello"; Console.Line "exit"] Scenario.repl_start).
  right. left. reflexivity.
Defined.

Lemma plain_session_raises_exceptions_only :
  forall sess tool_name arguments w e,
    fst (Scenario.plain_call_tool sess tool_name arguments w) = Raise e ->
    is_exception e = true.
Proof.
  intros sess tool_name arguments w e. unfold Scenario.plain_call_tool.
  destruct (String.eqb tool_name "greet"); [discriminate |].
  intros H. now injection H as <-.
Qed.

Lemma plain_loop_ends_by_exit_interrupt_or_escaping_exception_witness :
  exists fuel,
    HTTP.interactive_mode Scenario.plain_call_tool Scenario.split
      Scenario.strip Scenario.lower Scenario.to_float Scenario.show
      Scenario.exn_str Scenario.plain_connected fuel
      [Console.Line "calc divide 6 0"; Console.Interrupt] Scenario.plain_start
    <> None.
Proof.
  apply (proj1 (proj2 (plain_loop_ends_by_exit_interrupt_or_escaping_exception
                         _ _ _ Scenario.plain_call_tool Scenario.split
                         Scenario.strip Scenario.lower Scenario.to_float
                         Scenario.show Scenario.exn_str
                         Scenario.plain_connected))
               plain_session_raises_exceptions_only
               [Console.Line "calc divide 6 0"; Console.Interrupt]
               Scenario.plain_start).
  right. left. reflexivity.
Defined.
